(** * GetSeasonData: the season feature pipeline of F1-predictor

    A shallow embedding of [src/GetSeasonData.py] and the proofs of the
    properties its specification states.

    Conventions of the embedding.
    - A float64 is an exact rational kept in lowest terms ([Qred] after every
      operation); NaN, NaT and Python's [None] in a numeric column are the
      one missing value [None] of [float], which is what pandas' [isna] sees.
    - A DataFrame is its ordered column labels and its rows; a row maps a
      column label to a cell and has no entry where pandas holds NaN.
    - An exception is a value of [exn]; code that may raise lives in the
      [result] monad and [try ... except Exception] is [try_except]. *)

From Stdlib Require Import QArith Qreduction Lqa String Ascii.
From stdpp Require Import base option list gmap strings sorting.

Open Scope string_scope.
Open Scope list_scope.

Set Warnings "-clear-no-such-hyp".

(** ** Exceptions *)

Inductive exn :=
| KeyError (cols : list string)
| IndexError
| ValueError
| DataNotLoaded.

Inductive result (A : Type) :=
| Ok (a : A)
| Raise (e : exn).
Arguments Ok {A} a.
Arguments Raise {A} e.

Global Instance result_ret : MRet result := λ A a, Ok a.
Global Instance result_bind : MBind result := λ A B k m,
  match m with Ok a => k a | Raise e => Raise e end.

Definition try_except {A} (m : result A) (handler : A) : A :=
  match m with Ok a => a | Raise _ => handler end.

Definition is_Ok {A} (m : result A) : Prop := ∃ a, m = Ok a.

(** ** Numbers *)

Global Instance Q_eq_dec : EqDecision Q.
Proof. solve_decision. Defined.

Abbreviation float := (option Q).

Module Float.

Definition add (a b : float) : float :=
  match a, b with Some x, Some y => Some (Qplus' x y) | _, _ => None end.
Definition sub (a b : float) : float :=
  match a, b with Some x, Some y => Some (Qminus' x y) | _, _ => None end.
Definition mul (a b : float) : float :=
  match a, b with Some x, Some y => Some (Qmult' x y) | _, _ => None end.

Definition of_nat (n : nat) : Q := inject_Z (Z.of_nat n).

Definition isna (a : float) : bool :=
  match a with None => true | Some _ => false end.

Definition fillna (a d : float) : float :=
  match a with Some _ => a | None => d end.

(** [a == b] on floats: false as soon as one side is NaN. *)
Definition eqb (a b : float) : bool :=
  match a, b with Some x, Some y => Qeq_bool x y | _, _ => false end.

(** Order used by [sort_values]: ascending, NaN last. *)
Definition leb (a b : float) : bool :=
  match a, b with
  | Some x, Some y => Qle_bool x y
  | Some _, None => true
  | None, Some _ => false
  | None, None => true
  end.

Definition dropna (xs : list float) : list Q := omap id xs.

Definition total (xs : list Q) : Q := foldr Qplus' 0%Q xs.

(** [Series.sum()]: NaN skipped, 0 for an empty selection. *)
Definition sum (xs : list float) : Q := total (dropna xs).

(** [Series.mean()]: NaN skipped, NaN when nothing is left. *)
Definition mean (xs : list float) : float :=
  match dropna xs with
  | [] => None
  | ys => Some (Qred (total ys / of_nat (length ys)))
  end.

Definition Qmin' (x y : Q) : Q := if Qle_bool x y then x else y.
Definition Qmax' (x y : Q) : Q := if Qle_bool x y then y else x.

Definition min_list (xs : list Q) : float :=
  match xs with [] => None | x :: xs' => Some (foldl Qmin' x xs') end.
Definition max_list (xs : list Q) : float :=
  match xs with [] => None | x :: xs' => Some (foldl Qmax' x xs') end.

(** [Series.min()] and [Series.max()]: NaN skipped, NaN when empty. *)
Definition min (xs : list float) : float := min_list (dropna xs).
Definition max (xs : list float) : float := max_list (dropna xs).

End Float.

(** ** Sorting and ranking *)

Section sorting.
Context {A : Type} (le : A → A → bool).

Fixpoint insert_sorted (x : A) (l : list A) : list A :=
  match l with
  | [] => [x]
  | y :: l' => if le x y then x :: l else y :: insert_sorted x l'
  end.

(** Insertion sort; elements that compare equal keep their order. *)
Definition sort_by (l : list A) : list A := foldr insert_sorted [] l.
End sorting.

(** First occurrences, in order of appearance. *)
Fixpoint unique `{EqDecision A} (l : list A) : list A :=
  match l with
  | [] => []
  | x :: l' => x :: filter (λ y, y ≠ x) (unique l')
  end.

(** [Series.rank(method="min")] on a column without NaN: the values are put in
    order ([ascending] or not) and every value gets the 1-based position of
    the first value equal to it in that order. *)
Definition rank_order (ascending : bool) (x y : Q) : bool :=
  if ascending then Qle_bool x y else Qle_bool y x.

Definition first_position (x : Q) (sorted : list Q) : nat :=
  match list_find (λ y, Qeq_bool y x = true) sorted with
  | Some (i, _) => S i
  | None => 0
  end.

Definition rank_min (ascending : bool) (xs : list Q) : list nat :=
  let sorted := sort_by (rank_order ascending) xs in
  map (λ x, first_position x sorted) xs.

(** ** Strings *)

(** Python's [sub in s]. *)
Definition contains (sub s : string) : bool :=
  match String.index 0 sub s with Some _ => true | None => false end.

(** ** DataFrames

    The fragment of pandas the program uses. *)

Inductive cell :=
| Num (q : Q)
| Str (s : string).

Global Instance cell_eq_dec : EqDecision cell.
Proof. solve_decision. Defined.

Abbreviation row := (gmap string cell).

Record DataFrame := { columns : list string; rows : list row }.

Definition cell_float (c : option cell) : float :=
  match c with Some (Num q) => Some q | _ => None end.

Definition num (a : float) : option cell := Num <$> a.

(** Writing a cell; writing NaN leaves no entry. *)
Definition set_cell (c : string) (v : option cell) (r : row) : row :=
  match v with Some x => <[c:=x]> r | None => delete c r end.

Definition mk_row (cells : list (string * option cell)) : row :=
  foldr (λ cv r, set_cell cv.1 cv.2 r) ∅ cells.

(** Order of join and group keys: numbers, then strings, NaN last. *)
Definition cell_leb (a b : cell) : bool :=
  match a, b with
  | Num x, Num y => Qle_bool x y
  | Num _, Str _ => true
  | Str _, Num _ => false
  | Str x, Str y => String.leb x y
  end.

Definition key_leb (a b : option cell) : bool :=
  match a, b with
  | Some x, Some y => cell_leb x y
  | Some _, None => true
  | None, Some _ => false
  | None, None => true
  end.

(** [pd.DataFrame(columns=cols)] *)
Definition empty_frame (cols : list string) : DataFrame :=
  {| columns := cols; rows := [] |}.

(** [df.empty]: some axis has length 0. *)
Definition df_empty (df : DataFrame) : bool :=
  bool_decide (rows df = []) || bool_decide (columns df = []).

Definition column (c : string) (df : DataFrame) : list (option cell) :=
  map (λ r : row, r !! c) (rows df).

Definition select (on : string) (k : option cell) (rs : list row) : list row :=
  filter (λ r : row, r !! on = k) rs.

Definition merged_columns (on : string) (l r : DataFrame) : list string :=
  columns l ++ filter (λ c, c ≠ on) (columns r).

(** [l.merge(r, on=on, how="left")]: the order of [l] is kept; a row of [l]
    without partner keeps NaN in the columns of [r].  The tables merged in
    this program share no column but [on], so no suffix is ever added. *)
Definition merge_left (on : string) (l r : DataFrame) : DataFrame :=
  {| columns := merged_columns on l r;
     rows := x ← rows l;
             match select on (x !! on) (rows r) with
             | [] => [x]
             | ys => map (λ y, x ∪ y) ys
             end |}.

Definition join_key (on : string) (l r : DataFrame) (k : option cell) : list row :=
  match select on k (rows l), select on k (rows r) with
  | [], ys => ys
  | xs, [] => xs
  | xs, ys => x ← xs; map (λ y, x ∪ y) ys
  end.

(** [l.merge(r, on=on, how="outer")]: the union of the keys of both tables,
    in lexicographic order. *)
Definition merge_outer (on : string) (l r : DataFrame) : DataFrame :=
  {| columns := merged_columns on l r;
     rows := let keys := unique (column on l ++ column on r) in
             sort_by key_leb keys ≫= join_key on l r |}.

(** [pd.concat(dfs, ignore_index=True)] *)
Definition concat (dfs : list DataFrame) : result DataFrame :=
  match dfs with
  | [] => Raise ValueError
  | _ => Ok {| columns := unique (dfs ≫= columns); rows := dfs ≫= rows |}
  end.

(** [df[c] = v] for a scalar [v]. *)
Definition assign_const (c : string) (v : cell) (df : DataFrame) : DataFrame :=
  {| columns := if bool_decide (c ∈ columns df) then columns df else columns df ++ [c];
     rows := map (λ r : row, <[c:=v]> r) (rows df) |}.

(** [df[c] = f(row)] row by row. *)
Definition assign_with (c : string) (f : row → option cell) (df : DataFrame) : DataFrame :=
  {| columns := if bool_decide (c ∈ columns df) then columns df else columns df ++ [c];
     rows := map (λ r : row, set_cell c (f r) r) (rows df) |}.

(** [df.sort_values(by=c)] on a numeric column: ascending, NaN last.  pandas
    leaves the order of rows with equal keys to the sorting routine; here
    they keep their order. *)
Definition sort_values (c : string) (df : DataFrame) : DataFrame :=
  {| columns := columns df;
     rows := sort_by (λ x y : row, Float.leb (cell_float (x !! c)) (cell_float (y !! c)))
                     (rows df) |}.

(** [df.groupby(by).agg(out=(col, "mean"), ...).reset_index()]: a request for
    columns the table does not have raises [KeyError] with their sorted
    names; rows whose key is NaN belong to no group; groups come in key
    order. *)
Definition group_keys (key : string) (df : DataFrame) : list cell :=
  sort_by cell_leb (unique (omap id (column key df))).

Definition agg_row (key : string) (specs : list (string * string))
    (rs : list row) (k : cell) : row :=
  let group := select key (Some k) rs in
  foldr (λ s r, set_cell s.1 (num (Float.mean (map (λ x : row, cell_float (x !! s.2)) group))) r)
        {[ key := k ]} specs.

Definition groupby_mean (key : string) (specs : list (string * string))
    (df : DataFrame) : result DataFrame :=
  match filter (λ c, c ∉ columns df) (map snd specs) with
  | [] => Ok {| columns := key :: map fst specs;
                rows := map (agg_row key specs (rows df)) (group_keys key df) |}
  | missing => Raise (KeyError (sort_by String.leb missing))
  end.

(** [df.drop(c, axis=1)] and [df.rename(columns={old: new})]. *)
Definition drop (c : string) (df : DataFrame) : DataFrame :=
  {| columns := filter (λ x, x ≠ c) (columns df);
     rows := map (λ r : row, delete c r) (rows df) |}.

Definition rename (old new : string) (df : DataFrame) : DataFrame :=
  {| columns := map (λ x, if bool_decide (x = old) then new else x) (columns df);
     rows := map (λ r : row, set_cell new (r !! old) (delete old r)) (rows df) |}.

(** [df[c] = values] for an array: the lengths must agree. *)
Definition assign_values (c : string) (vs : list (option cell)) (df : DataFrame)
    : result DataFrame :=
  if bool_decide (length vs = length (rows df)) then
    Ok {| columns := if bool_decide (c ∈ columns df) then columns df else columns df ++ [c];
          rows := zip_with (λ (r : row) v, set_cell c v r) (rows df) vs |}
  else Raise ValueError.

(** ** Raw data of the timing source (FastF1)

    A session that cannot be loaded is [None]: [get_session(...).load()] or
    the first access to its tables raises. *)

Record Lap := {
  Driver : string;
  LapNumber : Q;
  LapTime : float;
  IsQuick : bool
}.

Record ResultRow := {
  Abbreviation : string;
  Position : float;
  Status : string;
  Time : float;
  Q1 : float;
  Q2 : float;
  Q3 : float
}.

Record Session := { laps : list Lap; results : list ResultRow }.

Definition load (s : option Session) : result Session :=
  match s with Some x => Ok x | None => Raise DataNotLoaded end.

(** Modelled from the spec: [Laps.pick_quicklaps] belongs to the timing
    library, not to the repository; the spec gives every RawLap an
    [is_quick_lap] flag decided by that collaborator, here [IsQuick]. *)
Definition pick_quicklaps (ls : list Lap) : list Lap :=
  filter (λ l, IsQuick l = true) ls.

Definition laps_of (driver : string) (ls : list Lap) : list Lap :=
  filter (λ l, Driver l = driver) ls.

(** The groups of [ls.groupby("Driver")], in key order. *)
Definition drivers_of (ls : list Lap) : list string :=
  sort_by String.leb (unique (map Driver ls)).

(** [ls.groupby("Driver")["LapTime"].mean().reset_index()] *)
Definition mean_laptime (ls : list Lap) : list (string * float) :=
  map (λ d, (d, Float.mean (map LapTime (laps_of d ls)))) (drivers_of ls).

(** ** get_fp_data *)

(** [laps.dropna(subset=["LapTime"])] *)
Definition timed_laps (ls : list Lap) : list Lap :=
  filter (λ l, LapTime l ≠ None) ls.

(** [laps.groupby("Driver").apply(lambda x: x.nsmallest(1, "LapTime"))]: per
    driver, in key order, the fastest lap time. *)
Definition fastest_laps (laps : list Lap) : list (string * float) :=
  map (λ d, (d, Float.min (map LapTime (laps_of d laps)))) (drivers_of laps).

Definition fp_fastest_time (laps : list Lap) : float :=
  Float.min (map snd (fastest_laps laps)).

Definition fp_frame (fpsession : string) (s : Session) : result DataFrame :=
  let laps := timed_laps (laps s) in
  let fastest_laps := fastest_laps laps in
  let fp_data :=
    {| columns := ["Driver"]; rows := map (λ p, {[ "Driver" := Str p.1 ]}) fastest_laps |} in
  let results :=
    {| columns := ["Driver"];
       rows := map (λ r, {[ "Driver" := Str (Abbreviation r) ]}) (results s) |} in
  let fp_data := merge_left "Driver" fp_data results in
  let fp_fastest_time := fp_fastest_time laps in
  let gaps := map (λ p, Float.sub p.2 fp_fastest_time) fastest_laps in
  fp_data ← assign_values ("GapToFastest_" +:+ fpsession) (map num gaps) fp_data;
  ranks ← match mapM id gaps with
          | Some qs => Ok (rank_min true qs)
          | None => Raise ValueError
          end;
  fp_data ← assign_values ("Position_" +:+ fpsession)
              (map (λ n, Some (Num (Float.of_nat n))) ranks) fp_data;
  let quicklaps := pick_quicklaps laps in
  let racepacemean :=
    {| columns := ["Driver"; "LapTime"];
       rows := map (λ p, mk_row [("Driver", Some (Str p.1)); ("LapTime", num p.2)])
                   (mean_laptime quicklaps) |} in
  let fp_data := merge_left "Driver" fp_data racepacemean in
  let fp_data := rename "LapTime" ("RacePace_" +:+ fpsession) fp_data in
  Ok (sort_values ("GapToFastest_" +:+ fpsession) fp_data).

Definition get_fp_data (fp : option Session) (fpsession : string) : result DataFrame :=
  s ← load fp; fp_frame fpsession s.

(** ** get_quali_data *)

Definition QualiLap (r : ResultRow) : float :=
  Float.fillna (Float.fillna (Q3 r) (Q2 r)) (Q1 r).

Definition pole_time (rs : list ResultRow) : float := Float.min (map Q3 rs).

Definition GapToPole (rs : list ResultRow) (r : ResultRow) : float :=
  Float.sub (QualiLap r) (pole_time rs).

Definition quali_row (rs : list ResultRow) (r : ResultRow) : row :=
  mk_row [("Driver", Some (Str (Abbreviation r)));
          ("Position_Quali", num (Position r));
          ("QualiLap", num (QualiLap r));
          ("GapToPole", num (GapToPole rs r))].

Definition quali_frame (s : Session) : DataFrame :=
  sort_values "Position_Quali"
    {| columns := ["Driver"; "Position_Quali"; "QualiLap"; "GapToPole"];
       rows := map (quali_row (results s)) (results s) |}.

Definition get_quali_data (quali : option Session) : result DataFrame :=
  s ← load quali; Ok (quali_frame s).

(** ** get_race_data *)

Definition simplify_status (s : string) : string :=
  if contains "Finished" s then "Finished"
  else if contains "Lap" s then "Lapped"
  else "DNF".

(** [results["Time"].isna().astype(int)] *)
Definition DNF_Dummy (r : ResultRow) : nat :=
  if Float.isna (Time r) then 1 else 0.

(** [results.loc[results["FinishingPosition"] == 1, "Time"].values[0]] *)
Definition winner_time (rs : list ResultRow) : result float :=
  match filter (λ r, Float.eqb (Position r) (Some 1%Q) = true) rs with
  | r :: _ => Ok (Time r)
  | [] => Raise IndexError
  end.

Definition total_laps (laps : list Lap) : float :=
  Float.max (map (λ l, Some (LapNumber l)) laps).

Definition completed_laps (laps : list Lap) (driver : string) : nat :=
  length (laps_of driver laps).

Definition missing_laps (laps : list Lap) (driver : string) : float :=
  Float.sub (total_laps laps) (Some (Float.of_nat (completed_laps laps driver))).

Definition avg_quicklap (quicklaps : list Lap) (driver : string) : float :=
  Float.mean (map LapTime (laps_of driver quicklaps)).

Definition base_time (winner : float) (r : ResultRow) : float :=
  if negb (Float.eqb (Position r) (Some 1%Q)) then Float.add winner (Time r) else winner.

Definition compute_racetime (laps quicklaps : list Lap) (winner : float)
    (r : ResultRow) : float :=
  if Nat.eqb (DNF_Dummy r) 1 then None
  else
    let driver := Abbreviation r in
    if contains "Lap" (Status r) then
      Float.add (base_time winner r)
                (Float.mul (avg_quicklap quicklaps driver) (missing_laps laps driver))
    else base_time winner r.

Definition race_pace (quicklaps : list Lap) : DataFrame :=
  let paces := mean_laptime quicklaps in
  let fastest_race_pace := Float.min (map snd paces) in
  {| columns := ["Driver"; "RacePace"; "GapToFastestRacePace"];
     rows := map (λ p, mk_row [("Driver", Some (Str p.1));
                               ("RacePace", num p.2);
                               ("GapToFastestRacePace", num (Float.sub p.2 fastest_race_pace))])
                 paces |}.

Definition race_row (laps quicklaps : list Lap) (winner : float) (r : ResultRow) : row :=
  mk_row [("Driver", Some (Str (Abbreviation r)));
          ("FinishingPosition", num (Position r));
          ("Status", Some (Str (Status r)));
          ("Time", num (Time r));
          ("DNF_Dummy", Some (Num (Float.of_nat (DNF_Dummy r))));
          ("FinishStatus", Some (Str (simplify_status (Status r))));
          ("RaceTime", num (compute_racetime laps quicklaps winner r))].

Definition race_frame (s : Session) : result DataFrame :=
  let laps := laps s in
  let quicklaps := pick_quicklaps laps in
  winner ← winner_time (results s);
  let results :=
    {| columns := ["Driver"; "FinishingPosition"; "Status"; "Time"; "DNF_Dummy";
                   "FinishStatus"; "RaceTime"];
       rows := map (race_row laps quicklaps winner) (results s) |} in
  let race_data := merge_left "Driver" results (race_pace quicklaps) in
  let race_data := drop "Time" race_data in
  Ok (sort_values "FinishingPosition" race_data).

Definition get_race_data (race : option Session) : result DataFrame :=
  s ← load race; race_frame s.

(** ** get_driver_standings

    The results provider (Ergast): the schedule of the season and, per round,
    the main-race and the sprint response.  A call that raises is [Raise]. *)

Record ErgastRow := { driverCode : string; points : float }.

Record ErgastResponse := {
  description_round : list nat;
  content : list (list ErgastRow)
}.

Record Ergast := {
  get_race_schedule : nat → result (list string);
  get_race_results : nat → nat → result ErgastResponse;
  get_sprint_results : nat → nat → result ErgastResponse
}.

(** [pd.merge(temp, sprint, on="driverCode", how="left")] followed by
    [points = points_race + points_sprint.fillna(0)]. *)
Definition add_sprint (sprint : list ErgastRow) (t : ErgastRow) : list ErgastRow :=
  match filter (λ s, driverCode s = driverCode t) sprint with
  | [] => [ {| driverCode := driverCode t;
               points := Float.add (points t) (Float.fillna None (Some 0%Q)) |} ]
  | ss => map (λ s, {| driverCode := driverCode t;
                       points := Float.add (points t) (Float.fillna (points s) (Some 0%Q)) |}) ss
  end.

(** [sprint.content and sprint.description['round'][0] == rnd + 1] *)
Definition sprint_of_round (sprint : ErgastResponse) (round : nat)
    : result (option (list ErgastRow)) :=
  match content sprint with
  | [] => Ok None
  | s0 :: _ =>
      match description_round sprint with
      | [] => Raise IndexError
      | r0 :: _ => Ok (if Nat.eqb r0 round then Some s0 else None)
      end
  end.

(** One pass of the loop body: the rows [round, driverCode, points] of a round. *)
Definition round_points (e : Ergast) (season round : nat) : result (list (nat * ErgastRow)) :=
  temp ← get_race_results e season round;
  temp ← match content temp with t0 :: _ => Ok t0 | [] => Raise IndexError end;
  sprint ← get_sprint_results e season round;
  sprint ← sprint_of_round sprint round;
  let temp := match sprint with
              | Some s0 => temp ≫= add_sprint s0
              | None => temp
              end in
  Ok (map (λ t, (round, t)) temp).

(** Rounds visited by [for rnd, race in races['raceName'].items()] before the
    [break]. *)
Definition rounds_upto (races : list string) (round_limit : nat) : list nat :=
  take round_limit (seq 1 (length races)).

Definition points_in (results : list (nat * ErgastRow)) (driver : string) : list float :=
  map (λ x, points x.2) (filter (λ x, driverCode x.2 = driver) results).

(** [results.pivot(index='driverCode', columns='round', values='points')]
    raises when a (driver, round) pair occurs twice; the row sum skips NaN. *)
Definition total_points (results : list (nat * ErgastRow)) (driver : string) : Q :=
  Float.sum (points_in results driver).

Definition pivot_index (results : list (nat * ErgastRow)) : result (list string) :=
  if bool_decide (NoDup (map (λ x, (x.1, driverCode x.2)) results))
  then Ok (sort_by String.leb (unique (map (λ x, driverCode x.2) results)))
  else Raise ValueError.

Definition standings_frame (results : list (nat * ErgastRow)) : result DataFrame :=
  index ← pivot_index results;
  let results_wide := map (λ d, (d, total_points results d)) index in
  let results_wide := sort_by (λ x y : string * Q, Qle_bool y.2 x.2) results_wide in
  let ChampPosition := rank_min false (map snd results_wide) in
  let standings := zip results_wide ChampPosition in
  let standings := sort_by (λ x y : string * Q * nat, Nat.leb x.2 y.2) standings in
  Ok {| columns := ["Driver"; "Points"; "ChampPosition"];
        rows := map (λ s, mk_row [("Driver", Some (Str s.1.1));
                                  ("Points", Some (Num s.1.2));
                                  ("ChampPosition", Some (Num (Float.of_nat s.2)))])
                    standings |}.

Definition get_driver_standings (e : Ergast) (season round_limit : nat)
    : result DataFrame :=
  races ← get_race_schedule e season;
  results ← mapM (round_points e season) (rounds_upto races round_limit);
  match results with
  | [] => Raise ValueError
  | _ => standings_frame (mjoin results)
  end.

(** ** get_season_data_with_features *)

(** What the program reads from outside: the timing source, by season, round
    and session name, and the results provider. *)
Record World := {
  get_session : nat → nat → string → option Session;
  ergast : Ergast
}.

Definition mapTeams : gmap string string :=
  list_to_map
    [("NOR", "McLaren"); ("PIA", "McLaren");
     ("VER", "Red Bull"); ("TSU", "Red Bull");
     ("HAM", "Ferrari"); ("LEC", "Ferrari");
     ("RUS", "Mercedes"); ("ANT", "Mercedes");
     ("ALB", "Williams"); ("SAI", "Williams");
     ("STR", "Aston Martin"); ("ALO", "Aston Martin");
     ("HAD", "Racing Bulls"); ("LAW", "Racing Bulls");
     ("HUL", "Kick Sauber"); ("BOR", "Kick Sauber");
     ("BEA", "Haas"); ("OCO", "Haas");
     ("GAS", "Alpine"); ("COL", "Alpine")].

(** The practice tables that could be loaded, in session order. *)
Definition fp_data (w : World) (season rnd : nat) : list DataFrame :=
  fp ← ["FP1"; "FP2"; "FP3"];
  match get_fp_data (get_session w season rnd fp) fp with
  | Ok fp_df => [fp_df]
  | Raise _ => []
  end.

Definition fp_merged (fp_data : list DataFrame) : DataFrame :=
  match fp_data with
  | [] => empty_frame ["Driver"]
  | df0 :: dfs => foldl (merge_outer "Driver") df0 dfs
  end.

Definition assemble (race_data quali_data fp_merged : DataFrame) (rnd : nat) : DataFrame :=
  let round_data := race_data in
  let round_data :=
    if negb (df_empty quali_data) then merge_outer "Driver" round_data quali_data
    else round_data in
  let round_data :=
    if negb (df_empty fp_merged) then merge_outer "Driver" round_data fp_merged
    else round_data in
  assign_const "Round" (Num (Float.of_nat rnd)) round_data.

Definition round_data (w : World) (season rnd : nat) : DataFrame :=
  let fp_merged := fp_merged (fp_data w season rnd) in
  let quali_data :=
    try_except (get_quali_data (get_session w season rnd "Q")) (empty_frame ["Driver"]) in
  let race_data :=
    try_except (get_race_data (get_session w season rnd "R")) (empty_frame ["Driver"]) in
  assemble race_data quali_data fp_merged rnd.

Definition rolling_specs : list (string * string) :=
  [("AvgGapToPole", "GapToPole");
   ("AvgFinishingPosition", "FinishingPosition");
   ("AvgQualiPosition", "Position_Quali");
   ("AvgFP1Position", "Position_FP1");
   ("AvgFP2Position", "Position_FP2");
   ("AvgFP3Position", "Position_FP3");
   ("AvgGaptofastestRacePace", "GapToFastestRacePace");
   ("DNFPercentage", "DNF_Dummy");
   ("AvgFP1Gap", "GapToFastest_FP1");
   ("AvgFP2Gap", "GapToFastest_FP2");
   ("AvgFP3Gap", "GapToFastest_FP3")].

Definition team_of (r : row) : option cell :=
  match r !! "Driver" with
  | Some (Str d) => Str <$> mapTeams !! d
  | _ => None
  end.

(** The rolling table of a round; [standings] is the outcome of
    [get_driver_standings(season, rnd)]. *)
Definition rolling_features (season_to_date : DataFrame) (standings : result DataFrame)
    : result DataFrame :=
  if df_empty season_to_date || negb (bool_decide ("Driver" ∈ columns season_to_date))
  then Ok (empty_frame ["Driver"])
  else
    rolling_features ← groupby_mean "Driver" rolling_specs season_to_date;
    let rolling_features := assign_with "Team" team_of rolling_features in
    Ok (match standings with
        | Ok standings => merge_left "Driver" rolling_features standings
        | Raise _ => rolling_features
        end).

Definition round_with_features (round_data rolling_features : DataFrame) : DataFrame :=
  if negb (df_empty rolling_features)
  then merge_left "Driver" round_data rolling_features
  else round_data.

(** The two lists the loop grows. *)
Record Acc := { cumulative_data : list DataFrame; all_rounds : list DataFrame }.

(** The body of [for rnd in range(1, round_limit + 1)]. *)
Definition step (w : World) (season : nat) (acc : Acc) (rnd : nat) : result Acc :=
  let round_data := round_data w season rnd in
  let cumulative_data := cumulative_data acc ++ [round_data] in
  season_to_date ← concat cumulative_data;
  rolling_features ←
    rolling_features season_to_date (get_driver_standings (ergast w) season rnd);
  Ok {| cumulative_data := cumulative_data;
        all_rounds := all_rounds acc ++ [round_with_features round_data rolling_features] |}.

Fixpoint for_each {S X} (body : S → X → result S) (xs : list X) (s : S) : result S :=
  match xs with
  | [] => Ok s
  | x :: xs' => s' ← body s x; for_each body xs' s'
  end.

Definition run (w : World) (season round_limit : nat) : result Acc :=
  for_each (step w season) (seq 1 round_limit)
           {| cumulative_data := []; all_rounds := [] |}.

Definition get_season_data_with_features (w : World) (season round_limit : nat)
    : result DataFrame :=
  acc ← run w season round_limit;
  concat (all_rounds acc).

(** The cell a literal row holds under a label: the first pair that names it. *)
Fixpoint lookup_cells (c : string) (cells : list (string * option cell)) : option cell :=
  match cells with
  | [] => None
  | cv :: cells' => if decide (cv.1 = c) then cv.2 else lookup_cells c cells'
  end.

(** The rows of a table that carry key [k]. *)
Definition has_key (on : string) (k : option cell) (df : DataFrame) : Prop :=
  ∃ r, r ∈ rows df ∧ r !! on = k.

(** Every entry of a row is under a column label of its table. *)
Definition well_formed (df : DataFrame) : Prop :=
  ∀ r c, r ∈ rows df → is_Some (r !! c) → c ∈ columns df.

(** ** Scenarios

    Concrete sessions and seasons on which the statements below are run. *)

Definition stint (driver : string) (n : nat) (t : Q) (quick : bool) : list Lap :=
  map (λ i, {| Driver := driver; LapNumber := Float.of_nat i;
               LapTime := Some t; IsQuick := quick |}) (seq 1 n).

Definition classified (driver : string) (position : float) (status : string)
    (time : float) : ResultRow :=
  {| Abbreviation := driver; Position := position; Status := status; Time := time;
     Q1 := None; Q2 := None; Q3 := None |}.

(** The race of the specification's reconstruction scenario: AAA leads in
    5400 s, BBB finishes 20 s behind, CCC is one lap down with 55 of 58 laps
    and a quick-lap pace of 92 s; DDD retires; EEE is lapped and set no quick
    lap. *)
Definition scenario_race : Session :=
  {| laps := stint "AAA" 58 90 true ++ stint "BBB" 58 91 true ++
             stint "CCC" 55 92 true ++ stint "DDD" 10 93 true ++
             stint "EEE" 56 99 false;
     results := [classified "AAA" (Some 1%Q) "Finished" (Some 5400%Q);
                 classified "BBB" (Some 2%Q) "Finished" (Some 20%Q);
                 classified "CCC" (Some 3%Q) "+1 Lap" (Some 95%Q);
                 classified "EEE" (Some 4%Q) "+2 Laps" (Some 130%Q);
                 classified "DDD" None "Retired" None] |}.

(** The part of [race_pace] a result row is merged with: the pace row of its
    driver, or nothing when the driver has none. *)
Definition pace_part (quicklaps : list Lap) (driver : string) (p : row) : Prop :=
  (p = ∅ ∧ select "Driver" (Some (Str driver)) (rows (race_pace quicklaps)) = []) ∨
  (p ∈ rows (race_pace quicklaps) ∧ p !! "Driver" = Some (Str driver)).

Definition is_winner (r : ResultRow) : Prop := Float.eqb (Position r) (Some 1%Q) = true.


Global Instance is_winner_dec r : Decision (is_winner r).
Proof. unfold is_winner. apply _. Defined.


Definition timed (driver : string) (position : Q) (q1 q2 q3 : float) : ResultRow :=
  {| Abbreviation := driver; Position := Some position; Status := "";
     Time := None; Q1 := q1; Q2 := q2; Q3 := q3 |}.

(** A qualifying hour that ends on a damp track: AAA takes pole in Q3 with
    90.0 s, BBB went out in Q1 with 89.5 s on the dry track. *)
Definition damp_qualifying : Session :=
  {| laps := [];
     results := [timed "AAA" 1 (Some 91%Q) (Some (181 # 2)) (Some 90%Q);
                 timed "BBB" 2 (Some (179 # 2)) None None] |}.


(** Counting with a boolean test, and "strictly ahead in the ranking order". *)
Fixpoint count_if {A} (f : A → bool) (l : list A) : nat :=
  match l with
  | [] => 0
  | x :: l' => (if f x then 1 else 0) + count_if f l'
  end.

Definition ahead (ascending : bool) (x y : Q) : bool :=
  negb (rank_order ascending y x).


(** Equality of floats up to the representation of the rational. *)
Definition float_equiv (a b : float) : Prop :=
  match a, b with
  | Some x, Some y => (x == y)%Q
  | None, None => True
  | _, _ => False
  end.

(** What the sprint adds to the main-race points of [driver]: nothing without
    a sprint for the round or without a sprint row of the driver, else the
    points of a sprint row of the driver (nothing when they are NaN). *)
Definition sprint_share (sprint : option (list ErgastRow)) (driver : string) (sp : Q) : Prop :=
  match sprint with
  | None => sp = 0%Q
  | Some s0 =>
      (filter (λ s, driverCode s = driver) s0 = [] ∧ sp = 0%Q) ∨
      (∃ s, s ∈ s0 ∧ driverCode s = driver ∧ Float.fillna (points s) (Some 0%Q) = Some sp)
  end.

Definition scored (driver : string) (pts : Q) : ErgastRow :=
  {| driverCode := driver; points := Some pts |}.

(** The season of the specification's standings scenario: two rounds without
    sprint, XXX scores 18 then 25, YYY scores 25 then 18. *)
Definition two_round_season : Ergast :=
  {| get_race_schedule := λ _, Ok ["Alpha Grand Prix"; "Beta Grand Prix"];
     get_race_results := λ _ round,
       Ok {| description_round := [round];
             content := [if Nat.eqb round 1
                         then [scored "XXX" 18; scored "YYY" 25]
                         else [scored "XXX" 25; scored "YYY" 18]] |};
     get_sprint_results := λ _ _, Ok {| description_round := []; content := [] |} |}.

(** A season whose first round has a sprint in which only XXX scored. *)
Definition sprint_season : Ergast :=
  {| get_race_schedule := λ _, Ok ["Alpha Grand Prix"];
     get_race_results := λ _ round,
       Ok {| description_round := [round];
             content := [[scored "XXX" 18; scored "YYY" 25]] |};
     get_sprint_results := λ _ round,
       Ok {| description_round := [round]; content := [[scored "XXX" 8]] |} |}.


(** A row of the standings for [driver]: the cumulative points of the driver
    and one more than the number of drivers with strictly more points. *)
Definition standing (results : list (nat * ErgastRow)) (index : list string)
    (driver : string) (x : row) : Prop :=
  x !! "Driver" = Some (Str driver) ∧
  x !! "Points" = Some (Num (total_points results driver)) ∧
  x !! "ChampPosition" =
  Some (Num (Float.of_nat
    (S (count_if (λ z, ahead false z (total_points results driver))
                 (map (total_points results) index))))).


(** One guarded step of the assembly: the outer merge, skipped for an empty
    table. *)
Definition merge_present (l r : DataFrame) : DataFrame :=
  if negb (df_empty r) then merge_outer "Driver" l r else l.


(** Tables of a round in which BBB starts from the pit lane without a
    qualifying time and CCC only drove the first practice. *)
Definition pit_lane_race : DataFrame :=
  {| columns := ["Driver"; "FinishingPosition"];
     rows := [mk_row [("Driver", Some (Str "AAA")); ("FinishingPosition", Some (Num 1%Q))];
              mk_row [("Driver", Some (Str "BBB")); ("FinishingPosition", Some (Num 2%Q))]] |}.

Definition pit_lane_quali : DataFrame :=
  {| columns := ["Driver"; "Position_Quali"];
     rows := [mk_row [("Driver", Some (Str "AAA")); ("Position_Quali", Some (Num 1%Q))]] |}.

Definition pit_lane_fp1 : DataFrame :=
  {| columns := ["Driver"; "Position_FP1"];
     rows := [mk_row [("Driver", Some (Str "CCC")); ("Position_FP1", Some (Num 1%Q))]] |}.


(** ** Rounds of the emitted table *)

(** The rows of the season table that carry round [rnd]. *)
Definition rows_of_round (rnd : nat) (table : DataFrame) : list row :=
  filter (λ r : row, r !! "Round" = Some (Num (Float.of_nat rnd))) (rows table).

(** What one pass of the loop emits, from the round records so far and the
    outcome of the standings call of the round. *)
Definition emit (history : list DataFrame) (standings : result DataFrame) : result DataFrame :=
  season_to_date ← concat history;
  rolling_features ← rolling_features season_to_date standings;
  match last history with
  | Some round_data => Ok (round_with_features round_data rolling_features)
  | None => Raise ValueError
  end.

Definition schedule_upto (n : nat) (races : result (list string)) : result (list string) :=
  match races with Ok races => Ok (take n races) | Raise e => Raise e end.

(** Two worlds hold the same data for the rounds 1..n. *)
Definition agree_upto (season n : nat) (w1 w2 : World) : Prop :=
  (∀ rnd kind, (1 ≤ rnd ≤ n)%nat →
     get_session w1 season rnd kind = get_session w2 season rnd kind) ∧
  schedule_upto n (get_race_schedule (ergast w1) season)
  = schedule_upto n (get_race_schedule (ergast w2) season) ∧
  (∀ rnd, (1 ≤ rnd ≤ n)%nat →
     get_race_results (ergast w1) season rnd = get_race_results (ergast w2) season rnd ∧
     get_sprint_results (ergast w1) season rnd = get_sprint_results (ergast w2) season rnd).

(** A practice session in which AAA and BBB share the fastest lap. *)
Definition scenario_practice : Session :=
  {| laps := stint "AAA" 3 90 true ++ stint "BBB" 2 90 true ++ stint "CCC" 2 (181 # 2) true;
     results := [classified "AAA" None "" None; classified "BBB" None "" None] |}.

Definition session_of (kind : string) : Session :=
  if String.eqb kind "R" then scenario_race
  else if String.eqb kind "Q" then damp_qualifying
  else scenario_practice.

(** A season in which every session of every round could be loaded. *)
Definition full_season : World :=
  {| get_session := λ _ _ kind, Some (session_of kind);
     ergast := two_round_season |}.

(** The same season seen before its third round was run. *)
Definition season_after_two : World :=
  {| get_session := λ _ rnd kind, if Nat.leb rnd 2 then Some (session_of kind) else None;
     ergast :=
       {| get_race_schedule := λ _, Ok ["Alpha Grand Prix"; "Beta Grand Prix"; "Gamma Grand Prix"];
          get_race_results := λ season rnd,
            if Nat.leb rnd 2 then get_race_results two_round_season season rnd
            else Raise DataNotLoaded;
          get_sprint_results := get_sprint_results two_round_season |} |}.

(** A season whose first round has no second practice. *)
Definition first_round_without_fp2 : World :=
  {| get_session := λ _ rnd kind,
       if Nat.eqb rnd 1 && String.eqb kind "FP2" then None else Some (session_of kind);
     ergast := two_round_season |}.

(** A season whose second round has no second practice. *)
Definition second_round_without_fp2 : World :=
  {| get_session := λ _ rnd kind,
       if Nat.eqb rnd 2 && String.eqb kind "FP2" then None else Some (session_of kind);
     ergast := two_round_season |}.


(** A boolean test of a returned value; an exception fails it. *)
Definition returns {A} (m : result A) (check : A → bool) : bool :=
  match m with Ok a => check a | Raise _ => false end.


(** The table of the season so far is complete: some round record
    has a row and every column the rolling aggregation asks for is in one. *)
Definition complete (history : list DataFrame) : Prop :=
  (∃ rd (x : row), rd ∈ history ∧ x ∈ rows rd) ∧
  ∀ c, c ∈ map snd rolling_specs → ∃ rd, rd ∈ history ∧ c ∈ columns rd.


(** The gaps of a practice session, and the row of the practice table of a
    driver with fastest lap [p.2]: the gap to the fastest of all and, as
    position, one more than the number of drivers with a smaller gap. *)
Definition fp_gaps (laps : list Lap) : list Q :=
  Float.dropna (map (λ p, Float.sub p.2 (fp_fastest_time laps)) (fastest_laps laps)).

Definition practice_entry (fpsession : string) (laps : list Lap)
    (p : string * float) (x : row) : Prop :=
  x !! "Driver" = Some (Str p.1) ∧
  x !! ("GapToFastest_" +:+ fpsession) = num (Float.sub p.2 (fp_fastest_time laps)) ∧
  ∃ g, Float.sub p.2 (fp_fastest_time laps) = Some g ∧
       x !! ("Position_" +:+ fpsession) =
       Some (Num (Float.of_nat (S (count_if (λ z, ahead true z g) (fp_gaps laps))))).

(** A season whose only round lists XXX twice in the main-race table. *)
Definition double_entry_season : Ergast :=
  {| get_race_schedule := λ _, Ok ["Alpha Grand Prix"];
     get_race_results := λ _ round,
       Ok {| description_round := [round];
             content := [[scored "XXX" 18; scored "YYY" 25; scored "XXX" 0]] |};
     get_sprint_results := λ _ _, Ok {| description_round := []; content := [] |} |}.


(** The row of [r] a row [x] is merged with when the key of [x] is held by at
    most one row of [r]: that row, or nothing. *)
Definition partner (on : string) (r : DataFrame) (x : row) : row :=
  default ∅ (head (select on (x !! on) (rows r))).

(** The row of the practice table of a driver whose fastest timed lap is
    [p.2]: the gap to the fastest lap of the session, as position one more
    than the number of drivers with a smaller gap, and as race pace the mean
    of the driver's quick timed laps. *)
Definition practice_row (fpsession : string) (laps : list Lap) (p : string * float) : row :=
  let gap := Float.sub p.2 (fp_fastest_time laps) in
  mk_row [("Driver", Some (Str p.1));
          ("GapToFastest_" +:+ fpsession, num gap);
          ("Position_" +:+ fpsession,
           Some (Num (Float.of_nat
             (S (count_if (λ z, ahead true z (default 0%Q gap)) (fp_gaps laps))))));
          ("RacePace_" +:+ fpsession,
           num (Float.mean (map LapTime (laps_of p.1 (pick_quicklaps laps)))))].

(** The row of the rolling table for the driver [k]: the means over the rows
    of the driver in the season so far, the team, and the row of the standings
    for the driver when the standings could be loaded. *)
Definition rolling_row (season_to_date : list row) (standings : result DataFrame)
    (k : cell) : row :=
  let aggregated := agg_row "Driver" rolling_specs season_to_date k in
  let with_team := set_cell "Team" (team_of aggregated) aggregated in
  match standings with
  | Ok standings => with_team ∪ partner "Driver" standings with_team
  | Raise _ => with_team
  end.

(** What the rolling table adds to a row of the round record. *)
Definition features (season_to_date : list row) (standings : result DataFrame)
    (a : row) : row :=
  match a !! "Driver" with
  | Some k => rolling_row season_to_date standings k
  | None => ∅
  end.

(** The labels a round record can carry. *)
Definition round_labels : list string :=
  ["Driver"; "FinishingPosition"; "Status"; "DNF_Dummy"; "FinishStatus"; "RaceTime";
   "RacePace"; "GapToFastestRacePace"; "Position_Quali"; "QualiLap"; "GapToPole";
   "GapToFastest_FP1"; "Position_FP1"; "RacePace_FP1";
   "GapToFastest_FP2"; "Position_FP2"; "RacePace_FP2";
   "GapToFastest_FP3"; "Position_FP3"; "RacePace_FP3"; "Round"].

(** A row as the round records hold them: it names its driver, all its
    labels are known, and its retirement flag is 0 or 1. *)
Definition round_row (x : row) : Prop :=
  (∃ d, x !! "Driver" = Some (Str d)) ∧
  (∀ c, is_Some (x !! c) → c ∈ round_labels) ∧
  (∀ v, x !! "DNF_Dummy" = Some v → v = Num 0%Q ∨ v = Num 1%Q).

(** The rows of a driver in the round records of the rounds 1..n. *)
Definition rows_so_far (w : World) (season n : nat) (d : string) : list row :=
  select "Driver" (Some (Str d)) (map (round_data w season) (seq 1 n) ≫= rows).

(** A season of which no session can be loaded. *)
Definition empty_season : World :=
  {| get_session := λ _ _ _, None; ergast := two_round_season |}.

(** A practice session whose results list AAA twice. *)
Definition double_listed_practice : Session :=
  {| laps := stint "AAA" 3 90 true ++ stint "BBB" 2 91 true;
     results := [classified "AAA" None "" None; classified "BBB" None "" None;
                 classified "AAA" None "" None] |}.

(** * Properties *)

(** ** Sorting, first occurrences *)

Section sorting_facts.
Context {A : Type} (le : A → A → bool).

Lemma insert_sorted_Permutation x l : insert_sorted le x l ≡ₚ x :: l.
Proof.
  induction l as [|y l IH]; simpl; [done|].
  destruct (le x y); [done|].
  rewrite IH. apply Permutation_swap.
Qed.

Lemma sort_by_Permutation l : sort_by le l ≡ₚ l.
Proof.
  induction l as [|x l IH]; simpl; [done|].
  rewrite insert_sorted_Permutation. by rewrite IH.
Qed.

Lemma elem_of_sort_by x l : x ∈ sort_by le l ↔ x ∈ l.
Proof. by rewrite sort_by_Permutation. Qed.

Lemma length_sort_by l : length (sort_by le l) = length l.
Proof. by rewrite sort_by_Permutation. Qed.

Hypothesis le_total : ∀ x y, le x y = true ∨ le y x = true.
Hypothesis le_trans : ∀ x y z, le x y = true → le y z = true → le x z = true.

Lemma insert_sorted_StronglySorted x l :
  StronglySorted (λ a b, le a b = true) l →
  StronglySorted (λ a b, le a b = true) (insert_sorted le x l).
Proof.
  induction 1 as [|y l Hl IH Hy]; simpl.
  - repeat constructor.
  - destruct (le x y) eqn:Hxy.
    + constructor; [by constructor|].
      constructor; [done|].
      eapply Forall_impl; [exact Hy|]. intros z Hz. by eapply le_trans.
    + constructor; [done|].
      rewrite insert_sorted_Permutation. constructor; [|done].
      destruct (le_total x y); congruence.
Qed.

Lemma sort_by_StronglySorted l : StronglySorted (λ a b, le a b = true) (sort_by le l).
Proof.
  induction l as [|x l IH]; simpl; [constructor|].
  by apply insert_sorted_StronglySorted.
Qed.
End sorting_facts.

Lemma elem_of_unique `{EqDecision A} (x : A) l : x ∈ unique l ↔ x ∈ l.
Proof.
  induction l as [|y l IH]; simpl; [done|].
  rewrite !elem_of_cons, list_elem_of_filter, IH.
  destruct (decide (x = y)); intuition congruence.
Qed.

Lemma NoDup_unique `{EqDecision A} (l : list A) : NoDup (unique l).
Proof.
  induction l as [|y l IH]; simpl; [constructor|].
  constructor.
  - rewrite list_elem_of_filter. intros [H _]. by apply H.
  - by apply NoDup_filter.
Qed.

(** ** Arithmetic on floats *)

Lemma Qle_bool_false x y : Qle_bool x y = false → (y < x)%Q.
Proof.
  intros H. apply Qnot_le_lt. intros Hle.
  apply Qle_bool_iff in Hle. congruence.
Qed.

Lemma Qred_zero q : (q == 0)%Q → Qred q = 0%Q.
Proof. intros H. by rewrite (Qred_complete _ _ H). Qed.

Lemma min_fold_spec xs x :
  let m := foldl Float.Qmin' x xs in
  m ∈ x :: xs ∧ (m <= x)%Q ∧ Forall (λ y, (m <= y)%Q) xs.
Proof.
  revert x. induction xs as [|y xs IH]; intros x; simpl.
  - split; [left|split; [apply Qle_refl|constructor]].
  - destruct (IH (Float.Qmin' x y)) as (Hin & Hle & Hall).
    unfold Float.Qmin' in *.
    destruct (Qle_bool x y) eqn:Hxy.
    + apply Qle_bool_iff in Hxy.
      split; [|split; [done|constructor; [lra|done]]].
      apply elem_of_cons in Hin as [->|Hin]; [left|by do 2 right].
    + apply Qle_bool_false in Hxy.
      split; [by right|split; [lra|by constructor]].
Qed.

Lemma min_list_spec xs m :
  Float.min_list xs = Some m → m ∈ xs ∧ Forall (λ y, (m <= y)%Q) xs.
Proof.
  destruct xs as [|x xs]; simpl; [done|].
  intros [= <-]. destruct (min_fold_spec xs x) as (? & ? & ?).
  split; [done|by constructor].
Qed.

Lemma min_list_is_Some xs : xs ≠ [] → is_Some (Float.min_list xs).
Proof. destruct xs; [done|]. simpl. eauto. Qed.

Lemma elem_of_dropna (x : Q) (xs : list float) : x ∈ Float.dropna xs ↔ Some x ∈ xs.
Proof.
  unfold Float.dropna. rewrite list_elem_of_omap. split.
  - intros (y & Hy & Hx). simpl in Hx. by subst.
  - intros H. by exists (Some x).
Qed.

(** The smallest value bounds every defined one from below. *)
Lemma min_le (xs : list float) m x :
  Float.min xs = Some m → Some x ∈ xs → (m <= x)%Q.
Proof.
  unfold Float.min. intros Hm Hx.
  apply min_list_spec in Hm as [_ Hall].
  rewrite Forall_forall in Hall. apply Hall. by apply elem_of_dropna.
Qed.

Lemma min_elem_of (xs : list float) m : Float.min xs = Some m → Some m ∈ xs.
Proof.
  unfold Float.min. intros Hm.
  apply min_list_spec in Hm as [Hin _]. by apply elem_of_dropna.
Qed.

Lemma min_is_Some (xs : list float) x : Some x ∈ xs → is_Some (Float.min xs).
Proof.
  intros Hx. apply min_list_is_Some. apply elem_of_dropna in Hx.
  intros E. rewrite E in Hx. by apply elem_of_nil in Hx.
Qed.

(** A gap to the smallest value is never negative, and is zero at it. *)
Lemma gap_nonneg (xs : list float) (x : float) g :
  x ∈ xs → Float.sub x (Float.min xs) = Some g → (0 <= g)%Q.
Proof.
  intros Hx. destruct x as [x|]; [|done].
  destruct (Float.min xs) as [m|] eqn:Hm; [|done].
  simpl. intros [= <-]. pose proof (min_le _ _ _ Hm Hx).
  unfold Qminus'. rewrite Qred_correct. lra.
Qed.

Lemma gap_zero (x m : Q) : (x == m)%Q → Float.sub (Some x) (Some m) = Some 0%Q.
Proof.
  intros H. simpl. f_equal. unfold Qminus'. apply Qred_zero. lra.
Qed.

Lemma mean_skipna (xs : list float) : Float.mean (None :: xs) = Float.mean xs.
Proof. done. Qed.

Lemma mean_nil : Float.mean [] = None.
Proof. done. Qed.

(** ** Rows and merges *)

Lemma Ok_inj {A} (a b : A) : Ok a = Ok b → a = b.
Proof. congruence. Qed.

Lemma lookup_set_cell c v (r : row) c' :
  set_cell c v r !! c' = if decide (c = c') then v else r !! c'.
Proof.
  unfold set_cell. destruct v as [x|].
  - rewrite lookup_insert. by case_decide.
  - rewrite lookup_delete. by case_decide.
Qed.

Lemma lookup_mk_row cells c : mk_row cells !! c = lookup_cells c cells.
Proof.
  induction cells as [|[c' v] cells IH]; simpl; [done|].
  rewrite lookup_set_cell. simpl. by case_decide.
Qed.

Lemma elem_of_select on k (rs : list row) (r : row) :
  r ∈ select on k rs ↔ r ∈ rs ∧ r !! on = k.
Proof. unfold select. rewrite list_elem_of_filter. tauto. Qed.

Lemma select_nil on k (rs : list row) :
  select on k rs = [] ↔ ∀ r, r ∈ rs → r !! on ≠ k.
Proof.
  split.
  - intros E r Hr Hk.
    assert (r ∈ select on k rs) as H by (by apply elem_of_select).
    rewrite E in H. by apply elem_of_nil in H.
  - intros H. destruct (select on k rs) as [|r l] eqn:E; [done|].
    assert (r ∈ select on k rs) as Hr by (rewrite E; left).
    apply elem_of_select in Hr as [Hr Hk]. by destruct (H r Hr).
Qed.

Lemma elem_of_merge_left on (l r : DataFrame) (x : row) :
  x ∈ rows (merge_left on l r) ↔
  ∃ a, a ∈ rows l ∧
       ((select on (a !! on) (rows r) = [] ∧ x = a) ∨
        (∃ b, b ∈ rows r ∧ b !! on = a !! on ∧ x = a ∪ b)).
Proof.
  unfold merge_left. cbn [rows]. rewrite list_elem_of_bind. split.
  - intros (a & Hx & Ha). exists a. split; [done|].
    destruct (select on (a !! on) (rows r)) as [|b0 bs] eqn:E.
    + left. apply list_elem_of_singleton in Hx. by subst.
    + right. apply list_elem_of_fmap in Hx as (b & -> & Hb).
      rewrite <- E in Hb. apply elem_of_select in Hb as [Hb Hk]. by exists b.
  - intros (a & Ha & [[E ->]|(b & Hb & Hk & ->)]); exists a; (split; [|done]).
    + rewrite E. by left.
    + assert (b ∈ select on (a !! on) (rows r)) as Hs by (by apply elem_of_select).
      destruct (select on (a !! on) (rows r)) as [|b0 bs] eqn:E.
      * by apply elem_of_nil in Hs.
      * apply list_elem_of_fmap. by exists b.
Qed.

Lemma elem_of_join_key on (l r : DataFrame) k (x : row) :
  x ∈ join_key on l r k ↔
  (x ∈ rows l ∧ x !! on = k ∧ select on k (rows r) = []) ∨
  (x ∈ rows r ∧ x !! on = k ∧ select on k (rows l) = []) ∨
  (∃ a b, a ∈ rows l ∧ b ∈ rows r ∧ a !! on = k ∧ b !! on = k ∧ x = a ∪ b).
Proof.
  assert (∀ xs ys : list row,
    x ∈ (match xs, ys with
         | [], _ => ys
         | a0 :: xs', [] => a0 :: xs'
         | a0 :: xs', b0 :: ys' => a ← a0 :: xs'; map (λ b, a ∪ b) (b0 :: ys')
         end) ↔
    (x ∈ xs ∧ ys = []) ∨ (x ∈ ys ∧ xs = []) ∨
    (∃ a b, a ∈ xs ∧ b ∈ ys ∧ x = a ∪ b)) as Hmatch.
  { intros xs ys. destruct xs as [|a0 xs]; [|destruct ys as [|b0 ys]].
    - split; [intros Hx; by right; left|].
      intros [[Hx _]|[[Hx _]|(a & b & Ha & _)]]; [|done|];
        by apply elem_of_nil in Hx || apply elem_of_nil in Ha.
    - split; [intros Hx; by left|].
      intros [[Hx _]|[[Hx _]|(a & b & _ & Hb & _)]]; [done| |];
        by apply elem_of_nil in Hx || apply elem_of_nil in Hb.
    - rewrite list_elem_of_bind. split.
      + intros (a & Hx & Ha). apply list_elem_of_fmap in Hx as (b & -> & Hb).
        right; right. by exists a, b.
      + intros [[_ ?]|[[_ ?]|(a & b & Ha & Hb & ->)]]; [done|done|].
        exists a. split; [|done]. apply list_elem_of_fmap. by exists b. }
  unfold join_key.
  etrans; [exact (Hmatch (select on k (rows l)) (select on k (rows r)))|].
  rewrite !elem_of_select. split.
  - intros [[[Hx Hk] E]|[[[Hx Hk] E]|(a & b & Ha & Hb & ->)]].
    + by left.
    + by right; left.
    + apply elem_of_select in Ha as [Ha Hka], Hb as [Hb Hkb].
      right; right. by exists a, b.
  - intros [(Hx & Hk & E)|[(Hx & Hk & E)|(a & b & Ha & Hb & Hka & Hkb & ->)]].
    + by left.
    + by right; left.
    + right; right. exists a, b. by rewrite !elem_of_select.
Qed.

Lemma elem_of_column c (df : DataFrame) k : k ∈ column c df ↔ has_key c k df.
Proof.
  unfold column, has_key. rewrite list_elem_of_fmap. split.
  - intros (r & -> & Hr). by exists r.
  - intros (r & Hr & <-). by exists r.
Qed.

(** The rows of an outer merge: the unmatched rows of either side and the
    unions of the rows that share a key. *)
Lemma elem_of_merge_outer on (l r : DataFrame) (x : row) :
  x ∈ rows (merge_outer on l r) ↔
  (x ∈ rows l ∧ select on (x !! on) (rows r) = []) ∨
  (x ∈ rows r ∧ select on (x !! on) (rows l) = []) ∨
  (∃ a b, a ∈ rows l ∧ b ∈ rows r ∧ a !! on = b !! on ∧ x = a ∪ b).
Proof.
  simpl. rewrite list_elem_of_bind. split.
  - intros (k & Hx & _). apply elem_of_join_key in Hx.
    destruct Hx as [(Hx & <- & E)|[(Hx & <- & E)|(a & b & Ha & Hb & Hka & Hkb & ->)]].
    + by left.
    + by right; left.
    + right; right. exists a, b. by rewrite Hka, Hkb.
  - intros H.
    assert (∃ k, x ∈ join_key on l r k ∧ (has_key on k l ∨ has_key on k r))
      as (k & Hx & Hk).
    { destruct H as [[Hx E]|[[Hx E]|(a & b & Ha & Hb & Hk & ->)]].
      - exists (x !! on). split; [|left; by exists x].
        apply elem_of_join_key. by left.
      - exists (x !! on). split; [|right; by exists x].
        apply elem_of_join_key. by right; left.
      - exists (a !! on). split; [|left; by exists a].
        apply elem_of_join_key. right; right. by exists a, b. }
    exists k. split; [done|].
    rewrite elem_of_sort_by, elem_of_unique, elem_of_app, !elem_of_column. done.
Qed.

(** ** The race table *)

Lemma elem_of_sort_values c (df : DataFrame) (x : row) :
  x ∈ rows (sort_values c df) ↔ x ∈ rows df.
Proof. simpl. apply elem_of_sort_by. Qed.

Lemma simplify_status_Lapped s :
  simplify_status s = "Lapped" → contains "Lap" s = true.
Proof.
  unfold simplify_status.
  destruct (contains "Finished" s); [done|].
  by destruct (contains "Lap" s).
Qed.

Lemma winner_time_find rs :
  winner_time rs =
  match list_find is_winner rs with
  | Some (_, r0) => Ok (Time r0)
  | None => Raise IndexError
  end.
Proof.
  unfold winner_time, is_winner.
  induction rs as [|r rs IH]; [done|].
  rewrite filter_cons. simpl.
  destruct (decide (Float.eqb (Position r) (Some 1%Q) = true)) as [Hr|Hr]; [done|].
  rewrite IH. by destruct (list_find _ rs) as [[??]|].
Qed.

Lemma race_pace_row_lookup quicklaps (p : row) c :
  p ∈ rows (race_pace quicklaps) →
  c ∉ ["Driver"; "RacePace"; "GapToFastestRacePace"] → p !! c = None.
Proof.
  unfold race_pace. cbn [rows]. intros Hp Hc.
  apply list_elem_of_fmap in Hp as ([d v] & -> & _).
  cbn beta. rewrite lookup_mk_row. simpl.
  repeat (case_decide; [subst; exfalso; apply Hc; set_solver|]). done.
Qed.

Lemma pace_part_lookup quicklaps d (p : row) c :
  pace_part quicklaps d p →
  c ∉ ["Driver"; "RacePace"; "GapToFastestRacePace"] → p !! c = None.
Proof.
  intros [[-> _]|[Hp _]] Hc; [done|]. by eapply race_pace_row_lookup.
Qed.

(** The rows of the race table: one per result row and matching pace row. *)
Lemma race_frame_rows (s : Session) (df : DataFrame) :
  race_frame s = Ok df →
  ∃ winner, winner_time (results s) = Ok winner ∧
    ∀ x, x ∈ rows df ↔
      ∃ r p, r ∈ results s ∧
        pace_part (pick_quicklaps (laps s)) (Abbreviation r) p ∧
        x = delete "Time" (race_row (laps s) (pick_quicklaps (laps s)) winner r ∪ p).
Proof.
  unfold race_frame.
  destruct (winner_time (results s)) as [winner|e] eqn:Hw; [|done].
  simpl. intros [= <-]. exists winner. split; [done|].
  intros x. rewrite elem_of_sort_values. unfold drop. cbn [rows].
  rewrite list_elem_of_fmap.
  set (quick := pick_quicklaps (laps s)).
  set (res := {| columns := _; rows := map _ (results s) |}).
  assert (∀ r, race_row (laps s) quick winner r !! "Driver" = Some (Str (Abbreviation r)))
    as Hkey by (intros r; unfold race_row; by rewrite lookup_mk_row).
  split.
  - intros (y & -> & Hy).
    apply elem_of_merge_left in Hy as (a & Ha & Hy).
    apply list_elem_of_fmap in Ha as (r & -> & Hr).
    rewrite Hkey in Hy.
    destruct Hy as [[E ->]|(b & Hb & Hk & ->)].
    + exists r, ∅. split; [done|]. split; [by left|].
      by rewrite (right_id ∅ (∪)).
    + exists r, b. split; [done|]. split; [by right|done].
  - intros (r & p & Hr & Hp & ->).
    exists (race_row (laps s) quick winner r ∪ p). split; [done|].
    apply elem_of_merge_left. exists (race_row (laps s) quick winner r).
    split; [apply list_elem_of_fmap; by exists r|].
    rewrite Hkey. destruct Hp as [[-> E]|[Hp Hk]].
    + left. split; [done|]. by rewrite (right_id ∅ (∪)).
    + right. by exists p.
Qed.

Lemma pace_part_exists quicklaps d : ∃ p, pace_part quicklaps d p.
Proof.
  destruct (select "Driver" (Some (Str d)) (rows (race_pace quicklaps))) as [|p ps] eqn:E.
  - exists ∅. by left.
  - exists p. right. apply elem_of_select. rewrite E. left.
Qed.

Lemma race_row_lookup_left laps quicklaps winner r (p : row) d c :
  pace_part quicklaps d p →
  c ∈ ["Driver"; "FinishingPosition"; "Status"; "DNF_Dummy"; "FinishStatus"; "RaceTime"] →
  delete "Time" (race_row laps quicklaps winner r ∪ p) !! c
  = race_row laps quicklaps winner r !! c.
Proof.
  intros Hp Hc.
  assert (c ≠ "Time") by (intros ->; set_solver).
  rewrite lookup_delete_ne by done.
  rewrite lookup_union.
  destruct (race_row laps quicklaps winner r !! c) as [v|] eqn:E.
  - by destruct (p !! c).
  - rewrite (pace_part_lookup _ _ _ _ Hp); [done|].
    intros Hc'. unfold race_row in E. rewrite lookup_mk_row in E.
    assert (c = "Driver") as -> by set_solver. done.
Qed.

(** ** Race-time reconstruction *)

(** C2, as stated, fails: a status that contains both "Finished" and "Lap"
    classifies to Finished, yet [compute_racetime] tests the raw status for
    "Lap" and adds the estimate for the missing laps.  Here the driver is
    95 s behind a leader at 5400 s, three laps short at a pace of 92 s. *)
Lemma finished_status_naming_a_lap :
  let r := classified "CCC" (Some 3%Q) "Finished (+1 Lap)" (Some 95%Q) in
  let laps := laps scenario_race in
  Time r = Some 95%Q ∧
  simplify_status (Status r) = "Finished" ∧
  Float.add (Some 5400%Q) (Time r) = Some 5495%Q ∧
  compute_racetime laps (pick_quicklaps laps) (Some 5400%Q) r = Some 5771%Q.
Proof. vm_compute. done. Qed.

(** C2, amended: for a driver with a recorded time, a status that classifies
    to Finished and does not contain "Lap" gives the leader's time plus the
    recorded gap (the leader's time itself for the leader); a status that
    classifies to Lapped adds (largest lap number of the session minus the
    driver's lap count) times the driver's mean quick-lap pace.  With a leader
    at 5400 the Finished driver 20 behind gets 5420, and the "+1 Lap" driver
    with 55 of 58 laps, pace 92 and gap 95 gets 5771. *)
Theorem racetime_reconstruction (laps : list Lap) (winner : float) (r : ResultRow) (t : Q) :
  Time r = Some t →
  let quicklaps := pick_quicklaps laps in
  let driver := Abbreviation r in
  let base := if Float.eqb (Position r) (Some 1%Q) then winner
              else Float.add winner (Some t) in
  (simplify_status (Status r) = "Finished" → contains "Lap" (Status r) = false →
   compute_racetime laps quicklaps winner r = base) ∧
  (simplify_status (Status r) = "Lapped" →
   compute_racetime laps quicklaps winner r =
   Float.add base
     (Float.mul (avg_quicklap quicklaps driver)
        (Float.sub (total_laps laps) (Some (Float.of_nat (completed_laps laps driver)))))) ∧
  (winner = Some 5400%Q → t = 20%Q → Float.eqb (Position r) (Some 1%Q) = false →
   Status r = "Finished" →
   compute_racetime laps quicklaps winner r = Some 5420%Q) ∧
  (winner = Some 5400%Q → t = 95%Q → Float.eqb (Position r) (Some 1%Q) = false →
   Status r = "+1 Lap" →
   completed_laps laps driver = 55 → total_laps laps = Some 58%Q →
   avg_quicklap quicklaps driver = Some 92%Q →
   compute_racetime laps quicklaps winner r = Some 5771%Q).
Proof.
  intros Ht quicklaps driver base.
  assert (compute_racetime laps quicklaps winner r =
          if contains "Lap" (Status r) then
            Float.add base (Float.mul (avg_quicklap quicklaps driver)
                                      (missing_laps laps driver))
          else base) as Hc.
  { unfold compute_racetime, DNF_Dummy, base_time, base.
    rewrite Ht. simpl. by destruct (Float.eqb (Position r) (Some 1%Q)). }
  repeat split.
  - intros _ Hlap. by rewrite Hc, Hlap.
  - intros Hs. by rewrite Hc, (simplify_status_Lapped _ Hs).
  - intros -> -> Hp Hs. rewrite Hc, Hs. unfold base. by rewrite Hp.
  - intros -> -> Hp Hs Hn Htot Havg. rewrite Hc, Hs.
    unfold base, missing_laps. by rewrite Hp, Havg, Htot, Hn.
Qed.

Lemma racetime_reconstruction_scenario :
  let r := classified "CCC" (Some 3%Q) "+1 Lap" (Some 95%Q) in
  let laps := laps scenario_race in
  Time r = Some 95%Q ∧
  compute_racetime laps (pick_quicklaps laps) (Some 5400%Q) r = Some 5771%Q.
Proof.
  split; [reflexivity|].
  apply (racetime_reconstruction (laps scenario_race) (Some 5400%Q)
           (classified "CCC" (Some 3%Q) "+1 Lap" (Some 95%Q)) 95%Q eq_refl);
    vm_compute; reflexivity.
Defined.

(** Every result row is in the race table, with the reconstruction made from
    the looked-up winner time; the table has no other rows. *)
Lemma race_frame_racetime (s : Session) (df : DataFrame) winner :
  race_frame s = Ok df → winner_time (results s) = Ok winner →
  let racetime r := num (compute_racetime (laps s) (pick_quicklaps (laps s)) winner r) in
  (∀ x, x ∈ rows df → ∃ r, r ∈ results s ∧
     x !! "Driver" = Some (Str (Abbreviation r)) ∧
     x !! "Status" = Some (Str (Status r)) ∧
     x !! "RaceTime" = racetime r) ∧
  (∀ r, r ∈ results s → ∃ x, x ∈ rows df ∧
     x !! "Driver" = Some (Str (Abbreviation r)) ∧
     x !! "Status" = Some (Str (Status r)) ∧
     x !! "RaceTime" = racetime r).
Proof.
  intros Hdf Hw racetime.
  destruct (race_frame_rows s df Hdf) as (w & Hw' & Hrows).
  assert (w = winner) as -> by congruence.
  assert (∀ r p, pace_part (pick_quicklaps (laps s)) (Abbreviation r) p →
    let x := delete "Time" (race_row (laps s) (pick_quicklaps (laps s)) winner r ∪ p) in
    x !! "Driver" = Some (Str (Abbreviation r)) ∧
    x !! "Status" = Some (Str (Status r)) ∧
    x !! "RaceTime" = racetime r) as Hlook.
  { intros r p Hp x. unfold x.
    rewrite !(race_row_lookup_left _ _ _ _ _ _ _ Hp) by set_solver.
    unfold race_row. by rewrite !lookup_mk_row. }
  split.
  - intros x Hx. apply Hrows in Hx as (r & p & Hr & Hp & ->).
    exists r. split; [done|]. by apply Hlook.
  - intros r Hr. destruct (pace_part_exists (pick_quicklaps (laps s)) (Abbreviation r)) as [p Hp].
    exists (delete "Time" (race_row (laps s) (pick_quicklaps (laps s)) winner r ∪ p)).
    split; [|by apply Hlook].
    apply Hrows. by exists r, p.
Qed.

Lemma race_frame_is_Ok (s : Session) winner :
  winner_time (results s) = Ok winner → is_Ok (race_frame s).
Proof. intros Hw. unfold race_frame. rewrite Hw. simpl. by eexists. Qed.

Lemma get_race_data_Some (s : Session) : get_race_data (Some s) = race_frame s.
Proof. done. Qed.

(** C10: without a result row of position 1 the lookup of the winner's time
    raises and [get_race_data] returns no table; with such a row the lookup
    succeeds, the table is returned, and every reconstruction in it is made
    with the recorded time of the first row of position 1. *)
Theorem classified_winner_lookup (s : Session) :
  ((∀ r, r ∈ results s → ¬ is_winner r) → get_race_data (Some s) = Raise IndexError) ∧
  ((∃ r, r ∈ results s ∧ is_winner r) →
   ∃ i r0 df,
     list_find is_winner (results s) = Some (i, r0) ∧
     winner_time (results s) = Ok (Time r0) ∧
     get_race_data (Some s) = Ok df ∧
     (∀ x, x ∈ rows df → ∃ r, r ∈ results s ∧
        x !! "Driver" = Some (Str (Abbreviation r)) ∧
        x !! "RaceTime" =
        num (compute_racetime (laps s) (pick_quicklaps (laps s)) (Time r0) r)) ∧
     (∀ r, r ∈ results s → ∃ x, x ∈ rows df ∧
        x !! "Driver" = Some (Str (Abbreviation r)) ∧
        x !! "RaceTime" =
        num (compute_racetime (laps s) (pick_quicklaps (laps s)) (Time r0) r))).
Proof.
  split.
  - intros Hnone. rewrite get_race_data_Some. unfold race_frame.
    rewrite winner_time_find.
    destruct (list_find is_winner (results s)) as [[i r0]|] eqn:E; [|done].
    apply list_find_Some in E as (Hi & Hr0 & _).
    destruct (Hnone r0); [|done]. by eapply list_elem_of_lookup_2.
  - intros (r & Hr & Hwin).
    destruct (list_find_elem_of is_winner _ _ Hr Hwin) as [[i r0] E].
    assert (winner_time (results s) = Ok (Time r0)) as Hw
      by (by rewrite winner_time_find, E).
    destruct (race_frame_is_Ok s _ Hw) as [df Hdf].
    exists i, r0, df. rewrite get_race_data_Some.
    split; [done|]. split; [done|]. split; [done|].
    destruct (race_frame_racetime s df _ Hdf Hw) as [H1 H2]. split.
    + intros x Hx. destruct (H1 x Hx) as (r' & ? & ? & ? & ?). by exists r'.
    + intros r' Hr'. destruct (H2 r' Hr') as (x & ? & ? & ? & ?). by exists x.
Qed.

Lemma classified_winner_lookup_scenario :
  (∃ r, r ∈ results scenario_race ∧ is_winner r) ∧
  ∃ df, get_race_data (Some scenario_race) = Ok df ∧
        winner_time (results scenario_race) = Ok (Some 5400%Q).
Proof.
  assert (∃ r, r ∈ results scenario_race ∧ is_winner r) as Hex.
  { exists (classified "AAA" (Some 1%Q) "Finished" (Some 5400%Q)).
    split; [left|reflexivity]. }
  split; [exact Hex|].
  destruct (proj2 (classified_winner_lookup scenario_race) Hex)
    as (i & r0 & df & _ & _ & Hdf & _).
  exists df. split; [exact Hdf|reflexivity].
Defined.

(** ** Aggregation ignores the columns it is not asked for *)

Lemma lookup_set_cell_ne c v (r : row) c' : c ≠ c' → set_cell c v r !! c' = r !! c'.
Proof. intros H. rewrite lookup_set_cell. by case_decide. Qed.

Lemma select_assign key k c (f : row → option cell) (rs : list row) :
  c ≠ key →
  select key k (map (λ r : row, set_cell c (f r) r) rs)
  = map (λ r : row, set_cell c (f r) r) (select key k rs).
Proof.
  intros Hc. unfold select. induction rs as [|r rs IH]; [done|].
  simpl. rewrite !filter_cons, lookup_set_cell_ne by done.
  case_decide; simpl; by rewrite IH.
Qed.

Lemma agg_row_assign key specs c (f : row → option cell) (rs : list row) k :
  c ≠ key → c ∉ map snd specs →
  agg_row key specs (map (λ r : row, set_cell c (f r) r) rs) k = agg_row key specs rs k.
Proof.
  intros Hkey Hc. unfold agg_row. rewrite select_assign by done.
  induction specs as [|sp specs IH]; [done|].
  simpl. rewrite IH by (intros H; apply Hc; by right).
  do 3 f_equal. rewrite <- list_fmap_compose. apply list_fmap_ext.
  intros _ x _. simpl. rewrite lookup_set_cell_ne; [done|].
  intros ->. apply Hc. by left.
Qed.

Lemma groupby_mean_assign_other key specs c f (df : DataFrame) :
  c ≠ key → c ∉ map snd specs → c ∈ columns df →
  groupby_mean key specs (assign_with c f df) = groupby_mean key specs df.
Proof.
  intros Hkey Hc Hin. unfold groupby_mean, assign_with. cbn [columns rows].
  rewrite bool_decide_eq_true_2 by done.
  destruct (filter _ (map snd specs)); [|done]. do 2 f_equal.
  assert (group_keys key {| columns := columns df;
                            rows := map (λ r : row, set_cell c (f r) r) (rows df) |}
          = group_keys key df) as ->.
  { unfold group_keys, column. cbn [rows]. do 3 f_equal.
    rewrite <- list_fmap_compose. apply list_fmap_ext.
    intros _ x _. simpl. by rewrite lookup_set_cell_ne. }
  apply list_fmap_ext. intros _ k _. by apply agg_row_assign.
Qed.

(** ** Drivers without a quick lap *)

Lemma avg_quicklap_none quicklaps d : laps_of d quicklaps = [] → avg_quicklap quicklaps d = None.
Proof. unfold avg_quicklap. by intros ->. Qed.

Lemma add_mul_nan (a b : float) : Float.add a (Float.mul None b) = None.
Proof. by destruct a. Qed.

(** C7: a driver classified as Lapped without a quick lap has no mean
    quick-lap pace, and the reconstructed race time is the missing value, in
    the race table too, whatever the winner's time.  The table is returned
    exactly when the winner lookup succeeds, every other driver keeps the
    reconstruction of their own row, defined for a driver with a recorded time
    whose status has no "Lap" when the winner's time is recorded, and the
    rolling means do not read the race time. *)
Theorem zero_quicklaps_degrades (s : Session) (r : ResultRow) :
  r ∈ results s →
  simplify_status (Status r) = "Lapped" →
  laps_of (Abbreviation r) (pick_quicklaps (laps s)) = [] →
  let quicklaps := pick_quicklaps (laps s) in
  avg_quicklap quicklaps (Abbreviation r) = None ∧
  (∀ winner, compute_racetime (laps s) quicklaps winner r = None) ∧
  (is_Ok (get_race_data (Some s)) ↔ is_Ok (winner_time (results s))) ∧
  (∀ df winner,
     get_race_data (Some s) = Ok df → winner_time (results s) = Ok winner →
     (∃ x, x ∈ rows df ∧ x !! "Driver" = Some (Str (Abbreviation r)) ∧
           x !! "RaceTime" = None) ∧
     (∀ x, x ∈ rows df →
           x !! "Driver" = Some (Str (Abbreviation r)) →
           x !! "Status" = Some (Str (Status r)) → x !! "RaceTime" = None) ∧
     (∀ r', r' ∈ results s → ∃ x, x ∈ rows df ∧
           x !! "Driver" = Some (Str (Abbreviation r')) ∧
           x !! "RaceTime" = num (compute_racetime (laps s) quicklaps winner r')) ∧
     (∀ r' t w, r' ∈ results s → Time r' = Some t → winner = Some w →
           contains "Lap" (Status r') = false →
           ∃ x, x ∈ rows df ∧ x !! "Driver" = Some (Str (Abbreviation r')) ∧
                is_Some (x !! "RaceTime"))) ∧
  (∀ (season_to_date : DataFrame) f,
     "RaceTime" ∈ columns season_to_date →
     groupby_mean "Driver" rolling_specs (assign_with "RaceTime" f season_to_date)
     = groupby_mean "Driver" rolling_specs season_to_date).
Proof.
  intros Hr Hs Hq quicklaps. subst quicklaps.
  assert (∀ winner r', Abbreviation r' = Abbreviation r → Status r' = Status r →
                       compute_racetime (laps s) (pick_quicklaps (laps s)) winner r' = None) as Hnone.
  { intros winner r' Ha Hst. unfold compute_racetime.
    destruct (Nat.eqb (DNF_Dummy r') 1); [done|].
    rewrite Hst, (simplify_status_Lapped _ Hs), Ha.
    rewrite (avg_quicklap_none _ _ Hq). apply add_mul_nan. }
  split; [by apply avg_quicklap_none|].
  split; [intros winner; by apply Hnone|].
  split.
  { rewrite get_race_data_Some. split.
    - intros [df Hdf]. destruct (race_frame_rows s df Hdf) as (w & Hw & _). by exists w.
    - intros [w Hw]. by eapply race_frame_is_Ok. }
  split.
  - intros df winner Hdf Hw. rewrite get_race_data_Some in Hdf.
    destruct (race_frame_racetime s df winner Hdf Hw) as [H1 H2].
    split; [|split; [|split]].
    + destruct (H2 r Hr) as (x & Hx & Hd & _ & Ht). exists x.
      split; [done|]. split; [done|]. rewrite Ht. by rewrite Hnone.
    + intros x Hx Hd Hst. destruct (H1 x Hx) as (r' & _ & Hd' & Hst' & ->).
      rewrite Hnone; [done|congruence|congruence].
    + intros r' Hr'. destruct (H2 r' Hr') as (x & ? & ? & _ & ?). by exists x.
    + intros r' t w Hr' Ht -> Hlap. destruct (H2 r' Hr') as (x & Hx & Hd & _ & Hrt).
      exists x. split; [done|]. split; [done|]. rewrite Hrt.
      unfold compute_racetime, DNF_Dummy, base_time. rewrite Ht, Hlap. simpl.
      destruct (Float.eqb (Position r') (Some 1%Q)); simpl; eauto.
  - intros std f Hin. apply groupby_mean_assign_other; [done| |done].
    apply (bool_decide_unpack _). by vm_compute.
Qed.

Lemma zero_quicklaps_scenario :
  let r := classified "EEE" (Some 4%Q) "+2 Laps" (Some 130%Q) in
  r ∈ results scenario_race ∧
  simplify_status (Status r) = "Lapped" ∧
  laps_of (Abbreviation r) (pick_quicklaps (laps scenario_race)) = [] ∧
  compute_racetime (laps scenario_race) (pick_quicklaps (laps scenario_race))
                   (Some 5400%Q) r = None.
Proof.
  assert (classified "EEE" (Some 4%Q) "+2 Laps" (Some 130%Q) ∈ results scenario_race)
    as Hin by (do 3 apply list_elem_of_further; apply list_elem_of_here).
  split; [exact Hin|]. split; [reflexivity|]. split; [reflexivity|].
  apply (zero_quicklaps_degrades scenario_race _ Hin eq_refl eq_refl).
Defined.

(** ** Ranks *)

Ltac q_prop :=
  repeat match goal with
  | H : Qle_bool _ _ = true |- _ => apply Qle_bool_iff in H
  | H : Qle_bool _ _ = false |- _ => apply Qle_bool_false in H
  | H : Qeq_bool _ _ = true |- _ => apply Qeq_bool_iff in H
  | H : Qeq_bool _ _ = false |- _ => apply Qeq_bool_neq in H
  end.

(** Decide every comparison in sight and leave the arithmetic to [lra]. *)
Ltac q_cases :=
  unfold ahead, rank_order in *; cbv beta iota in *;
  repeat match goal with
  | H : negb _ = _ |- _ => revert H
  | H : _ && _ = _ |- _ => revert H
  end;
  repeat match goal with
  | |- context [Qle_bool ?a ?b] => destruct (Qle_bool a b) eqn:?
  | |- context [Qeq_bool ?a ?b] => destruct (Qeq_bool a b) eqn:?
  end;
  cbv beta iota delta [negb andb]; intros; try done; q_prop; try lra.

Lemma rank_order_total asc x y : rank_order asc x y = true ∨ rank_order asc y x = true.
Proof. destruct asc; q_cases; auto. Qed.

Lemma rank_order_trans asc x y z :
  rank_order asc x y = true → rank_order asc y z = true → rank_order asc x z = true.
Proof. destruct asc; intros; q_cases. Qed.

Lemma count_if_Permutation {A} (f : A → bool) l1 l2 :
  l1 ≡ₚ l2 → count_if f l1 = count_if f l2.
Proof. induction 1; simpl; lia. Qed.

Lemma first_position_cons x z l :
  first_position x (z :: l) =
  if Qeq_bool z x then 1
  else match first_position x l with 0 => 0 | S n => S (S n) end.
Proof.
  unfold first_position. simpl.
  destruct (Qeq_bool z x) eqn:E.
  - by rewrite decide_True.
  - rewrite decide_False by congruence.
    by destruct (list_find _ l) as [[??]|].
Qed.

(** In a sorted list the first value equal to [x] comes right after the
    values strictly ahead of [x]. *)
Lemma first_position_sorted asc x l :
  StronglySorted (λ a b, rank_order asc a b = true) l →
  (∃ y, y ∈ l ∧ Qeq_bool y x = true) →
  first_position x l = S (count_if (λ z, ahead asc z x) l).
Proof.
  induction 1 as [|z l Hl IH Hz]; intros (y & Hy & Hyx).
  - by apply elem_of_nil in Hy.
  - rewrite first_position_cons. simpl.
    destruct (Qeq_bool z x) eqn:Hzx.
    + assert (ahead asc z x = false) as -> by (destruct asc; q_cases).
      assert (count_if (λ w, ahead asc w x) l = 0) as ->; [|done].
      clear IH Hl Hy. induction l as [|w l IHl]; [done|].
      apply Forall_cons in Hz as [Hzw Hz]. simpl. rewrite IHl by done.
      assert (ahead asc w x = false) as ->; [|done].
      destruct asc; q_cases.
    + apply elem_of_cons in Hy as [->|Hy]; [congruence|].
      rewrite IH by eauto.
      rewrite Forall_forall in Hz. specialize (Hz y Hy).
      assert (ahead asc z x = true) as ->; [|done].
      destruct asc; q_cases.
Qed.

Lemma rank_min_lookup asc xs i x :
  xs !! i = Some x →
  rank_min asc xs !! i = Some (S (count_if (λ z, ahead asc z x) xs)).
Proof.
  intros Hi. unfold rank_min. rewrite list_lookup_fmap, Hi. simpl. f_equal.
  rewrite (first_position_sorted asc).
  - f_equal. apply count_if_Permutation, sort_by_Permutation.
  - apply sort_by_StronglySorted; [apply rank_order_total|apply rank_order_trans].
  - exists x. split; [|by apply Qeq_bool_iff].
    apply elem_of_sort_by. by eapply list_elem_of_lookup_2.
Qed.

Lemma count_if_ext {A} (f g : A → bool) l :
  (∀ x, x ∈ l → f x = g x) → count_if f l = count_if g l.
Proof.
  induction l as [|x l IH]; intros H; [done|]. simpl.
  rewrite (H x) by left. rewrite IH; [done|]. intros y Hy. apply H. by right.
Qed.

(** The values ahead of [y] are those ahead of [x], those tied with [x] and
    those strictly between the two. *)
Lemma count_ahead_split asc x y l :
  ahead asc x y = true →
  count_if (λ z, ahead asc z y) l =
  count_if (λ z, ahead asc z x) l + count_if (λ z, Qeq_bool z x) l
  + count_if (λ z, ahead asc x z && ahead asc z y) l.
Proof.
  intros Hxy. induction l as [|z l IH]; [done|]. simpl. rewrite IH.
  assert ((if ahead asc z y then 1 else 0) =
          (if ahead asc z x then 1 else 0) + (if Qeq_bool z x then 1 else 0)
          + (if ahead asc x z && ahead asc z y then 1 else 0)) as ->; [|lia].
  destruct asc; q_cases.
Qed.

Lemma count_if_none {A} (f : A → bool) l :
  (∀ x, x ∈ l → f x = false) → count_if f l = 0.
Proof.
  induction l as [|x l IH]; intros H; [done|]. simpl.
  rewrite (H x) by left. rewrite IH; [done|]. intros y Hy. apply H. by right.
Qed.

(** ** Lists: binds of non-empty pieces and zips *)

Lemma length_bind_ge {A B} (f : A → list B) (l : list A) :
  (∀ a, a ∈ l → f a ≠ []) → (length l ≤ length (l ≫= f))%nat.
Proof.
  induction l as [|a l IH]; intros Hne; [done|].
  rewrite bind_cons, length_app. simpl.
  assert (f a ≠ []) as Ha by (apply Hne; left).
  assert (length l ≤ length (l ≫= f))%nat by (apply IH; intros b Hb; apply Hne; by right).
  destruct (f a); [done|]. simpl. lia.
Qed.

(** When every piece is made of copies of its seed and the total length is
    unchanged, the bind is the identity. *)
Lemma bind_copies_id {A} (f : A → list A) (l : list A) :
  (∀ a, a ∈ l → f a ≠ [] ∧ ∀ b, b ∈ f a → b = a) →
  length (l ≫= f) = length l → l ≫= f = l.
Proof.
  induction l as [|a l IH]; intros Hf Hlen; [done|].
  rewrite bind_cons in *. rewrite length_app in Hlen. simpl in Hlen.
  destruct (Hf a) as [Hne Hall]; [left|].
  assert (length l ≤ length (l ≫= f))%nat.
  { apply length_bind_ge. intros b Hb. apply Hf. by right. }
  destruct (f a) as [|b [|b' bs]] eqn:E; [done| |simpl in Hlen; lia].
  rewrite (Hall b) by left. simpl. f_equal.
  apply IH; [|simpl in Hlen; lia]. intros c Hc. apply Hf. by right.
Qed.

Lemma zip_with_fmap_diag {A B C D} (h : B → C → D) (f : A → B) (g : A → C) (l : list A) :
  zip_with h (map f l) (map g l) = map (λ x, h (f x) (g x)) l.
Proof. induction l as [|a l IH]; [done|]. simpl. by rewrite IH. Qed.

Lemma elem_of_zip_with {A B C} (f : A → B → C) (l : list A) (k : list B) (x : C) :
  x ∈ zip_with f l k → ∃ a b, a ∈ l ∧ b ∈ k ∧ x = f a b.
Proof.
  revert k. induction l as [|a l IH]; intros [|b k] Hx; simpl in Hx;
    try by apply elem_of_nil in Hx.
  apply elem_of_cons in Hx as [->|Hx].
  - exists a, b. repeat split; left.
  - destruct (IH k Hx) as (a' & b' & ? & ? & ?). exists a', b'.
    repeat split; [by right|by right|done].
Qed.

Lemma elem_of_zip_with_l {A B C} (f : A → B → C) (l : list A) (k : list B) (a : A) :
  length l = length k → a ∈ l → ∃ b, b ∈ k ∧ f a b ∈ zip_with f l k.
Proof.
  revert k. induction l as [|a' l IH]; intros [|b k] Hlen Ha; simpl in *;
    try done; try by apply elem_of_nil in Ha.
  apply elem_of_cons in Ha as [->|Ha].
  - exists b. split; left.
  - destruct (IH k) as (b' & ? & ?); [lia|done|]. exists b'. split; by right.
Qed.

(** ** The practice table *)

Lemma elem_of_drivers_of d (ls : list Lap) : d ∈ drivers_of ls ↔ ∃ l, l ∈ ls ∧ Driver l = d.
Proof.
  unfold drivers_of. rewrite elem_of_sort_by, elem_of_unique, list_elem_of_fmap.
  split; intros (l & ? & ?); by exists l.
Qed.

Lemma elem_of_laps_of d (ls : list Lap) l : l ∈ laps_of d ls ↔ l ∈ ls ∧ Driver l = d.
Proof. unfold laps_of. rewrite list_elem_of_filter. tauto. Qed.

Lemma fastest_laps_timed (ls : list Lap) p :
  p ∈ fastest_laps (timed_laps ls) → ∃ t, p.2 = Some t.
Proof.
  unfold fastest_laps. intros Hp.
  apply list_elem_of_fmap in Hp as (d & -> & Hd). simpl.
  apply elem_of_drivers_of in Hd as (l & Hl & Hdl).
  assert (LapTime l ≠ None) as Ht.
  { unfold timed_laps in Hl. by apply list_elem_of_filter in Hl as [? _]. }
  destruct (LapTime l) as [t0|] eqn:E; [|done].
  apply (min_is_Some _ t0). apply list_elem_of_fmap. exists l.
  split; [done|]. by apply elem_of_laps_of.
Qed.

Lemma fp_fastest_time_is_Some (ls : list Lap) p :
  p ∈ fastest_laps (timed_laps ls) → is_Some (fp_fastest_time (timed_laps ls)).
Proof.
  intros Hp. destruct (fastest_laps_timed _ _ Hp) as [t Ht].
  apply (min_is_Some _ t). apply list_elem_of_fmap. by exists p.
Qed.

Lemma merge_left_keys_only on (l r : DataFrame) :
  (∀ x, x ∈ rows l → ∃ v, x = {[ on := v ]}) →
  (∀ y, y ∈ rows r → ∃ v, y = {[ on := v ]}) →
  length (rows (merge_left on l r)) = length (rows l) →
  rows (merge_left on l r) = rows l.
Proof.
  intros Hl Hr. unfold merge_left. cbn [rows]. apply bind_copies_id.
  intros a Ha. destruct (select on (a !! on) (rows r)) as [|y ys] eqn:E.
  - split; [done|]. by intros b ->%list_elem_of_singleton.
  - split; [done|]. intros b Hb. apply list_elem_of_fmap in Hb as (y' & -> & Hy').
    rewrite <- E in Hy'. apply elem_of_select in Hy' as [Hy' Hk].
    destruct (Hl a Ha) as [v ->]. destruct (Hr y' Hy') as [v' ->].
    rewrite !lookup_singleton_eq in Hk. injection Hk as ->.
    apply (idemp_L (∪)).
Qed.

Lemma merge_left_keeps on (l r : DataFrame) (x : row) :
  x ∈ rows (merge_left on l r) →
  ∃ a, a ∈ rows l ∧ ∀ c, is_Some (a !! c) → x !! c = a !! c.
Proof.
  intros Hx. apply elem_of_merge_left in Hx as (a & Ha & [[_ ->]|(b & _ & _ & ->)]);
    exists a; (split; [done|]); [done|].
  intros c [v Hv]. rewrite lookup_union, Hv. by destruct (b !! c).
Qed.

Lemma merge_left_covers on (l r : DataFrame) (a : row) :
  a ∈ rows l →
  ∃ x, x ∈ rows (merge_left on l r) ∧ ∀ c, is_Some (a !! c) → x !! c = a !! c.
Proof.
  intros Ha. destruct (select on (a !! on) (rows r)) as [|b bs] eqn:E.
  - exists a. split; [|done]. apply elem_of_merge_left. exists a. split; [done|]. by left.
  - assert (b ∈ select on (a !! on) (rows r)) as Hb by (rewrite E; left).
    apply elem_of_select in Hb as [Hb Hk].
    exists (a ∪ b). split.
    + apply elem_of_merge_left. exists a. split; [done|]. right. by exists b.
    + intros c [v Hv]. rewrite lookup_union, Hv. by destruct (b !! c).
Qed.

Lemma elem_of_rename old new (df : DataFrame) (x : row) :
  x ∈ rows (rename old new df) ↔
  ∃ y, y ∈ rows df ∧ x = set_cell new (y !! old) (delete old y).
Proof.
  unfold rename. cbn [rows]. rewrite list_elem_of_fmap.
  split; intros (y & ? & ?); by exists y.
Qed.

Lemma lookup_rename_other old new (y : row) c :
  c ≠ old → c ≠ new → set_cell new (y !! old) (delete old y) !! c = y !! c.
Proof. intros ??. by rewrite lookup_set_cell_ne, lookup_delete_ne. Qed.

Lemma assign_values_Ok c vs (df df' : DataFrame) :
  assign_values c vs df = Ok df' →
  length vs = length (rows df) ∧
  rows df' = zip_with (λ (r : row) v, set_cell c v r) (rows df) vs.
Proof.
  unfold assign_values. case_bool_decide; [|done]. by intros [= <-].
Qed.

Lemma first_position_least x l :
  (∃ y, y ∈ l ∧ (y == x)%Q) →
  ∃ i y, first_position x l = S i ∧ l !! i = Some y ∧ (y == x)%Q ∧
         ∀ p z, l !! p = Some z → (z == x)%Q → (i ≤ p)%nat.
Proof.
  intros (y & Hy & Hyx). unfold first_position.
  destruct (list_find_elem_of (λ y, Qeq_bool y x = true) l y Hy) as [[i y'] E];
    [by apply Qeq_bool_iff|].
  rewrite E. apply list_find_Some in E as (Hi & Hy' & Hleast).
  exists i, y'. split; [done|]. split; [done|]. split; [by apply Qeq_bool_iff|].
  intros p z Hp Hz. destruct (decide (p < i)%nat) as [Hlt|]; [|lia].
  destruct (Hleast p z Hp Hlt). by apply Qeq_bool_iff.
Qed.

Lemma first_position_count asc xs x :
  x ∈ xs →
  first_position x (sort_by (rank_order asc) xs)
  = S (count_if (λ z, ahead asc z x) xs).
Proof.
  intros Hx. rewrite (first_position_sorted asc).
  - f_equal. apply count_if_Permutation, sort_by_Permutation.
  - apply sort_by_StronglySorted; [apply rank_order_total|apply rank_order_trans].
  - exists x. split; [by apply elem_of_sort_by|by apply Qeq_bool_iff].
Qed.

Lemma mapM_id_Some {A} (l : list (option A)) (k : list A) (d : A) :
  mapM id l = Some k → k = omap id l ∧ k = map (default d) l.
Proof.
  intros H%mapM_Some. induction H as [|x y l k Hxy _ [IH1 IH2]]; [done|].
  simpl in Hxy. subst x. split.
  - cbn [omap list_omap id]. by rewrite <- IH1.
  - cbn [map default]. by rewrite <- IH2.
Qed.

Lemma fp_frame_rows fp (s : Session) (df : DataFrame) :
  fp_frame fp s = Ok df →
  let tl := timed_laps (laps s) in
  (∀ x, x ∈ rows df → ∃ p, p ∈ fastest_laps tl ∧ practice_entry fp tl p x) ∧
  (∀ p, p ∈ fastest_laps tl → ∃ x, x ∈ rows df ∧ practice_entry fp tl p x).
Proof.
  intros H tl. unfold fp_frame in H. cbv zeta in H. fold tl in H.
  set (gapcol := "GapToFastest_" +:+ fp) in *.
  set (poscol := "Position_" +:+ fp) in *.
  set (fl := fastest_laps tl) in *. set (m := fp_fastest_time tl) in *.
  set (fp0 := {| columns := ["Driver"]; rows := map _ fl |}) in H.
  set (res := {| columns := ["Driver"]; rows := map _ (results s) |}) in H.
  set (pace := {| columns := ["Driver"; "LapTime"]; rows := _ |}) in H.
  destruct (assign_values _ _ (merge_left "Driver" fp0 res)) as [fp2|] eqn:E2; [|done].
  cbn [mbind result_bind] in H.
  destruct (mapM id _) as [qs|] eqn:Eqs; [|done].
  cbn [mbind result_bind] in H.
  destruct (assign_values _ _ fp2) as [fp3|] eqn:E3; [|done].
  cbn [mbind result_bind] in H. apply Ok_inj in H. subst df.
  apply assign_values_Ok in E2 as [Hlen2 Hrows2].
  apply assign_values_Ok in E3 as [_ Hrows3].
  rewrite !length_map in Hlen2.
  assert (rows (merge_left "Driver" fp0 res) = rows fp0) as Hrows.
  { apply merge_left_keys_only.
    - intros x Hx. apply list_elem_of_fmap in Hx as (p & -> & _). eauto.
    - intros x Hx. apply list_elem_of_fmap in Hx as (p & -> & _). eauto.
    - simpl. by rewrite length_map. }
  rewrite Hrows in Hrows2. unfold fp0 in Hrows2. cbn [rows] in Hrows2.
  rewrite <- list_fmap_compose in Hrows2.
  rewrite zip_with_fmap_diag in Hrows2.
  apply (mapM_id_Some _ _ 0%Q) in Eqs as [Hqs Hdef].
  change (qs = fp_gaps tl) in Hqs.
  set (sorted := sort_by (rank_order true) qs) in *.
  set (rank (p : string * float) := Some (Num (Float.of_nat
                   (first_position (default 0%Q (Float.sub p.2 m)) sorted)))).
  assert (rows fp3 =
          map (λ p, set_cell poscol (rank p)
                      (set_cell gapcol (num (Float.sub p.2 m)) {[ "Driver" := Str p.1 ]})) fl)
    as Hfp3.
  { rewrite Hrows3, Hrows2. unfold rank_min. fold sorted.
    rewrite Hdef at 1. rewrite <- !list_fmap_compose.
    by rewrite zip_with_fmap_diag. }
  clear Hrows3 Hrows2 Hrows Hlen2.
  assert (∀ p, p ∈ fl → is_Some (Float.sub p.2 m)) as Hgap.
  { intros p Hp. destruct (fastest_laps_timed _ _ Hp) as [t ->].
    destruct (fp_fastest_time_is_Some _ _ Hp) as [m' Hm]. change (m = Some m') in Hm.
    rewrite Hm. simpl. eauto. }
  assert (∀ p (x : row), p ∈ fl →
            x !! "Driver" = Some (Str p.1) →
            x !! gapcol = num (Float.sub p.2 m) →
            x !! poscol = rank p → practice_entry fp tl p x) as Hentry.
  { intros p x Hp HD HG HP. split; [done|]. split; [done|].
    destruct (Hgap p Hp) as [g Hg]. exists g. split; [done|].
    fold poscol. rewrite HP. unfold rank. rewrite Hg. simpl default.
    unfold sorted. rewrite first_position_count; [by rewrite Hqs|].
    rewrite Hdef. apply list_elem_of_fmap. exists (Float.sub p.2 m).
    split; [by rewrite Hg|]. apply list_elem_of_fmap. by exists p. }
  assert (∀ p, let x3 := set_cell poscol (rank p)
                 (set_cell gapcol (num (Float.sub p.2 m)) {[ "Driver" := Str p.1 ]}) in
               p ∈ fl →
               x3 !! "Driver" = Some (Str p.1) ∧
               x3 !! gapcol = num (Float.sub p.2 m) ∧
               x3 !! poscol = rank p ∧ is_Some (x3 !! gapcol)) as Hx3.
  { intros p x3 Hp. unfold x3.
    rewrite !(lookup_set_cell_ne poscol) by done.
    rewrite lookup_set_cell_ne by done.
    rewrite !lookup_set_cell, !decide_True by done.
    rewrite lookup_singleton_eq. destruct (Hgap p Hp) as [g ->]. simpl. eauto. }
  assert (∀ (x y : row) c, c ∈ ["Driver"; gapcol; poscol] →
            x = set_cell ("RacePace_" +:+ fp) (y !! "LapTime") (delete "LapTime" y) →
            x !! c = y !! c) as Hren.
  { intros x y c Hc ->. apply lookup_rename_other; intros ->;
      repeat (apply elem_of_cons in Hc as [Hc|Hc]; [done|]); by apply elem_of_nil in Hc. }
  split.
  - intros x Hx. apply elem_of_sort_values, elem_of_rename in Hx as (x4 & Hx4 & Hx).
    apply merge_left_keeps in Hx4 as (x3 & Hin3 & Hkeep).
    rewrite Hfp3 in Hin3. apply list_elem_of_fmap in Hin3 as (p & -> & Hp).
    destruct (Hx3 p Hp) as (HD & HG & HP & HsG).
    exists p. split; [done|].
    apply Hentry; [done| | |].
    + rewrite (Hren x x4 "Driver") by (done || set_solver).
      rewrite Hkeep by (rewrite HD; eauto). done.
    + rewrite (Hren x x4 gapcol) by (done || set_solver).
      rewrite Hkeep by done. done.
    + rewrite (Hren x x4 poscol) by (done || set_solver).
      rewrite Hkeep by (rewrite HP; unfold rank; eauto). done.
  - intros p Hp.
    set (x3 := set_cell poscol (rank p)
                 (set_cell gapcol (num (Float.sub p.2 m)) {[ "Driver" := Str p.1 ]})).
    assert (x3 ∈ rows fp3) as Hin3.
    { rewrite Hfp3. apply list_elem_of_fmap. by exists p. }
    destruct (merge_left_covers "Driver" fp3 pace _ Hin3) as (x4 & Hx4 & Hkeep).
    destruct (Hx3 p Hp) as (HD & HG & HP & HsG). fold x3 in HD, HG, HP, HsG.
    exists (set_cell ("RacePace_" +:+ fp) (x4 !! "LapTime") (delete "LapTime" x4)).
    split; [apply elem_of_sort_values, elem_of_rename; by exists x4|].
    apply Hentry; [done| | |].
    + rewrite (Hren _ x4 "Driver") by (done || set_solver).
      rewrite Hkeep by (rewrite HD; eauto). done.
    + rewrite (Hren _ x4 gapcol) by (done || set_solver).
      rewrite Hkeep by done. done.
    + rewrite (Hren _ x4 poscol) by (done || set_solver).
      rewrite Hkeep by (rewrite HP; unfold rank; eauto). done.
Qed.

(** ** Gaps to the best of a session *)

Lemma race_frame_pace (s : Session) (df : DataFrame) (x : row) :
  race_frame s = Ok df → x ∈ rows df →
  let paces := mean_laptime (pick_quicklaps (laps s)) in
  (x !! "RacePace" = None ∧ x !! "GapToFastestRacePace" = None) ∨
  (∃ p, p ∈ paces ∧ x !! "RacePace" = num p.2 ∧
        x !! "GapToFastestRacePace" = num (Float.sub p.2 (Float.min (map snd paces)))).
Proof.
  intros Hdf Hx paces.
  destruct (race_frame_rows s df Hdf) as (w & _ & Hrows).
  apply Hrows in Hx as (r & p & _ & Hp & ->).
  assert (∀ c, c ∈ ["RacePace"; "GapToFastestRacePace"] →
            delete "Time" (race_row (laps s) (pick_quicklaps (laps s)) w r ∪ p) !! c = p !! c)
    as Hlook.
  { intros c Hc. assert (c ≠ "Time") by (intros ->; set_solver).
    rewrite lookup_delete_ne by done. apply lookup_union_r.
    unfold race_row. rewrite lookup_mk_row. simpl.
    repeat (case_decide; [subst; set_solver|]). done. }
  rewrite !Hlook by set_solver.
  destruct Hp as [[-> _]|[Hp _]]; [by left|right].
  unfold race_pace in Hp. cbn [rows] in Hp.
  apply list_elem_of_fmap in Hp as (q & -> & Hq).
  exists q. split; [done|]. by rewrite !lookup_mk_row.
Qed.

Lemma elem_of_quali_frame (s : Session) (x : row) :
  x ∈ rows (quali_frame s) ↔ ∃ r, r ∈ results s ∧ x = quali_row (results s) r.
Proof.
  unfold quali_frame. rewrite elem_of_sort_values. cbn [rows].
  rewrite list_elem_of_fmap. split; intros (r & ? & ?); by exists r.
Qed.

Lemma num_inv (a : float) q : num a = Some (Num q) → a = Some q.
Proof. destruct a; simpl; congruence. Qed.

(** C4, as stated, fails for qualifying: the gap of a driver is measured from
    the fastest Q3 time, and a driver who went out in Q1 with a faster lap
    than that has a negative gap. *)
Lemma qualifying_gap_negative :
  ∃ df x,
    get_quali_data (Some damp_qualifying) = Ok df ∧
    x ∈ rows df ∧
    x !! "Driver" = Some (Str "BBB") ∧
    x !! "GapToPole" = Some (Num (-1 # 2)) ∧
    (-1 # 2 < 0)%Q.
Proof.
  eexists _, (quali_row (results damp_qualifying)
                (timed "BBB" 2 (Some (179 # 2)) None None)).
  split; [reflexivity|]. split.
  - apply elem_of_quali_frame. eexists. split; [|reflexivity].
    apply list_elem_of_further, list_elem_of_here.
  - by vm_compute.
Qed.

(** C4, amended: in every practice table and in the race table the gap is at
    least 0 wherever it is defined and exactly 0 for the driver with the
    smallest fastest lap, respectively the smallest mean race pace.  In the
    qualifying table the gap is the representative lap minus the smallest Q3
    time: at least 0 for every driver whose representative lap is a Q3 time
    and exactly 0 for the driver with the smallest Q3 time. *)
Theorem gap_to_best (s : Session) (df : DataFrame) :
  (∀ fp, get_fp_data (Some s) fp = Ok df →
     let laps := timed_laps (laps s) in
     let gapcol := "GapToFastest_" +:+ fp in
     (∀ x, x ∈ rows df →
        ∃ d t g, x !! "Driver" = Some (Str d) ∧ (d, Some t) ∈ fastest_laps laps ∧
          x !! gapcol = Some (Num g) ∧ (0 <= g)%Q ∧
          (∀ m, fp_fastest_time laps = Some m → (t == m)%Q → g = 0%Q)) ∧
     (rows df ≠ [] → ∃ x, x ∈ rows df ∧ x !! gapcol = Some (Num 0%Q))) ∧
  (get_race_data (Some s) = Ok df →
     let paces := mean_laptime (pick_quicklaps (laps s)) in
     ∀ x, x ∈ rows df →
       (∀ g, x !! "GapToFastestRacePace" = Some (Num g) → (0 <= g)%Q) ∧
       (∀ pace m, x !! "RacePace" = Some (Num pace) →
          Float.min (map snd paces) = Some m → (pace == m)%Q →
          x !! "GapToFastestRacePace" = Some (Num 0%Q))) ∧
  (get_quali_data (Some s) = Ok df →
     ∀ x, x ∈ rows df →
       ∃ r, r ∈ results s ∧
         x !! "Driver" = Some (Str (Abbreviation r)) ∧
         x !! "GapToPole" = num (Float.sub (QualiLap r) (pole_time (results s))) ∧
         (∀ t g, Q3 r = Some t → x !! "GapToPole" = Some (Num g) → (0 <= g)%Q) ∧
         (∀ t m, Q3 r = Some t → pole_time (results s) = Some m → (t == m)%Q →
            x !! "GapToPole" = Some (Num 0%Q))).
Proof.
  split; [|split].
  - intros fp Hdf laps gapcol.
    change (fp_frame fp s = Ok df) in Hdf.
    destruct (fp_frame_rows fp s df Hdf) as [Hfwd Hbwd]. fold laps in Hfwd, Hbwd.
    assert (∀ p (x : row), p ∈ fastest_laps laps →
              x !! gapcol = num (Float.sub p.2 (fp_fastest_time laps)) →
              ∃ t g, p.2 = Some t ∧ x !! gapcol = Some (Num g) ∧ (0 <= g)%Q ∧
                (∀ m, fp_fastest_time laps = Some m → (t == m)%Q → g = 0%Q)) as Hgap.
    { intros p x Hp Hx. destruct (fastest_laps_timed _ _ Hp) as [t Ht].
      destruct (fp_fastest_time_is_Some _ _ Hp) as [m Hm]. fold laps in Hm.
      assert (Some t ∈ map snd (fastest_laps laps)) as Hin.
      { rewrite <- Ht. apply list_elem_of_fmap. by exists p. }
      destruct (Float.sub (Some t) (Some m)) as [g|] eqn:Hg; [|done].
      exists t, g. split; [done|]. split; [by rewrite Hx, Ht, Hm, Hg|]. split.
      - apply (gap_nonneg (map snd (fastest_laps laps)) (Some t)); [done|].
        unfold fp_fastest_time in Hm. by rewrite Hm.
      - intros m' Hm' Heq. assert (m' = m) as -> by congruence.
        rewrite (gap_zero _ _ Heq) in Hg. congruence. }
    split.
    + intros x Hx. destruct (Hfwd x Hx) as ([d ft] & Hp & HD & HG & _).
      destruct (Hgap _ _ Hp HG) as (t & g & Ht & ? & ? & ?). simpl in Ht, HD. subst ft.
      by exists d, t, g.
    + intros Hne. destruct (rows df) as [|x0 xs] eqn:Erows; [done|].
      destruct (Hfwd x0) as (p0 & Hp0 & _); [left|].
      destruct (fp_fastest_time_is_Some _ _ Hp0) as [m Hm]. fold laps in Hm.
      pose proof (min_elem_of _ _ Hm) as Hmin.
      apply list_elem_of_fmap in Hmin as (p & Hpm & Hp).
      destruct (Hbwd p Hp) as (x & Hx & _ & HG & _). exists x. split; [done|].
      unfold gapcol. rewrite HG, Hm, <- Hpm. by rewrite (gap_zero m m).
  - rewrite get_race_data_Some. intros Hdf paces x Hx.
    destruct (race_frame_pace s df x Hdf Hx) as [[HP HG]|(p & Hp & HP & HG)].
    + split; intros; congruence.
    + fold paces in Hp, HG. split.
      * intros g Hg. rewrite HG in Hg. apply num_inv in Hg.
        apply (gap_nonneg (map snd paces) p.2); [|done].
        apply list_elem_of_fmap. by exists p.
      * intros pace m Hpace Hm Heq. rewrite HP in Hpace. apply num_inv in Hpace.
        by rewrite HG, Hpace, Hm, (gap_zero _ _ Heq).
  - intros Hdf x Hx. injection Hdf as <-.
    apply elem_of_quali_frame in Hx as (r & Hr & ->). exists r.
    unfold quali_row. rewrite !lookup_mk_row. simpl.
    split; [done|]. split; [done|]. split; [done|].
    unfold GapToPole, QualiLap. split.
    + intros t g Ht Hg. rewrite Ht in Hg. simpl in Hg. apply num_inv in Hg.
      apply (gap_nonneg (map Q3 (results s)) (Some t)); [|done].
      rewrite <- Ht. apply list_elem_of_fmap. by exists r.
    + intros t m Ht Hm Heq. rewrite Ht, Hm. simpl Float.fillna.
      by rewrite (gap_zero _ _ Heq).
Qed.

Lemma gap_to_best_pole :
  ∃ df x, get_quali_data (Some damp_qualifying) = Ok df ∧ x ∈ rows df ∧
    x !! "GapToPole" = Some (Num 0%Q) ∧
    ∃ r, r ∈ results damp_qualifying ∧
      x !! "Driver" = Some (Str (Abbreviation r)) ∧
      x !! "GapToPole"
      = num (Float.sub (QualiLap r) (pole_time (results damp_qualifying))).
Proof.
  set (df := quali_frame damp_qualifying).
  set (x := quali_row (results damp_qualifying)
              (timed "AAA" 1 (Some 91%Q) (Some (181 # 2)) (Some 90%Q))).
  assert (x ∈ rows df) as Hx.
  { apply elem_of_quali_frame. eexists. split; [apply list_elem_of_here|reflexivity]. }
  exists df, x. split; [reflexivity|]. split; [exact Hx|]. split; [reflexivity|].
  destruct (proj2 (proj2 (gap_to_best damp_qualifying df)) eq_refl x Hx)
    as (r & Hr & HD & HG & _).
  exists r. split; [exact Hr|]. split; [exact HD|exact HG].
Defined.

(** ** Points and standings *)

Lemma fillna_zero_is_Some (a : float) : is_Some (Float.fillna a (Some 0%Q)).
Proof. destruct a; simpl; eauto. Qed.

Lemma elem_of_add_sprint s0 t y :
  y ∈ add_sprint s0 t →
  driverCode y = driverCode t ∧
  ∃ sp, sprint_share (Some s0) (driverCode t) sp ∧
        points y = Float.add (points t) (Some sp).
Proof.
  unfold add_sprint.
  destruct (filter (λ s, driverCode s = driverCode t) s0) as [|s1 ss] eqn:E.
  - intros ->%list_elem_of_singleton. split; [done|].
    exists 0%Q. split; [by left|done].
  - intros Hy. apply list_elem_of_fmap in Hy as (s & -> & Hs).
    rewrite <- E in Hs. apply list_elem_of_filter in Hs as [Hd Hs].
    split; [done|]. destruct (fillna_zero_is_Some (points s)) as [sp Hsp].
    exists sp. split; [|simpl; by rewrite Hsp].
    right. by exists s.
Qed.

Lemma add_sprint_nonempty s0 t : add_sprint s0 t ≠ [].
Proof.
  unfold add_sprint. by destruct (filter _ s0).
Qed.

Lemma add_sprint_single s0 t :
  (length (filter (λ s, driverCode s = driverCode t) s0) ≤ 1)%nat →
  ∃ y, add_sprint s0 t = [y] ∧ driverCode y = driverCode t.
Proof.
  unfold add_sprint.
  destruct (filter (λ s, driverCode s = driverCode t) s0) as [|s1 [|s2 ss]];
    simpl; intros Hlen; [eauto|eauto|lia].
Qed.

Lemma total_points_app l1 l2 d :
  (total_points (l1 ++ l2) d == total_points l1 d + total_points l2 d)%Q.
Proof.
  unfold total_points, points_in, Float.sum, Float.dropna.
  rewrite filter_app, map_app, omap_app.
  induction (omap id _) as [|q qs IH]; simpl.
  - lra.
  - unfold Qplus'. rewrite !Qred_correct, IH. lra.
Qed.

(** The cumulative points are the sum, over the rounds, of the points of the
    round. *)
Lemma total_points_rounds (results : list (list (nat * ErgastRow))) d :
  (total_points (mjoin results) d
   == foldr (λ entries acc, total_points entries d + acc) 0 results)%Q.
Proof.
  induction results as [|r rs IH]; simpl; [reflexivity|].
  by rewrite total_points_app, IH.
Qed.

Lemma elem_of_zip_lookup {A B} (l : list A) (k : list B) a b :
  (a, b) ∈ zip l k → ∃ i, l !! i = Some a ∧ k !! i = Some b.
Proof.
  intros H. apply list_elem_of_lookup in H as [i Hi]. exists i.
  apply lookup_zip_with_Some in Hi as (a' & b' & [= -> ->] & ? & ?). done.
Qed.

Lemma standings_frame_rows (results : list (nat * ErgastRow)) (df : DataFrame) :
  standings_frame results = Ok df →
  ∃ index, pivot_index results = Ok index ∧
    (∀ x, x ∈ rows df → ∃ d, d ∈ index ∧ standing results index d x) ∧
    (∀ d, d ∈ index → ∃ x, x ∈ rows df ∧ standing results index d x).
Proof.
  unfold standings_frame.
  destruct (pivot_index results) as [index|] eqn:Ei; [|done].
  intros H. apply Ok_inj in H. subst df. exists index. split; [done|].
  set (wide := sort_by _ (map (λ d, (d, total_points results d)) index)).
  set (ranks := rank_min false (map snd wide)).
  set (entry := standing results index).
  cbn [rows].
  assert (∀ d q rk, ((d, q), rk) ∈ zip wide ranks →
            d ∈ index ∧ entry d (mk_row [("Driver", Some (Str d)); ("Points", Some (Num q));
                                         ("ChampPosition", Some (Num (Float.of_nat rk)))]))
    as Hzip.
  { intros d q rk Hin. apply elem_of_zip_lookup in Hin as (i & Hw & Hrk).
    assert ((d, q) ∈ wide) as Hd by (by eapply list_elem_of_lookup_2).
    apply elem_of_sort_by, list_elem_of_fmap in Hd as (d' & [= <- ->] & Hd).
    split; [done|]. unfold entry, standing. rewrite !lookup_mk_row. simpl.
    split; [done|]. split; [done|]. do 3 f_equal.
    unfold ranks in Hrk.
    rewrite (rank_min_lookup false (map snd wide) i (total_points results d)) in Hrk
      by (by rewrite list_lookup_fmap, Hw).
    injection Hrk as <-. f_equal. unfold wide.
    rewrite (count_if_Permutation _ _ (map snd (map (λ d, (d, total_points results d)) index))).
    - by rewrite <- list_fmap_compose.
    - apply fmap_Permutation, sort_by_Permutation. }
  split.
  - intros x Hx. apply list_elem_of_fmap in Hx as ([[d q] rk] & -> & Hs).
    apply elem_of_sort_by in Hs. exists d. by apply Hzip.
  - intros d Hd.
    assert ((d, total_points results d) ∈ wide) as Hw.
    { apply elem_of_sort_by, list_elem_of_fmap. by exists d. }
    apply list_elem_of_lookup in Hw as [i Hi].
    assert (is_Some (ranks !! i)) as [rk Hrk].
    { apply lookup_lt_is_Some. unfold ranks, rank_min.
      rewrite !length_map. by eapply lookup_lt_Some. }
    assert (((d, total_points results d), rk) ∈ zip wide ranks) as Hin.
    { apply list_elem_of_lookup. exists i. apply lookup_zip_with_Some. eauto. }
    eexists. split; [|by apply (Hzip _ _ _ Hin)].
    apply list_elem_of_fmap. eexists. split; [|apply elem_of_sort_by, Hin]. done.
Qed.

Lemma round_points_Ok e season round entries :
  round_points e season round = Ok entries →
  ∃ race temp rest sprint_response sprint,
    get_race_results e season round = Ok race ∧
    content race = temp :: rest ∧
    get_sprint_results e season round = Ok sprint_response ∧
    sprint_of_round sprint_response round = Ok sprint ∧
    entries = map (λ t, (round, t))
                  (match sprint with
                   | Some s0 => temp ≫= add_sprint s0
                   | None => temp
                   end).
Proof.
  unfold round_points.
  destruct (get_race_results e season round) as [race|] eqn:Erace; [|done].
  cbn [mbind result_bind].
  destruct (content race) as [|temp rest] eqn:Econtent; [done|].
  cbn [mbind result_bind].
  destruct (get_sprint_results e season round) as [resp|] eqn:Eresp; [|done].
  cbn [mbind result_bind].
  destruct (sprint_of_round resp round) as [sprint|] eqn:Esprint; [|done].
  cbn [mbind result_bind]. intros H. apply Ok_inj in H. subst entries.
  by exists race, temp, rest, resp, sprint.
Qed.

Lemma rounds_upto_seq races round_limit :
  rounds_upto races round_limit = seq 1 (round_limit `min` length races).
Proof. unfold rounds_upto. apply take_seq. Qed.

Lemma float_equiv_add_zero (a : float) : float_equiv a (Float.add a (Some 0%Q)).
Proof.
  destruct a as [p|]; simpl; [|done]. unfold Qplus'. rewrite Qred_correct. lra.
Qed.

Lemma float_equiv_refl (a : float) : float_equiv a a.
Proof. destruct a; simpl; [reflexivity|done]. Qed.

Lemma get_driver_standings_Ok e season round_limit df :
  get_driver_standings e season round_limit = Ok df →
  ∃ races results,
    get_race_schedule e season = Ok races ∧
    mapM (round_points e season) (rounds_upto races round_limit) = Ok results ∧
    standings_frame (mjoin results) = Ok df.
Proof.
  unfold get_driver_standings.
  destruct (get_race_schedule e season) as [races|] eqn:Eraces; [|done].
  cbn [mbind result_bind].
  destruct (mapM _ _) as [results|] eqn:Eresults; [|done].
  cbn [mbind result_bind]. destruct results as [|r rs]; [done|].
  intros H. by exists races, (r :: rs).
Qed.

Lemma pivot_index_NoDup results index :
  pivot_index results = Ok index →
  NoDup (map (λ x : nat * ErgastRow, (x.1, driverCode x.2)) results).
Proof. unfold pivot_index. by case_bool_decide. Qed.

(** C5: the points of a round are, for every driver of the main race, the
    main-race points plus the sprint points, 0 without a sprint for the round
    or without a sprint result of the driver; a driver with at most one sprint
    row is entered once, and points that are not negative at the source are
    not negative in the round.  The standings hold, per driver, the sum of
    the round points over the rounds 1..N, every (driver, round) pair entered
    once, and the championship position by the tie rule.  In the season where
    XXX scores 18 then 25 and YYY scores 25 then 18, both have 43 points and
    championship position 1 after round 2. *)
Theorem points_additivity (e : Ergast) (season : nat) :
  (∀ round entries,
     round_points e season round = Ok entries →
     ∃ race temp rest sprint_response sprint,
       get_race_results e season round = Ok race ∧
       content race = temp :: rest ∧
       get_sprint_results e season round = Ok sprint_response ∧
       sprint_of_round sprint_response round = Ok sprint ∧
       (∀ x, x ∈ entries →
          x.1 = round ∧
          ∃ t sp, t ∈ temp ∧ driverCode x.2 = driverCode t ∧
                  sprint_share sprint (driverCode t) sp ∧
                  float_equiv (points x.2) (Float.add (points t) (Some sp))) ∧
       (∀ t, t ∈ temp → ∃ x, x ∈ entries ∧ driverCode x.2 = driverCode t) ∧
       ((∀ s0 d, sprint = Some s0 →
           (length (filter (λ s, driverCode s = d) s0) ≤ 1)%nat) →
        map (λ x, driverCode x.2) entries = map driverCode temp) ∧
       ((∀ t p, t ∈ temp → points t = Some p → (0 <= p)%Q) →
        (∀ s0 s p, sprint = Some s0 → s ∈ s0 → points s = Some p → (0 <= p)%Q) →
        ∀ x p, x ∈ entries → points x.2 = Some p → (0 <= p)%Q)) ∧
  (∀ round_limit df,
     get_driver_standings e season round_limit = Ok df →
     ∃ races results index,
       get_race_schedule e season = Ok races ∧
       mapM (round_points e season) (seq 1 (round_limit `min` length races)) = Ok results ∧
       pivot_index (mjoin results) = Ok index ∧
       NoDup (map (λ x : nat * ErgastRow, (x.1, driverCode x.2)) (mjoin results)) ∧
       (∀ d, (total_points (mjoin results) d
              == foldr (λ entries acc, total_points entries d + acc) 0 results)%Q) ∧
       (∀ x, x ∈ rows df → ∃ d, d ∈ index ∧ standing (mjoin results) index d x) ∧
       (∀ d, d ∈ index → ∃ x, x ∈ rows df ∧ standing (mjoin results) index d x)) ∧
  (∃ df, get_driver_standings two_round_season season 2 = Ok df ∧
         map (λ x : row, x !! "Driver") (rows df) = [Some (Str "XXX"); Some (Str "YYY")] ∧
         Forall (λ x : row, x !! "Points" = Some (Num 43%Q) ∧
                            x !! "ChampPosition" = Some (Num 1%Q)) (rows df)).
Proof.
  split; [|split].
  - intros round entries Hentries.
    destruct (round_points_Ok _ _ _ _ Hentries)
      as (race & temp & rest & resp & sprint & Hrace & Hcontent & Hresp & Hsprint & ->).
    exists race, temp, rest, resp, sprint. do 4 (split; [done|]).
    split; [|split; [|split]].
    + intros x Hx. apply list_elem_of_fmap in Hx as (y & -> & Hy). split; [done|]. simpl.
      destruct sprint as [s0|].
      * apply list_elem_of_bind in Hy as (t & Hy & Ht).
        apply elem_of_add_sprint in Hy as (Hd & sp & Hshare & Hp).
        exists t, sp. rewrite Hp. do 3 (split; [done|]). apply float_equiv_refl.
      * exists y, 0%Q. do 3 (split; [done|]). apply float_equiv_add_zero.
    + intros t Ht. destruct sprint as [s0|].
      * destruct (add_sprint s0 t) as [|y ys] eqn:E; [by destruct (add_sprint_nonempty s0 t)|].
        assert (y ∈ add_sprint s0 t) as Hy by (rewrite E; left).
        exists (round, y). split.
        -- apply list_elem_of_fmap. exists y. split; [done|].
           apply list_elem_of_bind. by exists t.
        -- by apply elem_of_add_sprint in Hy as [? _].
      * exists (round, t). split; [|done]. apply list_elem_of_fmap. by exists t.
    + intros Hone. rewrite <- list_fmap_compose.
      destruct sprint as [s0|]; [|done]. clear Hentries Hcontent.
      induction temp as [|t temp IH]; [done|].
      rewrite bind_cons, fmap_app, IH.
      destruct (add_sprint_single s0 t) as (y & -> & Hy); [by apply Hone|].
      simpl. by rewrite Hy.
    + intros Hmain Hsp x p Hx Hp.
      apply list_elem_of_fmap in Hx as (y & -> & Hy). simpl in Hp.
      destruct sprint as [s0|]; [|by eapply Hmain].
      apply list_elem_of_bind in Hy as (t & Hy & Ht).
      apply elem_of_add_sprint in Hy as (_ & sp & Hshare & Hy).
      rewrite Hp in Hy. destruct (points t) as [q|] eqn:Hq; [|done].
      simpl in Hy. injection Hy as ->.
      pose proof (Hmain t q Ht Hq).
      assert (0 <= sp)%Q.
      { destruct Hshare as [[_ ->]|(s & Hs & _ & Hfill)]; [lra|].
        destruct (points s) as [r|] eqn:Hr; simpl in Hfill; injection Hfill as <-;
          [by eapply Hsp|lra]. }
      unfold Qplus'. rewrite Qred_correct. lra.
  - intros round_limit df Hdf.
    destruct (get_driver_standings_Ok _ _ _ _ Hdf) as (races & results & Hraces & Hres & Hframe).
    destruct (standings_frame_rows _ _ Hframe) as (index & Hindex & Hfwd & Hbwd).
    exists races, results, index. rewrite <- rounds_upto_seq.
    do 3 (split; [done|]). split; [by eapply pivot_index_NoDup|].
    split; [intros d; apply total_points_rounds|done].
  - eexists. split; [vm_compute; reflexivity|]. cbn [rows]. split; [reflexivity|].
    repeat constructor.
Qed.

Lemma points_additivity_sprint :
  ∃ entries,
    round_points sprint_season 2025 1 = Ok entries ∧
    map (λ x : nat * ErgastRow, (driverCode x.2, points x.2)) entries
    = [("XXX", Some 26%Q); ("YYY", Some 25%Q)] ∧
    ∀ x, x ∈ entries → x.1 = 1%nat.
Proof.
  eexists. split; [vm_compute; reflexivity|]. split; [reflexivity|].
  destruct (proj1 (points_additivity sprint_season 2025) 1%nat _ eq_refl)
    as (race & temp & rest & resp & sprint & _ & _ & _ & _ & Hall & _).
  intros x Hx. exact (proj1 (Hall x Hx)).
Defined.

(** ** Rank ties *)

(** C6: [rank(method="min")], which ranks the practice positions (ascending
    gaps) and the championship positions (descending points).  The rank of a
    value is the first position, counted from 1, of a value tied with it in
    the sorted column, which is one more than the number of values strictly
    ahead of it; tied values share that rank, and the next distinct value is
    ranked that many places further down as there are tied values.  The times
    10.0, 10.0, 10.5 are ranked 1, 1, 3.  In the practice table the position
    of a driver is that rank of the gap among the gaps of the session, and in
    the standings the championship position of a driver is that rank of the
    total among the totals, largest first. *)
Theorem rank_ties (ascending : bool) (xs : list Q) :
  let rank := rank_min ascending xs in
  let sorted := sort_by (rank_order ascending) xs in
  length rank = length xs ∧
  (∀ i x, xs !! i = Some x →
     ∃ r, rank !! i = Some (S r) ∧
       (∃ y, sorted !! r = Some y ∧ (y == x)%Q) ∧
       (∀ p z, sorted !! p = Some z → (z == x)%Q → (r ≤ p)%nat) ∧
       r = count_if (λ z, ahead ascending z x) xs) ∧
  (∀ i j x y, xs !! i = Some x → xs !! j = Some y → (x == y)%Q →
     rank !! i = rank !! j) ∧
  (∀ i j x y ri rj, xs !! i = Some x → xs !! j = Some y →
     rank !! i = Some ri → rank !! j = Some rj →
     ahead ascending x y = true →
     (∀ z, z ∈ xs → ahead ascending x z = true → ahead ascending z y = true → False) →
     rj = ri + count_if (λ z, Qeq_bool z x) xs ∧ (ri < rj)%nat) ∧
  rank_min true [10%Q; 10%Q; (21 # 2)%Q] = [1; 1; 3] ∧
  (∀ fpsession s df,
     get_fp_data (Some s) fpsession = Ok df →
     let laps := timed_laps (laps s) in
     ∀ x, x ∈ rows df →
       ∃ p, p ∈ fastest_laps laps ∧ practice_entry fpsession laps p x) ∧
  (∀ e season round_limit df,
     get_driver_standings e season round_limit = Ok df →
     ∃ races results index,
       get_race_schedule e season = Ok races ∧
       mapM (round_points e season) (rounds_upto races round_limit) = Ok results ∧
       pivot_index (mjoin results) = Ok index ∧
       ∀ x, x ∈ rows df → ∃ d, d ∈ index ∧ standing (mjoin results) index d x).
Proof.
  intros rank sorted. split; [|split; [|split; [|split; [|split; [|split]]]]].
  - unfold rank, rank_min. by rewrite length_map.
  - intros i x Hi.
    assert (∃ y, y ∈ sorted ∧ (y == x)%Q) as Hex.
    { exists x. split; [|reflexivity].
      apply elem_of_sort_by. by eapply list_elem_of_lookup_2. }
    destruct (first_position_least x sorted Hex) as (r & y & Hr & Hy & Hyx & Hleast).
    pose proof (rank_min_lookup ascending xs i x Hi) as Hcount.
    assert (rank !! i = Some (S r)) as Hrank.
    { unfold rank, rank_min. rewrite list_lookup_fmap, Hi. simpl. by rewrite <- Hr. }
    exists r. split; [done|]. split; [by exists y|]. split; [done|].
    fold rank in Hcount. congruence.
  - intros i j x y Hi Hj Hxy. unfold rank.
    rewrite (rank_min_lookup _ _ _ _ Hi), (rank_min_lookup _ _ _ _ Hj).
    do 2 f_equal. apply count_if_ext. intros z _. destruct ascending; q_cases.
  - intros i j x y ri rj Hi Hj Hri Hrj Hxy Hnone. unfold rank in *.
    rewrite (rank_min_lookup _ _ _ _ Hi) in Hri.
    rewrite (rank_min_lookup _ _ _ _ Hj) in Hrj.
    injection Hri as <-. injection Hrj as <-.
    rewrite (count_ahead_split ascending x y xs Hxy).
    rewrite (count_if_none (λ z, ahead ascending x z && ahead ascending z y)).
    + assert (0 < count_if (λ z, Qeq_bool z x) xs)%nat; [|lia].
      apply list_elem_of_lookup_2 in Hi. clear -Hi.
      induction Hi as [x l|x z l Hl IH]; simpl.
      * rewrite (proj2 (Qeq_bool_iff x x)) by reflexivity. lia.
      * lia.
    + intros z Hz. destruct (ahead ascending x z) eqn:E1; [|done].
      destruct (ahead ascending z y) eqn:E2; [|done].
      destruct (Hnone z Hz E1 E2).
  - reflexivity.
  - intros fpsession s df Hdf laps.
    change (fp_frame fpsession s = Ok df) in Hdf.
    by destruct (fp_frame_rows fpsession s df Hdf) as [Hfwd _].
  - intros e season round_limit df Hdf.
    destruct (get_driver_standings_Ok _ _ _ _ Hdf) as (races & results & Hraces & Hres & Hframe).
    destruct (standings_frame_rows _ _ Hframe) as (index & Hindex & Hfwd & _).
    by exists races, results, index.
Qed.

Lemma rank_ties_podium :
  ∃ r, rank_min true [10%Q; 10%Q; (21 # 2)%Q] !! 2%nat = Some (S r) ∧
       r = count_if (λ z, ahead true z (21 # 2)%Q) [10%Q; 10%Q; (21 # 2)%Q] ∧
       r = 2%nat.
Proof.
  destruct (proj1 (proj2 (rank_ties true [10%Q; 10%Q; (21 # 2)%Q])) 2%nat (21 # 2)%Q eq_refl)
    as (r & Hr & _ & _ & Hcount).
  exists r. split; [exact Hr|]. split; [exact Hcount|].
  rewrite Hcount. reflexivity.
Defined.

(** ** Outer merges and the assembly of a round *)

Lemma lookup_union_key on (a b : row) : a !! on = b !! on → (a ∪ b) !! on = a !! on.
Proof.
  intros H. rewrite lookup_union, <- H. by destruct (a !! on).
Qed.

Lemma has_key_merge_outer on (l r : DataFrame) k :
  has_key on k (merge_outer on l r) ↔ has_key on k l ∨ has_key on k r.
Proof.
  unfold has_key. split.
  - intros (x & Hx & Hk). apply elem_of_merge_outer in Hx.
    destruct Hx as [[Hx _]|[[Hx _]|(a & b & Ha & Hb & Hab & ->)]].
    + left. by exists x.
    + right. by exists x.
    + left. exists a. split; [done|]. by rewrite <- (lookup_union_key on a b).
  - assert (∀ a, a ∈ rows l → ∃ x, x ∈ rows (merge_outer on l r) ∧ x !! on = a !! on) as Hl.
    { intros a Ha. destruct (select on (a !! on) (rows r)) as [|b bs] eqn:E.
      - exists a. split; [|done]. apply elem_of_merge_outer. by left.
      - assert (b ∈ select on (a !! on) (rows r)) as Hb by (rewrite E; left).
        apply elem_of_select in Hb as [Hb Hk].
        exists (a ∪ b). split; [|by apply lookup_union_key].
        apply elem_of_merge_outer. right; right. by exists a, b. }
    intros [(a & Ha & Hk)|(b & Hb & Hk)].
    + destruct (Hl a Ha) as (x & Hx & Hxa). exists x. split; [done|congruence].
    + destruct (select on (b !! on) (rows l)) as [|a al] eqn:E.
      * exists b. split; [|done]. apply elem_of_merge_outer. right; left. done.
      * assert (a ∈ select on (b !! on) (rows l)) as Ha by (rewrite E; left).
        apply elem_of_select in Ha as [Ha Hka].
        destruct (Hl a Ha) as (x & Hx & Hxa). exists x. split; [done|congruence].
Qed.

(** Every cell of an outer merge is the cell of a row of one of the two tables
    with the same key. *)
Lemma merge_outer_provenance on (l r : DataFrame) (x : row) c v :
  x ∈ rows (merge_outer on l r) → x !! c = Some v →
  ∃ y, (y ∈ rows l ∨ y ∈ rows r) ∧ y !! on = x !! on ∧ y !! c = Some v.
Proof.
  intros Hx Hc. apply elem_of_merge_outer in Hx.
  destruct Hx as [[Hx _]|[[Hx _]|(a & b & Ha & Hb & Hab & ->)]].
  - exists x. auto.
  - exists x. auto.
  - rewrite (lookup_union_key on a b Hab).
    apply lookup_union_Some_raw in Hc as [Hc|[_ Hc]].
    + exists a. auto.
    + exists b. auto.
Qed.

(** The rows of the left table are kept, cell by cell. *)
Lemma merge_outer_covers_left on (l r : DataFrame) (a : row) :
  a ∈ rows l →
  ∃ x, x ∈ rows (merge_outer on l r) ∧ ∀ c v, a !! c = Some v → x !! c = Some v.
Proof.
  intros Ha. destruct (select on (a !! on) (rows r)) as [|b bs] eqn:E.
  - exists a. split; [|done]. apply elem_of_merge_outer. by left.
  - assert (b ∈ select on (a !! on) (rows r)) as Hb by (rewrite E; left).
    apply elem_of_select in Hb as [Hb Hk].
    exists (a ∪ b). split.
    + apply elem_of_merge_outer. right; right. by exists a, b.
    + intros c v Hc. by apply lookup_union_Some_l.
Qed.

Lemma merge_outer_columns on (l r : DataFrame) c :
  c ∈ columns l → c ∈ columns (merge_outer on l r).
Proof. intros H. simpl. unfold merged_columns. apply elem_of_app. by left. Qed.

Lemma df_empty_rows (df : DataFrame) c :
  c ∈ columns df → df_empty df = true ↔ rows df = [].
Proof.
  intros Hc. unfold df_empty. rewrite orb_true_iff, !bool_decide_eq_true.
  split; [|by left]. intros [?|E]; [done|]. rewrite E in Hc. by apply elem_of_nil in Hc.
Qed.

Lemma has_key_nil on k (df : DataFrame) : rows df = [] → ¬ has_key on k df.
Proof. intros E (x & Hx & _). rewrite E in Hx. by apply elem_of_nil in Hx. Qed.

Section merged_tables.
Context (on : string).

Lemma foldl_merge_has_key (d : DataFrame) (ds : list DataFrame) k :
  has_key on k (foldl (merge_outer on) d ds) ↔
  has_key on k d ∨ ∃ df, df ∈ ds ∧ has_key on k df.
Proof.
  revert d. induction ds as [|d' ds IH]; intros d; simpl.
  - split; [by left|]. intros [?|(df & Hdf & _)]; [done|]. by apply elem_of_nil in Hdf.
  - rewrite IH, has_key_merge_outer. split.
    + intros [[?|?]|(df & ? & ?)]; [by left| |].
      * right. exists d'. split; [left|done].
      * right. exists df. split; [by right|done].
    + intros [?|(df & Hdf & ?)]; [by left; left|].
      apply elem_of_cons in Hdf as [->|Hdf]; [by left; right|].
      right. by exists df.
Qed.

Lemma foldl_merge_provenance (d : DataFrame) (ds : list DataFrame) (x : row) c v :
  x ∈ rows (foldl (merge_outer on) d ds) → x !! c = Some v →
  ∃ df y, (df = d ∨ df ∈ ds) ∧ y ∈ rows df ∧ y !! on = x !! on ∧ y !! c = Some v.
Proof.
  revert d. induction ds as [|d' ds IH]; intros d Hx Hc; simpl in Hx.
  - exists d, x. auto.
  - destruct (IH _ Hx Hc) as (df & y & [->|Hdf] & Hy & Hk & Hyc).
    + destruct (merge_outer_provenance on d d' y c v Hy Hyc) as (z & Hz & Hzk & Hzc).
      destruct Hz as [Hz|Hz].
      * exists d, z. split; [by left|]. split; [done|]. split; [congruence|done].
      * exists d', z. split; [right; left|]. split; [done|]. split; [congruence|done].
    + exists df, y. split; [right; by right|done].
Qed.

Lemma foldl_merge_columns (d : DataFrame) (ds : list DataFrame) c :
  c ∈ columns d → c ∈ columns (foldl (merge_outer on) d ds).
Proof.
  revert d. induction ds as [|d' ds IH]; intros d Hc; simpl; [done|].
  by apply IH, merge_outer_columns.
Qed.
End merged_tables.

Lemma fp_merged_has_key (fps : list DataFrame) k :
  has_key "Driver" k (fp_merged fps) ↔ ∃ fp, fp ∈ fps ∧ has_key "Driver" k fp.
Proof.
  destruct fps as [|d ds]; simpl.
  - split.
    + intros (x & Hx & _). by apply elem_of_nil in Hx.
    + intros (fp & Hfp & _). by apply elem_of_nil in Hfp.
  - rewrite foldl_merge_has_key. split.
    + intros [?|(fp & ? & ?)]; [exists d; split; [left|done]|exists fp; split; [by right|done]].
    + intros (fp & Hfp & ?). apply elem_of_cons in Hfp as [->|?]; [by left|right; by exists fp].
Qed.

Lemma fp_merged_provenance (fps : list DataFrame) (x : row) c v :
  x ∈ rows (fp_merged fps) → x !! c = Some v →
  ∃ fp y, fp ∈ fps ∧ y ∈ rows fp ∧ y !! "Driver" = x !! "Driver" ∧ y !! c = Some v.
Proof.
  destruct fps as [|d ds]; simpl; intros Hx Hc.
  - by apply elem_of_nil in Hx.
  - destruct (foldl_merge_provenance _ _ _ _ _ _ Hx Hc) as (df & y & Hdf & ?).
    exists df, y. split; [|done]. destruct Hdf as [->|?]; [left|by right].
Qed.

Lemma fp_merged_columns (fps : list DataFrame) :
  Forall (λ fp, "Driver" ∈ columns fp) fps → "Driver" ∈ columns (fp_merged fps).
Proof.
  destruct fps as [|d ds]; simpl; [intros _; left|].
  intros [Hd _]%Forall_cons. by apply foldl_merge_columns.
Qed.

Lemma assemble_unfold race_data quali_data fpm rnd :
  assemble race_data quali_data fpm rnd
  = assign_const "Round" (Num (Float.of_nat rnd))
      (merge_present (merge_present race_data quali_data) fpm).
Proof. done. Qed.

Lemma merge_present_has_key (l r : DataFrame) k :
  "Driver" ∈ columns r →
  has_key "Driver" k (merge_present l r) ↔ has_key "Driver" k l ∨ has_key "Driver" k r.
Proof.
  intros Hc. unfold merge_present. destruct (df_empty r) eqn:E; simpl.
  - apply (df_empty_rows _ _ Hc) in E. split; [by left|].
    intros [?|H]; [done|]. by destruct (has_key_nil _ _ _ E H).
  - apply has_key_merge_outer.
Qed.

Lemma merge_present_provenance (l r : DataFrame) (x : row) c v :
  x ∈ rows (merge_present l r) → x !! c = Some v →
  ∃ y, (y ∈ rows l ∨ y ∈ rows r) ∧ y !! "Driver" = x !! "Driver" ∧ y !! c = Some v.
Proof.
  unfold merge_present. destruct (df_empty r); simpl.
  - intros Hx Hc. exists x. auto.
  - apply merge_outer_provenance.
Qed.

Lemma merge_present_covers_left (l r : DataFrame) (a : row) :
  a ∈ rows l →
  ∃ x, x ∈ rows (merge_present l r) ∧ ∀ c v, a !! c = Some v → x !! c = Some v.
Proof.
  unfold merge_present. destruct (df_empty r); simpl.
  - intros Ha. by exists a.
  - apply merge_outer_covers_left.
Qed.

Lemma elem_of_assign_const c v (df : DataFrame) (x : row) :
  x ∈ rows (assign_const c v df) ↔ ∃ y, y ∈ rows df ∧ x = <[c:=v]> y.
Proof.
  unfold assign_const. cbn [rows]. rewrite list_elem_of_fmap.
  split; intros (y & ? & ?); by exists y.
Qed.

(** C8: the round record starts from the race table and is merged outer on
    the driver with the qualifying table, then with the combined practice
    table.  A driver is in the record exactly when the driver is in the race,
    the qualifying or a practice table; every row of the race table is kept
    with its cells; every row carries the round number; and every other cell of
    the record is the cell of an input row of the same driver, so a metric
    that no input has for a driver is absent. *)
Theorem round_assembly (race_data quali_data : DataFrame) (fps : list DataFrame)
    (rnd : nat) :
  "Driver" ∈ columns quali_data →
  Forall (λ fp, "Driver" ∈ columns fp) fps →
  let round_data := assemble race_data quali_data (fp_merged fps) rnd in
  let input (y : row) :=
    y ∈ rows race_data ∨ y ∈ rows quali_data ∨ ∃ fp, fp ∈ fps ∧ y ∈ rows fp in
  (∀ k, has_key "Driver" k round_data ↔
        has_key "Driver" k race_data ∨ has_key "Driver" k quali_data ∨
        ∃ fp, fp ∈ fps ∧ has_key "Driver" k fp) ∧
  (∀ a, a ∈ rows race_data →
        ∃ x, x ∈ rows round_data ∧
             ∀ c v, c ≠ "Round" → a !! c = Some v → x !! c = Some v) ∧
  (∀ x, x ∈ rows round_data → x !! "Round" = Some (Num (Float.of_nat rnd))) ∧
  (∀ x c v, x ∈ rows round_data → c ≠ "Round" → x !! c = Some v →
        ∃ y, input y ∧ y !! "Driver" = x !! "Driver" ∧ y !! c = Some v) ∧
  (∀ x c, x ∈ rows round_data → c ≠ "Round" →
        (∀ y, input y → y !! "Driver" = x !! "Driver" → y !! c = None) →
        x !! c = None).
Proof.
  intros Hquali Hfps round_data input. unfold round_data.
  rewrite assemble_unfold.
  set (m1 := merge_present race_data quali_data).
  set (m2 := merge_present m1 (fp_merged fps)).
  assert (∀ k, has_key "Driver" k m2 ↔
               has_key "Driver" k race_data ∨ has_key "Driver" k quali_data ∨
               ∃ fp, fp ∈ fps ∧ has_key "Driver" k fp) as Hkeys.
  { intros k. unfold m2, m1.
    rewrite merge_present_has_key by (by apply fp_merged_columns).
    rewrite merge_present_has_key by done.
    rewrite fp_merged_has_key. tauto. }
  assert (∀ x c v, x ∈ rows m2 → x !! c = Some v →
            ∃ y, input y ∧ y !! "Driver" = x !! "Driver" ∧ y !! c = Some v) as Hprov.
  { intros x c v Hx Hc.
    destruct (merge_present_provenance _ _ _ _ _ Hx Hc) as (y & [Hy|Hy] & Hk & Hyc).
    - destruct (merge_present_provenance _ _ _ _ _ Hy Hyc) as (z & Hz & Hzk & Hzc).
      exists z. split; [|split; [congruence|done]].
      destruct Hz; [by left|by right; left].
    - destruct (fp_merged_provenance _ _ _ _ Hy Hyc) as (fp & z & Hfp & Hz & Hzk & Hzc).
      exists z. split; [|split; [congruence|done]].
      right; right. by exists fp. }
  assert (∀ (y : row) c, c ≠ "Round" →
            (<["Round":=Num (Float.of_nat rnd)]> y) !! c = y !! c) as Hother.
  { intros y c Hc. by rewrite lookup_insert_ne. }
  split; [|split; [|split; [|split]]].
  - intros k. rewrite <- Hkeys. unfold has_key. split.
    + intros (x & Hx & Hk). apply elem_of_assign_const in Hx as (y & Hy & ->).
      exists y. split; [done|]. by rewrite Hother in Hk.
    + intros (y & Hy & Hk). exists (<["Round":=Num (Float.of_nat rnd)]> y).
      split; [apply elem_of_assign_const; by exists y|]. by rewrite Hother.
  - intros a Ha.
    destruct (merge_present_covers_left race_data quali_data a Ha) as (x1 & Hx1 & H1).
    destruct (merge_present_covers_left m1 (fp_merged fps) x1 Hx1) as (x2 & Hx2 & H2).
    exists (<["Round":=Num (Float.of_nat rnd)]> x2).
    split; [apply elem_of_assign_const; by exists x2|].
    intros c v Hc Hv. rewrite Hother by done. by apply H2, H1.
  - intros x Hx. apply elem_of_assign_const in Hx as (y & _ & ->).
    apply lookup_insert_eq.
  - intros x c v Hx Hc Hv. apply elem_of_assign_const in Hx as (y & Hy & ->).
    rewrite Hother in Hv by done. rewrite Hother by done. by apply Hprov.
  - intros x c Hx Hc Hnone. destruct (x !! c) as [v|] eqn:Hv; [|done].
    apply elem_of_assign_const in Hx as (y & Hy & ->).
    rewrite Hother in Hv by done.
    destruct (Hprov y c v Hy Hv) as (z & Hz & Hzk & Hzc).
    rewrite (Hnone z Hz) in Hzc; [done|]. by rewrite Hother.
Qed.

Lemma round_assembly_pit_lane :
  let round_data := assemble pit_lane_race pit_lane_quali (fp_merged [pit_lane_fp1]) 3 in
  "Driver" ∈ columns pit_lane_quali ∧
  Forall (λ fp, "Driver" ∈ columns fp) [pit_lane_fp1] ∧
  has_key "Driver" (Some (Str "BBB")) round_data ∧
  has_key "Driver" (Some (Str "CCC")) round_data ∧
  ∀ x, x ∈ rows round_data → x !! "Driver" = Some (Str "BBB") →
       x !! "Position_Quali" = None.
Proof.
  assert ("Driver" ∈ columns pit_lane_quali) as Hq by left.
  assert (Forall (λ fp, "Driver" ∈ columns fp) [pit_lane_fp1]) as Hf
    by (constructor; [left|constructor]).
  destruct (round_assembly pit_lane_race pit_lane_quali [pit_lane_fp1] 3 Hq Hf)
    as (Hkeys & _ & _ & _ & Habsent).
  split; [exact Hq|]. split; [exact Hf|]. split; [|split].
  - apply Hkeys. left. eexists. split; [right; left|]. reflexivity.
  - apply Hkeys. right; right. exists pit_lane_fp1. split; [left|].
    eexists. split; [left|]. reflexivity.
  - intros x Hx HB. apply Habsent; [exact Hx|discriminate|].
    intros y Hy Hk. rewrite HB in Hk.
    destruct Hy as [Hy|[Hy|(fp & Hfp & Hy)]].
    + apply elem_of_cons in Hy as [->|Hy]; [discriminate|].
      apply list_elem_of_singleton in Hy as ->. reflexivity.
    + apply list_elem_of_singleton in Hy as ->. discriminate.
    + apply list_elem_of_singleton in Hfp as ->.
      apply list_elem_of_singleton in Hy as ->. discriminate.
Defined.

(** ** The loop over the rounds *)

Lemma for_each_app {S X} (body : S → X → result S) xs ys s :
  for_each body (xs ++ ys) s = s' ← for_each body xs s; for_each body ys s'.
Proof.
  revert s. induction xs as [|x xs IH]; intros s; simpl; [done|].
  destruct (body s x) as [s'|]; simpl; [apply IH|done].
Qed.

Lemma for_each_ext {S X} (body1 body2 : S → X → result S) xs s :
  (∀ x s, x ∈ xs → body1 s x = body2 s x) →
  for_each body1 xs s = for_each body2 xs s.
Proof.
  revert s. induction xs as [|x xs IH]; intros s Hext; simpl; [done|].
  rewrite Hext by left. destruct (body2 s x) as [s'|]; simpl; [|done].
  apply IH. intros y s'' Hy. apply Hext. by right.
Qed.

Lemma run_S w season n :
  run w season (S n) = acc ← run w season n; step w season acc (S n).
Proof.
  unfold run. rewrite seq_S, for_each_app. simpl.
  destruct (for_each _ _ _) as [acc|]; simpl; [|done].
  by destruct (step w season acc (S n)).
Qed.

Lemma step_emit w season acc rnd acc' :
  step w season acc rnd = Ok acc' →
  cumulative_data acc' = cumulative_data acc ++ [round_data w season rnd] ∧
  ∃ block,
    emit (cumulative_data acc ++ [round_data w season rnd])
         (get_driver_standings (ergast w) season rnd) = Ok block ∧
    all_rounds acc' = all_rounds acc ++ [block].
Proof.
  unfold step, emit.
  destruct (concat _) as [std|]; [|done]. cbn [mbind result_bind].
  destruct (rolling_features std _) as [rf|]; [|done]. cbn [mbind result_bind].
  intros H. apply Ok_inj in H. subst acc'. cbn [cumulative_data all_rounds].
  split; [done|]. rewrite last_snoc. eauto.
Qed.

(** After [n] passes the history holds the round records 1..n and a block
    has been emitted for each of them. *)
Lemma run_history w season n acc :
  run w season n = Ok acc →
  cumulative_data acc = map (round_data w season) (seq 1 n) ∧
  length (all_rounds acc) = n.
Proof.
  revert acc. induction n as [|n IH]; intros acc.
  - intros H. apply Ok_inj in H. by subst acc.
  - rewrite run_S. destruct (run w season n) as [prev|]; [|done].
    cbn [mbind result_bind]. intros Hstep.
    destruct (IH prev eq_refl) as [Hcum Hlen].
    apply step_emit in Hstep as (Hc & block & _ & Ha).
    rewrite Hc, Ha, Hcum, seq_S, map_app, length_app. simpl. split; [done|lia].
Qed.

(** The block of round [S n] is emitted from the round records 1..S n and
    the standings through round [S n]. *)
Lemma run_block w season n acc :
  run w season (S n) = Ok acc →
  ∃ block,
    emit (map (round_data w season) (seq 1 (S n)))
         (get_driver_standings (ergast w) season (S n)) = Ok block ∧
    all_rounds acc !! n = Some block.
Proof.
  rewrite run_S. destruct (run w season n) as [prev|] eqn:Hprev; [|done].
  cbn [mbind result_bind]. intros Hstep.
  destruct (run_history _ _ _ _ Hprev) as [Hcum Hlen].
  apply step_emit in Hstep as (_ & block & Hemit & Ha).
  exists block. rewrite seq_S, map_app, <- Hcum. split; [done|].
  rewrite Ha, lookup_app_r by lia. by rewrite Hlen, Nat.sub_diag.
Qed.

(** Later passes leave the blocks already emitted in place. *)
Lemma run_prefix w season n m acc :
  run w season (n + m) = Ok acc →
  ∃ acc_n, run w season n = Ok acc_n ∧
           ∃ rest, all_rounds acc = all_rounds acc_n ++ rest.
Proof.
  revert acc. induction m as [|m IH]; intros acc.
  - rewrite Nat.add_0_r. intros H. exists acc. split; [done|].
    exists []. by rewrite app_nil_r.
  - rewrite Nat.add_succ_r, run_S.
    destruct (run w season (n + m)) as [prev|]; [|done].
    cbn [mbind result_bind]. intros Hstep.
    destruct (IH prev eq_refl) as (acc_n & Hn & rest & Hrest).
    apply step_emit in Hstep as (_ & block & _ & Ha).
    exists acc_n. split; [done|]. exists (rest ++ [block]).
    by rewrite Ha, Hrest, app_assoc.
Qed.

Lemma run_lookup w season round_limit acc i :
  run w season round_limit = Ok acc → (i < round_limit)%nat →
  ∃ block,
    all_rounds acc !! i = Some block ∧
    emit (map (round_data w season) (seq 1 (S i)))
         (get_driver_standings (ergast w) season (S i)) = Ok block.
Proof.
  intros Hrun Hi.
  replace round_limit with (S i + (round_limit - S i))%nat in Hrun by lia.
  apply run_prefix in Hrun as (acc_n & Hn & rest & Hrest).
  destruct (run_block _ _ _ _ Hn) as (block & Hemit & Hblock).
  exists block. split; [|done]. rewrite Hrest. by apply lookup_app_l_Some.
Qed.

Lemma round_data_round w season rnd (x : row) :
  x ∈ rows (round_data w season rnd) → x !! "Round" = Some (Num (Float.of_nat rnd)).
Proof.
  unfold round_data. rewrite assemble_unfold.
  intros (y & _ & ->)%elem_of_assign_const. apply lookup_insert_eq.
Qed.

Lemma round_with_features_keeps (round_data rolling_features : DataFrame) (x : row) :
  x ∈ rows (round_with_features round_data rolling_features) →
  ∃ a, a ∈ rows round_data ∧ ∀ c, is_Some (a !! c) → x !! c = a !! c.
Proof.
  unfold round_with_features. destruct (negb _).
  - apply merge_left_keeps.
  - intros Hx. by exists x.
Qed.

Lemma emit_round w season n block (x : row) :
  emit (map (round_data w season) (seq 1 (S n)))
       (get_driver_standings (ergast w) season (S n)) = Ok block →
  x ∈ rows block → x !! "Round" = Some (Num (Float.of_nat (S n))).
Proof.
  unfold emit. destruct (concat _) as [std|]; [|done]. cbn [mbind result_bind].
  destruct (rolling_features std _) as [rf|]; [|done]. cbn [mbind result_bind].
  rewrite seq_S, map_app. cbn [map]. rewrite last_snoc.
  intros H. apply Ok_inj in H. subst block.
  intros Hx. apply round_with_features_keeps in Hx as (a & Ha & Hkeep).
  apply round_data_round in Ha. rewrite Hkeep; [done|]. by rewrite Ha.
Qed.

Lemma filter_all {A} (P : A → Prop) `{∀ x, Decision (P x)} (l : list A) :
  (∀ x, x ∈ l → P x) → filter P l = l.
Proof.
  induction l as [|x l IH]; intros Hall; [done|].
  rewrite filter_cons, decide_True by (apply Hall; left).
  f_equal. apply IH. intros y Hy. apply Hall. by right.
Qed.

Lemma filter_none {A} (P : A → Prop) `{∀ x, Decision (P x)} (l : list A) :
  (∀ x, x ∈ l → ¬ P x) → filter P l = [].
Proof.
  induction l as [|x l IH]; intros Hall; [done|].
  rewrite filter_cons, decide_False by (apply Hall; left).
  apply IH. intros y Hy. apply Hall. by right.
Qed.

(** In a table whose [j]-th block only has rows of round [base + j], the rows
    of a round are the rows of its block. *)
Lemma rows_of_round_blocks (blocks : list DataFrame) base i block :
  (∀ j b (x : row), blocks !! j = Some b → x ∈ rows b →
     x !! "Round" = Some (Num (Float.of_nat (base + j)))) →
  blocks !! i = Some block →
  filter (λ r : row, r !! "Round" = Some (Num (Float.of_nat (base + i)))) (blocks ≫= rows)
  = rows block.
Proof.
  revert base i. induction blocks as [|b0 blocks IH]; intros base i Htag Hi; [done|].
  rewrite bind_cons, filter_app. destruct i as [|i]; simpl in Hi.
  - injection Hi as ->. rewrite filter_all, filter_none; [by rewrite app_nil_r| |].
    + intros x Hx HP. apply list_elem_of_bind in Hx as (b & Hx & Hb).
      apply list_elem_of_lookup in Hb as [j Hj].
      rewrite (Htag (S j) b x) in HP by done.
      injection HP as HP. lia.
    + intros x Hx. by apply (Htag 0%nat block).
  - rewrite filter_none.
    + replace (base + S i)%nat with (S base + i)%nat by lia. apply IH; [|done].
      intros j b x Hj Hx. replace (S base + j)%nat with (base + S j)%nat by lia.
      by apply (Htag (S j) b).
    + intros x Hx HP. rewrite (Htag 0%nat b0 x) in HP by done.
      injection HP as HP. lia.
Qed.

(** The rows of round [S i] in the season table are the rows of the block
    emitted from the round records 1..S i and the standings through it. *)
Lemma season_rows_of_round w season round_limit table i :
  get_season_data_with_features w season round_limit = Ok table →
  (i < round_limit)%nat →
  ∃ block,
    emit (map (round_data w season) (seq 1 (S i)))
         (get_driver_standings (ergast w) season (S i)) = Ok block ∧
    rows_of_round (S i) table = rows block.
Proof.
  unfold get_season_data_with_features.
  destruct (run w season round_limit) as [acc|] eqn:Hrun; [|done].
  cbn [mbind result_bind]. intros Hconcat Hi.
  destruct (run_lookup _ _ _ _ _ Hrun Hi) as (block & Hblock & Hemit).
  exists block. split; [done|].
  unfold concat in Hconcat. destruct (all_rounds acc) as [|b bs] eqn:Hall; [done|].
  apply Ok_inj in Hconcat. subst table. unfold rows_of_round. cbn [rows].
  apply (rows_of_round_blocks (b :: bs) 1 i block); [|done].
  intros j blk x Hj Hx. rewrite <- Hall in Hj.
  assert (j < round_limit)%nat as Hlt.
  { destruct (run_history _ _ _ _ Hrun) as [_ Hlen]. rewrite <- Hlen.
    by eapply lookup_lt_Some. }
  destruct (run_lookup _ _ _ _ _ Hrun Hlt) as (blk' & Hblk' & Hemit').
  assert (blk' = blk) as -> by congruence.
  by eapply emit_round.
Qed.

(** ** Worlds that agree on the rounds read *)

Lemma mapM_result_ext {A B} (f g : A → result B) (l : list A) :
  (∀ x, x ∈ l → f x = g x) → mapM f l = mapM g l.
Proof.
  induction l as [|x l IH]; intros Hext; [done|].
  cbn [mapM]. rewrite (Hext x) by left. rewrite IH; [done|].
  intros y Hy. apply Hext. by right.
Qed.

Lemma round_points_agree e1 e2 season rnd :
  get_race_results e1 season rnd = get_race_results e2 season rnd →
  get_sprint_results e1 season rnd = get_sprint_results e2 season rnd →
  round_points e1 season rnd = round_points e2 season rnd.
Proof. intros H1 H2. unfold round_points. by rewrite H1, H2. Qed.

Lemma standings_agree w1 w2 season n rnd :
  agree_upto season n w1 w2 → (rnd ≤ n)%nat →
  get_driver_standings (ergast w1) season rnd
  = get_driver_standings (ergast w2) season rnd.
Proof.
  intros (_ & Hsched & Hres) Hrnd. unfold get_driver_standings.
  destruct (get_race_schedule (ergast w1) season) as [races1|e1];
    destruct (get_race_schedule (ergast w2) season) as [races2|e2];
    simpl in Hsched; try done; [|by injection Hsched as ->].
  apply Ok_inj in Hsched. cbn [mbind result_bind].
  assert (rounds_upto races1 rnd = rounds_upto races2 rnd) as ->.
  { rewrite !rounds_upto_seq. f_equal.
    apply (f_equal length) in Hsched. rewrite !length_take in Hsched. lia. }
  rewrite (mapM_result_ext (round_points (ergast w1) season)
                           (round_points (ergast w2) season)); [done|].
  intros r Hr. rewrite rounds_upto_seq in Hr. apply elem_of_seq in Hr.
  destruct (Hres r) as [H1 H2]; [lia|]. by apply round_points_agree.
Qed.

Lemma round_data_agree w1 w2 season n rnd :
  agree_upto season n w1 w2 → (1 ≤ rnd ≤ n)%nat →
  round_data w1 season rnd = round_data w2 season rnd.
Proof.
  intros (Hsess & _) Hrnd. unfold round_data, fp_data.
  rewrite !(Hsess rnd _ Hrnd). do 2 f_equal.
  apply list_bind_ext; [|done]. intros fp. by rewrite (Hsess rnd fp Hrnd).
Qed.

Lemma step_agree w1 w2 season n acc rnd :
  agree_upto season n w1 w2 → (1 ≤ rnd ≤ n)%nat →
  step w1 season acc rnd = step w2 season acc rnd.
Proof.
  intros Hagree Hrnd. unfold step.
  rewrite (round_data_agree _ _ _ _ _ Hagree Hrnd).
  by rewrite (standings_agree _ _ _ _ _ Hagree (proj2 Hrnd)).
Qed.

Lemma run_agree w1 w2 season n :
  agree_upto season n w1 w2 → run w1 season n = run w2 season n.
Proof.
  intros Hagree. unfold run. apply for_each_ext.
  intros rnd acc Hrnd. apply elem_of_seq in Hrnd.
  apply (step_agree _ _ _ n); [done|lia].
Qed.

(** C1: the rows of round N in the season table are the rows of the block
    emitted from the round records of the rounds 1..N and the standings
    through round N, whatever the round limit; two worlds that hold the same
    data for the rounds 1..N, and differ in any way after them, have the same
    rows for round N. *)
Theorem causality (w1 w2 : World) (season N L1 L2 : nat) (t1 t2 : DataFrame) :
  (1 ≤ N)%nat → (N ≤ L1)%nat → (N ≤ L2)%nat →
  agree_upto season N w1 w2 →
  get_season_data_with_features w1 season L1 = Ok t1 →
  get_season_data_with_features w2 season L2 = Ok t2 →
  ∃ block,
    emit (map (round_data w1 season) (seq 1 N))
         (get_driver_standings (ergast w1) season N) = Ok block ∧
    rows_of_round N t1 = rows block ∧
    rows_of_round N t2 = rows block.
Proof.
  intros HN HL1 HL2 Hagree Ht1 Ht2.
  destruct N as [|i]; [lia|].
  destruct (season_rows_of_round _ _ _ _ i Ht1) as (b1 & He1 & Hr1); [lia|].
  destruct (season_rows_of_round _ _ _ _ i Ht2) as (b2 & He2 & Hr2); [lia|].
  exists b1. split; [done|]. split; [done|]. rewrite Hr2. f_equal.
  assert (map (round_data w2 season) (seq 1 (S i))
          = map (round_data w1 season) (seq 1 (S i))) as Hhist.
  { apply list_fmap_ext. intros _ rnd Hrnd%list_elem_of_lookup_2%elem_of_seq.
    symmetry. apply (round_data_agree _ _ _ (S i)); [done|lia]. }
  rewrite Hhist, <- (standings_agree _ _ _ _ (S i) Hagree) in He2 by done.
  congruence.
Qed.

(** C9: the season table, or the failure to produce it, is determined by the
    season, the round limit and the data of the rounds up to the limit: two
    runs that are served the same data return the same outcome. *)
Theorem determinism (w1 w2 : World) (season round_limit : nat) :
  agree_upto season round_limit w1 w2 →
  get_season_data_with_features w1 season round_limit
  = get_season_data_with_features w2 season round_limit.
Proof.
  intros Hagree. unfold get_season_data_with_features.
  by rewrite (run_agree _ _ _ _ Hagree).
Qed.

Lemma seasons_agree : agree_upto 2025 2 full_season season_after_two.
Proof.
  split; [|split].
  - intros rnd kind Hrnd. destruct rnd as [|[|[|rnd]]]; (lia || reflexivity).
  - reflexivity.
  - intros rnd Hrnd. destruct rnd as [|[|[|rnd]]]; (lia || (split; reflexivity)).
Qed.

Lemma returns_true {A} (m : result A) (check : A → bool) :
  returns m check = true → ∃ a, m = Ok a ∧ check a = true.
Proof. destruct m as [a|]; [|done]. intros H. by exists a. Qed.

Lemma returns_is_Ok {A} (m : result A) : returns m (λ _, true) = true → is_Ok m.
Proof. intros (a & H & _)%returns_true. by exists a. Qed.

Lemma causality_third_round :
  ∃ t1 t2,
    get_season_data_with_features full_season 2025 2 = Ok t1 ∧
    get_season_data_with_features season_after_two 2025 3 = Ok t2 ∧
    rows_of_round 2 t1 = rows_of_round 2 t2.
Proof.
  destruct (returns_is_Ok (get_season_data_with_features full_season 2025 2))
    as [t1 E1]; [vm_compute; reflexivity|].
  destruct (returns_is_Ok (get_season_data_with_features season_after_two 2025 3))
    as [t2 E2]; [vm_compute; reflexivity|].
  exists t1, t2. split; [exact E1|]. split; [exact E2|].
  destruct (causality full_season season_after_two 2025 2 2 3 t1 t2) as (block & _ & H1 & H2);
    [lia|lia|lia|exact seasons_agree|exact E1|exact E2|].
  rewrite H1, H2. reflexivity.
Defined.

Lemma determinism_two_rounds :
  agree_upto 2025 2 full_season season_after_two ∧
  get_season_data_with_features full_season 2025 2
  = get_season_data_with_features season_after_two 2025 2.
Proof.
  split; [exact seasons_agree|].
  apply (determinism full_season season_after_two 2025 2 seasons_agree).
Defined.

(** ** A session that cannot be loaded *)

(** C3 fails on the code when no round so far has the columns of the missing
    session: the round record is assembled without them, and the rolling
    aggregation, which asks for the columns of every session by name, raises
    [KeyError] outside any handler.  Here the second practice of round 1 is
    missing; race, qualifying, first and third practice are loaded. *)
Theorem missing_session_first_round :
  let w := first_round_without_fp2 in
  is_Ok (get_fp_data (get_session w 2025 1 "FP1") "FP1") ∧
  get_fp_data (get_session w 2025 1 "FP2") "FP2" = Raise DataNotLoaded ∧
  is_Ok (get_fp_data (get_session w 2025 1 "FP3") "FP3") ∧
  is_Ok (get_quali_data (get_session w 2025 1 "Q")) ∧
  is_Ok (get_race_data (get_session w 2025 1 "R")) ∧
  columns (round_data w 2025 1)
  = ["Driver"; "FinishingPosition"; "Status"; "DNF_Dummy"; "FinishStatus"; "RaceTime";
     "RacePace"; "GapToFastestRacePace"; "Position_Quali"; "QualiLap"; "GapToPole";
     "GapToFastest_FP1"; "Position_FP1"; "RacePace_FP1";
     "GapToFastest_FP3"; "Position_FP3"; "RacePace_FP3"; "Round"] ∧
  get_season_data_with_features w 2025 1
  = Raise (KeyError ["GapToFastest_FP2"; "Position_FP2"]) ∧
  get_season_data_with_features w 2025 2
  = Raise (KeyError ["GapToFastest_FP2"; "Position_FP2"]).
Proof.
  split; [apply returns_is_Ok; vm_compute; reflexivity|].
  split; [vm_compute; reflexivity|].
  split; [apply returns_is_Ok; vm_compute; reflexivity|].
  split; [apply returns_is_Ok; vm_compute; reflexivity|].
  split; [apply returns_is_Ok; vm_compute; reflexivity|].
  split; [vm_compute; reflexivity|].
  split; vm_compute; reflexivity.
Qed.

(** When an earlier round has the columns, the round with the missing
    session goes through: its rows have no cell in the columns of the missing
    session and the season table is produced. *)
Lemma missing_session_second_round :
  ∃ table,
    get_season_data_with_features second_round_without_fp2 2025 2 = Ok table ∧
    "Position_FP2" ∈ columns table ∧
    length (rows_of_round 2 table) = 5%nat ∧
    Forall (λ x : row, x !! "Position_FP2" = None ∧ x !! "GapToFastest_FP2" = None ∧
                       x !! "RacePace_FP2" = None ∧
                       is_Some (x !! "Status") ∧ is_Some (x !! "DNFPercentage"))
           (rows_of_round 2 table).
Proof.
  destruct (returns_true
    (get_season_data_with_features second_round_without_fp2 2025 2)
    (λ table,
       bool_decide ("Position_FP2" ∈ columns table) &&
       bool_decide (length (rows_of_round 2 table) = 5%nat) &&
       bool_decide (Forall (λ x : row,
           x !! "Position_FP2" = None ∧ x !! "GapToFastest_FP2" = None ∧
           x !! "RacePace_FP2" = None ∧
           is_Some (x !! "Status") ∧ is_Some (x !! "DNFPercentage"))
         (rows_of_round 2 table))))
    as (table & Htable & Hcheck); [vm_compute; reflexivity|].
  apply andb_prop in Hcheck as [Hcheck H3]. apply andb_prop in Hcheck as [H1 H2].
  exists table. split; [exact Htable|].
  split; [exact (bool_decide_eq_true_1 _ H1)|].
  split; [exact (bool_decide_eq_true_1 _ H2)|exact (bool_decide_eq_true_1 _ H3)].
Qed.

(** ** No abort once a round with rows has gone through *)

Lemma groupby_mean_columns key specs (df rf : DataFrame) c :
  groupby_mean key specs df = Ok rf → c ∈ map snd specs → c ∈ columns df.
Proof.
  unfold groupby_mean.
  destruct (filter (λ c, c ∉ columns df) (map snd specs)) as [|c0 cs] eqn:E; [|done].
  intros _ Hc. destruct (decide (c ∈ columns df)) as [|Hn]; [done|].
  assert (c ∈ filter (λ c, c ∉ columns df) (map snd specs)) as Hin
    by (by apply list_elem_of_filter).
  rewrite E in Hin. by apply elem_of_nil in Hin.
Qed.

Lemma groupby_mean_is_Ok key specs (df : DataFrame) :
  (∀ c, c ∈ map snd specs → c ∈ columns df) → is_Ok (groupby_mean key specs df).
Proof.
  intros Hall. unfold groupby_mean. rewrite filter_none; [by eexists|].
  intros c Hc Hn. by apply Hn, Hall.
Qed.

Lemma rolling_features_is_Ok std standings :
  (∀ c, c ∈ map snd rolling_specs → c ∈ columns std) →
  is_Ok (rolling_features std standings).
Proof.
  intros Hall. unfold rolling_features. destruct (_ || _); [by eexists|].
  destruct (groupby_mean_is_Ok "Driver" rolling_specs std Hall) as [rf ->].
  cbn [mbind result_bind]. by eexists.
Qed.

Lemma rolling_features_columns std standings rf c :
  rolling_features std standings = Ok rf →
  rows std ≠ [] → "Driver" ∈ columns std →
  c ∈ map snd rolling_specs → c ∈ columns std.
Proof.
  unfold rolling_features, df_empty. intros H Hrows Hdriver.
  destruct (bool_decide (rows std = [])) eqn:E1;
    [by apply bool_decide_eq_true in E1|].
  destruct (bool_decide (columns std = [])) eqn:E2;
    [apply bool_decide_eq_true in E2; rewrite E2 in Hdriver;
     by apply elem_of_nil in Hdriver|].
  rewrite bool_decide_eq_true_2 in H by done.
  cbn [orb negb] in H.
  destruct (groupby_mean "Driver" rolling_specs std) as [rf0|] eqn:E; [|done].
  by eapply groupby_mean_columns.
Qed.

Lemma concat_Ok (dfs : list DataFrame) :
  dfs ≠ [] →
  concat dfs = Ok {| columns := unique (dfs ≫= columns); rows := dfs ≫= rows |}.
Proof. by destruct dfs. Qed.

Lemma race_frame_Driver (s : Session) (df : DataFrame) :
  race_frame s = Ok df → "Driver" ∈ columns df.
Proof.
  unfold race_frame. destruct (winner_time (results s)); [|done].
  intros H. apply Ok_inj in H. subst df. left.
Qed.

Lemma round_data_Driver w season rnd : "Driver" ∈ columns (round_data w season rnd).
Proof.
  unfold round_data. rewrite assemble_unfold.
  set (race := try_except _ _). set (quali := try_except _ _).
  assert ("Driver" ∈ columns race) as Hrace.
  { unfold race. destruct (get_session w season rnd "R") as [s|]; [|left].
    rewrite get_race_data_Some. destruct (race_frame s) as [df|] eqn:E; [|left].
    by eapply race_frame_Driver. }
  assert (∀ l r, "Driver" ∈ columns l → "Driver" ∈ columns (merge_present l r)) as Hstep.
  { intros l r Hl. unfold merge_present. destruct (negb _); [|done].
    by apply merge_outer_columns. }
  unfold assign_const. cbn [columns]. case_bool_decide; [by apply Hstep, Hstep|].
  apply elem_of_app. left. by apply Hstep, Hstep.
Qed.

Lemma complete_snoc history rd : complete history → complete (history ++ [rd]).
Proof.
  intros [(rd0 & x & Hrd0 & Hx) Hcols]. split.
  - exists rd0, x. split; [|done]. apply elem_of_app. by left.
  - intros c Hc. destruct (Hcols c Hc) as (rd1 & ? & ?). exists rd1.
    split; [|done]. apply elem_of_app. by left.
Qed.

Lemma step_complete w season acc rnd :
  complete (cumulative_data acc) →
  ∃ acc', step w season acc rnd = Ok acc' ∧ complete (cumulative_data acc').
Proof.
  intros Hc. apply (complete_snoc _ (round_data w season rnd)) in Hc.
  unfold step. rewrite concat_Ok by (by destruct (cumulative_data acc)).
  cbn [mbind result_bind].
  destruct (rolling_features_is_Ok
              {| columns := unique ((cumulative_data acc ++ [round_data w season rnd]) ≫= columns);
                 rows := (cumulative_data acc ++ [round_data w season rnd]) ≫= rows |}
              (get_driver_standings (ergast w) season rnd)) as [rf ->].
  - intros c Hin. cbn [columns]. apply elem_of_unique, list_elem_of_bind.
    destruct Hc as [_ Hcols]. destruct (Hcols c Hin) as (rd & ? & ?). by exists rd.
  - cbn [mbind result_bind]. eexists. split; [done|]. done.
Qed.

Lemma run_complete w season n acc :
  run w season n = Ok acc →
  (∃ rd (x : row), rd ∈ cumulative_data acc ∧ x ∈ rows rd) →
  complete (cumulative_data acc).
Proof.
  intros Hrun Hrows. split; [done|]. intros c Hc.
  destruct n as [|n].
  { apply Ok_inj in Hrun. subst acc. destruct Hrows as (rd & _ & Hrd & _).
    by apply elem_of_nil in Hrd. }
  rewrite run_S in Hrun. destruct (run w season n) as [prev|] eqn:Hprev; [|done].
  cbn [mbind result_bind] in Hrun.
  destruct (step_emit _ _ _ _ _ Hrun) as (Hcum & block & Hemit & _).
  unfold emit in Hemit. rewrite <- Hcum in Hemit.
  rewrite concat_Ok in Hemit
    by (intros E; destruct Hrows as (rd & _ & Hrd & _); rewrite E in Hrd;
        by apply elem_of_nil in Hrd).
  cbn [mbind result_bind] in Hemit.
  destruct (rolling_features _ _) as [rf|] eqn:Hrf; [|done].
  eapply rolling_features_columns in Hrf; [| | |exact Hc].
  - cbn [columns] in Hrf. apply elem_of_unique, list_elem_of_bind in Hrf as (rd & ? & ?).
    by exists rd.
  - cbn [rows]. destruct Hrows as (rd & x & Hrd & Hx). intros E.
    assert (x ∈ cumulative_data acc ≫= rows) as Hin
      by (apply list_elem_of_bind; by exists rd).
    rewrite E in Hin. by apply elem_of_nil in Hin.
  - cbn [columns]. apply elem_of_unique, list_elem_of_bind.
    exists (round_data w season (S n)). split; [apply round_data_Driver|].
    rewrite Hcum. apply elem_of_app. right. left.
Qed.

(** X22: once the loop has passed a round and the history has a row, no
    later round can make the run fail, whatever sessions it lacks. *)
Lemma no_abort_after_rows w season n m acc :
  run w season n = Ok acc →
  (∃ rd (x : row), rd ∈ cumulative_data acc ∧ x ∈ rows rd) →
  is_Ok (get_season_data_with_features w season (n + m)).
Proof.
  intros Hrun Hrows. pose proof (run_complete _ _ _ _ Hrun Hrows) as Hc.
  assert (∃ acc', run w season (n + m) = Ok acc' ∧ complete (cumulative_data acc'))
    as (acc' & Hrun' & Hc').
  { induction m as [|m IH].
    - rewrite Nat.add_0_r. by exists acc.
    - destruct IH as (acc1 & Hrun1 & Hc1).
      destruct (step_complete w season acc1 (S (n + m)) Hc1) as (acc2 & Hstep & Hc2).
      exists acc2. split; [|done].
      by rewrite Nat.add_succ_r, run_S, Hrun1. }
  unfold get_season_data_with_features. rewrite Hrun'. cbn [mbind result_bind].
  destruct (run_history _ _ _ _ Hrun') as [Hcum Hlen].
  destruct Hc' as [(rd & _ & Hrd & _) _].
  destruct (all_rounds acc') as [|b bs] eqn:E; [|by eexists].
  simpl in Hlen. rewrite <- Hlen in Hcum. simpl in Hcum. rewrite Hcum in Hrd.
  by apply elem_of_nil in Hrd.
Qed.

(** ** The standings table *)

Lemma mapM_result_Ok {A B} (f : A → result B) (l : list A) (k : list B) :
  mapM f l = Ok k ↔ Forall2 (λ x y, f x = Ok y) l k.
Proof.
  revert k. induction l as [|x l IH]; intros k; cbn [mapM].
  - split.
    + intros H. apply Ok_inj in H. subst k. constructor.
    + intros H. by apply Forall2_nil_inv_l in H as ->.
  - destruct (f x) as [y|e] eqn:Ex; cbn [mbind result_bind].
    + destruct (mapM f l) as [k'|e] eqn:Ek; cbn [mbind result_bind].
      * split.
        -- intros H. apply Ok_inj in H. subst k. constructor; [done|]. by apply IH.
        -- intros H. apply Forall2_cons_inv_l in H as (y' & k'' & Hy & Hk & ->).
           rewrite Ex in Hy. apply Ok_inj in Hy. apply IH, Ok_inj in Hk. by subst.
      * split; [done|].
        intros H. apply Forall2_cons_inv_l in H as (y' & k'' & Hy & Hk & ->).
        by apply IH in Hk.
    + split; [done|].
      intros H. apply Forall2_cons_inv_l in H as (y' & k'' & Hy & Hk & ->).
      by rewrite Ex in Hy.
Qed.

Lemma StronglySorted_lookup {A} (R : A → A → Prop) (l : list A) i j a b :
  StronglySorted R l → (i < j)%nat → l !! i = Some a → l !! j = Some b → R a b.
Proof.
  intros Hl. revert i j. induction Hl as [|x l Hl IH Hx]; intros i j Hij Hi Hj; [done|].
  destruct j as [|j]; [lia|]. simpl in Hj. destruct i as [|i]; simpl in Hi.
  - injection Hi as ->. rewrite Forall_forall in Hx. apply Hx.
    by eapply list_elem_of_lookup_2.
  - apply (IH i j); [lia|done|done].
Qed.

(** X1: with a round limit of 0, or a schedule without races, the loop of
    [get_driver_standings] collects no round, and the concatenation of nothing
    raises [ValueError]. *)
Theorem standings_nothing_to_rank (e : Ergast) (season round_limit : nat)
    (races : list string) :
  get_race_schedule e season = Ok races →
  round_limit = 0%nat ∨ races = [] →
  get_driver_standings e season round_limit = Raise ValueError.
Proof.
  intros Hs H. unfold get_driver_standings. rewrite Hs. cbn [mbind result_bind].
  assert (rounds_upto races round_limit = []) as ->.
  { rewrite rounds_upto_seq. destruct H as [-> | ->]; [done|]. by rewrite Nat.min_0_r. }
  done.
Qed.

Lemma standings_nothing_to_rank_start :
  get_race_schedule two_round_season 2025 = Ok ["Alpha Grand Prix"; "Beta Grand Prix"] ∧
  get_driver_standings two_round_season 2025 0 = Raise ValueError.
Proof.
  split; [reflexivity|].
  apply (standings_nothing_to_rank two_round_season 2025 0
           ["Alpha Grand Prix"; "Beta Grand Prix"] eq_refl).
  left. reflexivity.
Defined.

(** X2: the loop over the schedule ends with the schedule: a round limit
    beyond the last scheduled round gives the outcome of the round limit that
    is the last scheduled round. *)
Theorem standings_limit_clipped (e : Ergast) (season round_limit : nat)
    (races : list string) :
  get_race_schedule e season = Ok races →
  (length races ≤ round_limit)%nat →
  get_driver_standings e season round_limit
  = get_driver_standings e season (length races).
Proof.
  intros Hs Hle. unfold get_driver_standings. rewrite Hs. cbn [mbind result_bind].
  rewrite !rounds_upto_seq. by rewrite Nat.min_id, Nat.min_r.
Qed.

Lemma standings_limit_clipped_season :
  (length ["Alpha Grand Prix"; "Beta Grand Prix"] ≤ 12)%nat ∧
  get_driver_standings two_round_season 2025 12
  = get_driver_standings two_round_season 2025 2.
Proof.
  split; [simpl; lia|].
  apply (standings_limit_clipped two_round_season 2025 12
           ["Alpha Grand Prix"; "Beta Grand Prix"] eq_refl).
  simpl. lia.
Defined.

(** The internal list of the standings: driver, total and rank, in rank
    order. *)
Lemma standings_frame_list (results : list (nat * ErgastRow)) (df : DataFrame) :
  standings_frame results = Ok df →
  ∃ index wide standings,
    pivot_index results = Ok index ∧
    wide ≡ₚ map (λ d, (d, total_points results d)) index ∧
    StronglySorted (λ x y : string * Q, Qle_bool y.2 x.2 = true) wide ∧
    standings ≡ₚ zip wide (rank_min false (map snd wide)) ∧
    StronglySorted (λ x y : string * Q * nat, Nat.leb x.2 y.2 = true) standings ∧
    rows df = map (λ s : string * Q * nat,
                     mk_row [("Driver", Some (Str s.1.1));
                             ("Points", Some (Num s.1.2));
                             ("ChampPosition", Some (Num (Float.of_nat s.2)))]) standings.
Proof.
  unfold standings_frame.
  destruct (pivot_index results) as [index|] eqn:Ei; [|done].
  intros H. apply Ok_inj in H. subst df. cbn [rows].
  eexists index, _, _. split; [done|].
  split; [apply sort_by_Permutation|].
  split.
  { apply sort_by_StronglySorted.
    - intros x y. destruct (Qle_bool y.2 x.2) eqn:E1; [by left|right].
      apply Qle_bool_iff. apply Qle_bool_false in E1. lra.
    - intros x y z H1 H2. apply Qle_bool_iff. apply Qle_bool_iff in H1, H2. lra. }
  split; [apply sort_by_Permutation|].
  split; [|done].
  apply sort_by_StronglySorted.
  - intros x y. destruct (Nat.leb_spec x.2 y.2); [by left|right]. apply Nat.leb_le. lia.
  - intros x y z H1 H2. apply Nat.leb_le. apply Nat.leb_le in H1, H2. lia.
Qed.

Lemma pivot_index_Ok results index :
  pivot_index results = Ok index →
  index = sort_by String.leb (unique (map (λ x : nat * ErgastRow, driverCode x.2) results)).
Proof. unfold pivot_index. case_bool_decide; [|done]. intros E. by apply Ok_inj in E. Qed.

Lemma standings_frame_drivers (results : list (nat * ErgastRow)) (df : DataFrame) :
  standings_frame results = Ok df →
  column "Driver" df
  ≡ₚ map (λ d, Some (Str d)) (unique (map (λ x : nat * ErgastRow, driverCode x.2) results)).
Proof.
  intros H.
  destruct (standings_frame_list _ _ H)
    as (index & wide & standings & Hindex & Hwide & _ & Hst & _ & Hrows).
  unfold column. rewrite Hrows, <- list_fmap_compose.
  rewrite (list_fmap_ext _ (λ s : string * Q * nat, Some (Str s.1.1)) standings)
    by (intros; simpl; by rewrite ?lookup_mk_row).
  rewrite Hst.
  assert (∀ l : list (string * Q * nat),
            map (λ s, Some (Str s.1.1)) l = map (λ w : string * Q, Some (Str w.1)) (l.*1))
    as -> by (intros; by rewrite <- list_fmap_compose).
  rewrite fst_zip by (unfold rank_min; by rewrite !length_map).
  rewrite Hwide, <- list_fmap_compose. cbn [compose fst].
  rewrite (pivot_index_Ok _ _ Hindex). by rewrite sort_by_Permutation.
Qed.

(** X3: the standings hold one row per driver: the driver column has no
    duplicate, and it names exactly the drivers of the round tables that were
    collected. *)
Theorem standings_one_row_per_driver (e : Ergast) (season round_limit : nat)
    (df : DataFrame) :
  get_driver_standings e season round_limit = Ok df →
  ∃ races (results : list (list (nat * ErgastRow))),
    get_race_schedule e season = Ok races ∧
    mapM (round_points e season) (rounds_upto races round_limit) = Ok results ∧
    NoDup (column "Driver" df) ∧
    (∀ k, k ∈ column "Driver" df ↔
          ∃ x, x ∈ mjoin results ∧ k = Some (Str (driverCode x.2))).
Proof.
  intros Hdf.
  destruct (get_driver_standings_Ok _ _ _ _ Hdf) as (races & results & Hraces & Hres & Hframe).
  exists races, results. split; [done|]. split; [done|].
  pose proof (standings_frame_drivers _ _ Hframe) as Hperm. split.
  - rewrite Hperm. apply NoDup_fmap_2; [|apply NoDup_unique].
    intros d1 d2 [= ->]. done.
  - intros k. rewrite Hperm, list_elem_of_fmap. split.
    + intros (d & -> & Hd). apply elem_of_unique, list_elem_of_fmap in Hd as (x & -> & Hx).
      by exists x.
    + intros (x & Hx & ->). exists (driverCode x.2). split; [done|].
      apply elem_of_unique, list_elem_of_fmap. by exists x.
Qed.

Lemma standings_one_row_per_driver_season :
  ∃ df, get_driver_standings two_round_season 2025 2 = Ok df ∧
        NoDup (column "Driver" df) ∧ length (rows df) = 2%nat.
Proof.
  destruct (returns_true (get_driver_standings two_round_season 2025 2)
              (λ df, bool_decide (length (rows df) = 2%nat)))
    as (df & Hdf & Hlen); [vm_compute; reflexivity|].
  exists df. split; [exact Hdf|].
  destruct (standings_one_row_per_driver two_round_season 2025 2 df Hdf)
    as (races & results & _ & _ & Hnodup & _).
  split; [exact Hnodup|exact (bool_decide_eq_true_1 _ Hlen)].
Defined.

(** A value strictly ahead of another one in the list is ranked strictly
    before it. *)
Lemma count_ahead_lt asc x y l :
  ahead asc x y = true → x ∈ l →
  (count_if (λ z, ahead asc z x) l < count_if (λ z, ahead asc z y) l)%nat.
Proof.
  intros Hxy Hx. rewrite (count_ahead_split asc x y l Hxy).
  assert (0 < count_if (λ z, Qeq_bool z x) l)%nat; [|lia].
  clear Hxy. induction Hx as [x l|x z l Hl IH]; simpl.
  - rewrite (proj2 (Qeq_bool_iff x x)) by reflexivity. lia.
  - lia.
Qed.

Lemma standings_frame_order (results : list (nat * ErgastRow)) (df : DataFrame) :
  standings_frame results = Ok df →
  (∀ i j x y, (i < j)%nat → rows df !! i = Some x → rows df !! j = Some y →
     ∃ px py cx cy,
       x !! "Points" = Some (Num px) ∧ y !! "Points" = Some (Num py) ∧
       x !! "ChampPosition" = Some (Num (Float.of_nat cx)) ∧
       y !! "ChampPosition" = Some (Num (Float.of_nat cy)) ∧
       (cx ≤ cy)%nat ∧ (py <= px)%Q) ∧
  (∀ x, head (rows df) = Some x → x !! "ChampPosition" = Some (Num 1%Q)).
Proof.
  intros H.
  destruct (standings_frame_list _ _ H)
    as (index & wide & standings & _ & _ & Hsorted & Hst & Hranked & Hrows).
  set (totals := map snd wide) in *.
  assert (∀ s, s ∈ standings →
            s.1.2 ∈ totals ∧
            s.2 = S (count_if (λ z, ahead false z s.1.2) totals)) as Hrank.
  { intros [[d q] rk] Hs. rewrite Hst in Hs.
    apply elem_of_zip_lookup in Hs as (i & Hw & Hrk). simpl.
    assert (totals !! i = Some q) as Hq by (unfold totals; by rewrite list_lookup_fmap, Hw).
    split; [by eapply list_elem_of_lookup_2|].
    rewrite (rank_min_lookup false totals i q Hq) in Hrk. by injection Hrk. }
  split.
  - intros i j x y Hij Hx Hy. rewrite Hrows in Hx, Hy.
    apply list_lookup_fmap_Some in Hx as (a & -> & Ha).
    apply list_lookup_fmap_Some in Hy as (b & -> & Hb).
    exists a.1.2, b.1.2, a.2, b.2. rewrite !lookup_mk_row. simpl.
    do 4 (split; [done|]).
    pose proof (StronglySorted_lookup _ _ _ _ _ _ Hranked Hij Ha Hb) as Hle.
    apply Nat.leb_le in Hle. split; [done|].
    destruct (Hrank a) as [Hina Hra]; [by eapply list_elem_of_lookup_2|].
    destruct (Hrank b) as [Hinb Hrb]; [by eapply list_elem_of_lookup_2|].
    destruct (ahead false b.1.2 a.1.2) eqn:E.
    + pose proof (count_ahead_lt false _ _ totals E Hinb). lia.
    + revert E. q_cases.
  - intros x Hx. rewrite Hrows in Hx.
    destruct standings as [|s0 rest] eqn:Es; [done|].
    cbn [map head] in Hx. apply (inj Some) in Hx. subst x.
    rewrite lookup_mk_row. simpl. do 2 f_equal.
    destruct wide as [|w0 wide'] eqn:Ew.
    { apply Permutation_length in Hst. by simpl in Hst. }
    assert (count_if (λ z, ahead false z w0.2) totals = 0%nat) as Hzero.
    { apply count_if_none. intros z Hz. unfold totals in Hz.
      apply elem_of_cons in Hz as [->|Hz].
      - q_cases.
      - apply StronglySorted_inv in Hsorted as [_ Hall].
        rewrite Forall_forall in Hall.
        apply list_elem_of_fmap in Hz as (w & -> & Hw). specialize (Hall w Hw).
        simpl in Hall. revert Hall. q_cases. }
    assert (∃ s, s ∈ s0 :: rest ∧ s.2 = 1%nat) as (s & Hs & Hs1).
    { exists (w0, 1%nat). split; [|done]. rewrite Hst.
      unfold rank_min. fold totals.
      assert (first_position w0.2 (sort_by (rank_order false) totals) = 1%nat) as Hfp.
      { rewrite first_position_count by (unfold totals; left). by rewrite Hzero. }
      unfold totals at 2. cbn [map zip zip_with]. rewrite Hfp. left. }
    assert (s0.2 ≤ 1)%nat as Hle.
    { apply elem_of_cons in Hs as [->|Hs]; [lia|].
      apply StronglySorted_inv in Hranked as [_ Hall].
      rewrite Forall_forall in Hall. specialize (Hall s Hs).
      apply Nat.leb_le in Hall. lia. }
    destruct (Hrank s0) as [_ Hr0]; [left|].
    assert (s0.2 = 1%nat) as -> by lia. done.
Qed.

(** X4: the standings come in championship order: down the table the
    position never decreases and the points never increase, and the first row
    has position 1. *)
Theorem standings_order (e : Ergast) (season round_limit : nat) (df : DataFrame) :
  get_driver_standings e season round_limit = Ok df →
  (∀ i j x y, (i < j)%nat → rows df !! i = Some x → rows df !! j = Some y →
     ∃ px py cx cy,
       x !! "Points" = Some (Num px) ∧ y !! "Points" = Some (Num py) ∧
       x !! "ChampPosition" = Some (Num (Float.of_nat cx)) ∧
       y !! "ChampPosition" = Some (Num (Float.of_nat cy)) ∧
       (cx ≤ cy)%nat ∧ (py <= px)%Q) ∧
  (∀ x, head (rows df) = Some x → x !! "ChampPosition" = Some (Num 1%Q)).
Proof.
  intros Hdf.
  destruct (get_driver_standings_Ok _ _ _ _ Hdf) as (races & results & _ & _ & Hframe).
  by apply standings_frame_order in Hframe.
Qed.

Lemma standings_order_sprint :
  ∃ df x, get_driver_standings sprint_season 2025 1 = Ok df ∧
    head (rows df) = Some x ∧
    x !! "Driver" = Some (Str "XXX") ∧ x !! "ChampPosition" = Some (Num 1%Q).
Proof.
  destruct (returns_true (get_driver_standings sprint_season 2025 1)
              (λ df, bool_decide (((λ x : row, x !! "Driver") <$> head (rows df))
                                  = Some (Some (Str "XXX")))))
    as (df & Hdf & Hhead); [vm_compute; reflexivity|].
  apply bool_decide_eq_true_1 in Hhead.
  destruct (head (rows df)) as [x|] eqn:Hx; [|discriminate].
  exists df, x. split; [exact Hdf|]. split; [exact Hx|].
  split; [by injection Hhead|].
  exact (proj2 (standings_order sprint_season 2025 1 df Hdf) x Hx).
Defined.

Lemma add_sprint_codes s0 (temp : list ErgastRow) :
  NoDup (map driverCode (temp ≫= add_sprint s0)) → NoDup (map driverCode temp).
Proof.
  induction temp as [|t temp IH]; [done|].
  rewrite bind_cons, fmap_app. intros (H1 & Hdisj & H2)%NoDup_app.
  cbn [map]. constructor; [|by apply IH].
  intros Hin. apply list_elem_of_fmap in Hin as (t' & Hcode & Ht').
  destruct (add_sprint s0 t) as [|y ys] eqn:Ey; [by destruct (add_sprint_nonempty s0 t)|].
  destruct (add_sprint s0 t') as [|y' ys'] eqn:Ey'; [by destruct (add_sprint_nonempty s0 t')|].
  assert (y ∈ add_sprint s0 t) as Hy by (rewrite Ey; left).
  assert (y' ∈ add_sprint s0 t') as Hy' by (rewrite Ey'; left).
  apply (Hdisj (driverCode y)).
  - rewrite <- Ey. apply list_elem_of_fmap. by exists y.
  - apply list_elem_of_fmap. exists y'. split.
    + apply elem_of_add_sprint in Hy as [-> _].
      apply elem_of_add_sprint in Hy' as [-> _]. done.
    + apply list_elem_of_bind. by exists t'.
Qed.

(** X5: when every visited round is served and the main-race table of one of
    them lists a driver twice, the pivot of the results refuses the duplicate
    and [get_driver_standings] raises [ValueError], with or without a sprint. *)
Theorem duplicate_driver_refused (e : Ergast) (season round_limit : nat)
    (races : list string) (results : list (list (nat * ErgastRow)))
    (round : nat) (race : ErgastResponse) (temp : list ErgastRow)
    (rest : list (list ErgastRow)) :
  get_race_schedule e season = Ok races →
  mapM (round_points e season) (rounds_upto races round_limit) = Ok results →
  round ∈ rounds_upto races round_limit →
  get_race_results e season round = Ok race →
  content race = temp :: rest →
  ¬ NoDup (map driverCode temp) →
  get_driver_standings e season round_limit = Raise ValueError.
Proof.
  intros Hs Hres Hround Hrace Hcontent Hdup.
  unfold get_driver_standings. rewrite Hs. cbn [mbind result_bind].
  rewrite Hres. cbn [mbind result_bind].
  apply mapM_result_Ok in Hres.
  apply list_elem_of_lookup in Hround as [i Hi].
  destruct (Forall2_lookup_l _ _ _ _ _ Hres Hi) as (entries & Hentries & Hpoints).
  destruct results as [|r0 rs] eqn:Er; [done|]. rewrite <- Er in *. clear Er r0 rs.
  unfold standings_frame, pivot_index.
  case_bool_decide as Hnd; [exfalso|done]. apply Hdup.
  apply list_elem_of_lookup_2, list_elem_of_split in Hentries as (l1 & l2 & ->).
  rewrite join_app in Hnd.
  change (mjoin (entries :: l2)) with (entries ++ mjoin l2) in Hnd.
  rewrite !fmap_app in Hnd.
  apply NoDup_app in Hnd as (_ & _ & Hnd). apply NoDup_app in Hnd as (Hnd & _ & _).
  destruct (round_points_Ok _ _ _ _ Hpoints)
    as (race' & temp' & rest' & resp & sprint & Hrace' & Hcontent' & _ & _ & ->).
  assert (race' = race) as -> by congruence.
  assert (temp' = temp) as -> by congruence.
  rewrite <- list_fmap_compose in Hnd.
  rewrite (list_fmap_compose driverCode (pair round)) in Hnd.
  apply NoDup_fmap_1 in Hnd.
  destruct sprint as [s0|]; [by apply add_sprint_codes in Hnd|done].
Qed.

Lemma duplicate_driver_refused_season :
  ¬ NoDup (map driverCode [scored "XXX" 18; scored "YYY" 25; scored "XXX" 0]) ∧
  get_driver_standings double_entry_season 2025 1 = Raise ValueError.
Proof.
  assert (¬ NoDup (map driverCode [scored "XXX" 18; scored "YYY" 25; scored "XXX" 0]))
    as Hdup.
  { intros H. apply NoDup_cons in H as [H _]. apply H. right; left. }
  split; [exact Hdup|].
  apply (duplicate_driver_refused double_entry_season 2025 1 ["Alpha Grand Prix"]
           [[(1%nat, scored "XXX" 18); (1%nat, scored "YYY" 25); (1%nat, scored "XXX" 0)]]
           1%nat
           {| description_round := [1%nat];
              content := [[scored "XXX" 18; scored "YYY" 25; scored "XXX" 0]] |}
           [scored "XXX" 18; scored "YYY" 25; scored "XXX" 0] []);
    [reflexivity|reflexivity|left|reflexivity|reflexivity|exact Hdup].
Defined.

(** ** Merges on a key held once, sorted tables *)

Lemma select_NoDup on k (r : DataFrame) :
  NoDup (column on r) → (length (select on k (rows r)) ≤ 1)%nat.
Proof.
  unfold column, select. induction (rows r) as [|y ys IH]; [simpl; lia|].
  cbn [map]. intros [Hy Hys]%NoDup_cons. rewrite filter_cons.
  destruct (decide (y !! on = k)) as [Hk|Hk]; [|by apply IH].
  rewrite filter_none; [simpl; lia|].
  intros z Hz Hzk. apply Hy. apply list_elem_of_fmap. exists z. split; [congruence|done].
Qed.

Lemma partner_cases on (r : DataFrame) (x : row) :
  (partner on r x = ∅ ∧ select on (x !! on) (rows r) = []) ∨
  (partner on r x ∈ rows r ∧ partner on r x !! on = x !! on).
Proof.
  unfold partner. destruct (select on (x !! on) (rows r)) as [|y ys] eqn:E; [by left|].
  right. simpl. apply elem_of_select. rewrite E. left.
Qed.

Lemma lookup_union_partner_key on (r : DataFrame) (x : row) :
  (x ∪ partner on r x) !! on = x !! on.
Proof.
  destruct (partner_cases on r x) as [[-> _]|[_ Hk]].
  - by rewrite (right_id ∅ (∪)).
  - by apply lookup_union_key.
Qed.

Lemma merge_left_once on (l r : DataFrame) :
  (∀ x, x ∈ rows l → (length (select on (x !! on) (rows r)) ≤ 1)%nat) →
  rows (merge_left on l r) = map (λ x, x ∪ partner on r x) (rows l).
Proof.
  unfold merge_left, partner. cbn [rows].
  induction (rows l) as [|x xs IH]; intros Hone; [done|].
  rewrite bind_cons, IH by (intros y Hy; apply Hone; by right).
  cbn [map]. specialize (Hone x (list_elem_of_here _ _)).
  destruct (select on (x !! on) (rows r)) as [|y [|y' ys]]; simpl in *; [|done|lia].
  by rewrite (right_id ∅ (∪)).
Qed.

Lemma merge_left_unique on (l r : DataFrame) :
  (∀ k, (length (select on k (rows r)) ≤ 1)%nat) →
  rows (merge_left on l r) = map (λ x, x ∪ partner on r x) (rows l).
Proof. intros Hone. apply merge_left_once. intros x _. apply Hone. Qed.

(** A left merge never loses a row, and gains one where a key is held more
    than once on the right. *)
Lemma length_merge_left on (l r : DataFrame) :
  (length (rows l) ≤ length (rows (merge_left on l r)))%nat ∧
  ((∃ x, x ∈ rows l ∧ (2 ≤ length (select on (x !! on) (rows r)))%nat) →
   (length (rows l) < length (rows (merge_left on l r)))%nat).
Proof.
  unfold merge_left. cbn [rows].
  induction (rows l) as [|x xs [IH1 IH2]]; [split; [done|]; by intros (x & ?%elem_of_nil & _)|].
  rewrite bind_cons, length_app. cbn [length].
  assert (1 ≤ length (match select on (x !! on) (rows r) with
                      | [] => [x]
                      | y :: ys => map (λ y0, x ∪ y0) (y :: ys)
                      end))%nat as Hge
    by (destruct (select on (x !! on) (rows r)); simpl; lia).
  split; [lia|]. intros (x' & Hx' & Hlen).
  apply elem_of_cons in Hx' as [->|Hx'].
  - destruct (select on (x !! on) (rows r)) as [|y [|y' ys]]; simpl in *; lia.
  - assert (length xs < length
              (xs ≫= λ x0, match select on (x0 !! on) (rows r) with
                           | [] => [x0]
                           | y :: ys => map (λ y0, x0 ∪ y0) (y :: ys)
                           end))%nat
      by (apply IH2; by exists x').
    lia.
Qed.

Lemma column_merge_left_unique on (l r : DataFrame) :
  (∀ k, (length (select on k (rows r)) ≤ 1)%nat) →
  column on (merge_left on l r) = column on l.
Proof.
  intros Hone. unfold column. rewrite (merge_left_unique on l r Hone).
  rewrite <- list_fmap_compose. apply list_fmap_ext.
  intros _ x _. apply lookup_union_partner_key.
Qed.

Lemma cell_float_Some (c : option cell) q : cell_float c = Some q ↔ c = Some (Num q).
Proof.
  destruct c as [[p|t]|]; simpl; split; intros H; try done; by injection H as ->.
Qed.

Lemma float_leb_total (a b : float) : Float.leb a b = true ∨ Float.leb b a = true.
Proof. destruct a as [x|], b as [y|]; simpl; auto. q_cases; auto. Qed.

Lemma float_leb_trans (a b c : float) :
  Float.leb a b = true → Float.leb b c = true → Float.leb a c = true.
Proof. destruct a as [x|], b as [y|], c as [z|]; simpl; try done. q_cases. Qed.

Lemma sort_values_Permutation c (df : DataFrame) : rows (sort_values c df) ≡ₚ rows df.
Proof. apply sort_by_Permutation. Qed.

(** In a sorted table a row with a value in the sorting column comes after
    rows with a value that is not larger; rows without a value come last. *)
Lemma sort_values_order c (df : DataFrame) i j (x y : row) q :
  (i < j)%nat →
  rows (sort_values c df) !! i = Some x → rows (sort_values c df) !! j = Some y →
  y !! c = Some (Num q) →
  ∃ p, x !! c = Some (Num p) ∧ (p <= q)%Q.
Proof.
  intros Hij Hx Hy Hq.
  assert (StronglySorted (λ a b : row, Float.leb (cell_float (a !! c)) (cell_float (b !! c)) = true)
            (rows (sort_values c df))) as Hs.
  { apply (sort_by_StronglySorted (λ a b : row, Float.leb (cell_float (a !! c)) (cell_float (b !! c)))).
    - intros a b. apply float_leb_total.
    - intros a b d. apply float_leb_trans. }
  pose proof (StronglySorted_lookup _ _ _ _ _ _ Hs Hij Hx Hy) as Hle.
  cbn beta in Hle. rewrite Hq in Hle. simpl in Hle.
  destruct (cell_float (x !! c)) as [p|] eqn:Hp; [|done].
  exists p. split; [by apply cell_float_Some|]. by apply Qle_bool_iff.
Qed.

(** ** The race table, row by row *)

Lemma drivers_of_NoDup (ls : list Lap) : NoDup (drivers_of ls).
Proof. unfold drivers_of. rewrite sort_by_Permutation. apply NoDup_unique. Qed.

Lemma race_pace_keys quicklaps :
  column "Driver" (race_pace quicklaps) = map (λ d, Some (Str d)) (drivers_of quicklaps).
Proof.
  unfold column, race_pace, mean_laptime. cbn [rows].
  rewrite <- !list_fmap_compose. apply list_fmap_ext.
  intros _ d _. cbn [compose]. by rewrite lookup_mk_row.
Qed.

Lemma race_pace_unique quicklaps k :
  (length (select "Driver" k (rows (race_pace quicklaps))) ≤ 1)%nat.
Proof.
  apply select_NoDup. rewrite race_pace_keys.
  apply NoDup_fmap_2; [|apply drivers_of_NoDup]. by intros d1 d2 [= ->].
Qed.

Lemma race_row_Driver laps quicklaps winner r :
  race_row laps quicklaps winner r !! "Driver" = Some (Str (Abbreviation r)).
Proof. unfold race_row. by rewrite lookup_mk_row. Qed.

Lemma partner_pace_part laps quicklaps winner r :
  pace_part quicklaps (Abbreviation r)
    (partner "Driver" (race_pace quicklaps) (race_row laps quicklaps winner r)).
Proof.
  destruct (partner_cases "Driver" (race_pace quicklaps) (race_row laps quicklaps winner r))
    as [[E1 E2]|[H1 H2]]; rewrite race_row_Driver in *; [by left|by right].
Qed.

(** The race table before it is sorted: one row per result row. *)
Lemma race_frame_list (s : Session) (df : DataFrame) :
  race_frame s = Ok df →
  ∃ winner, winner_time (results s) = Ok winner ∧
    let quicklaps := pick_quicklaps (laps s) in
    df = sort_values "FinishingPosition"
           (drop "Time" (merge_left "Driver"
              {| columns := ["Driver"; "FinishingPosition"; "Status"; "Time"; "DNF_Dummy";
                             "FinishStatus"; "RaceTime"];
                 rows := map (race_row (laps s) quicklaps winner) (results s) |}
              (race_pace quicklaps))) ∧
    rows df ≡ₚ map (λ r, delete "Time"
                      (race_row (laps s) quicklaps winner r
                       ∪ partner "Driver" (race_pace quicklaps)
                           (race_row (laps s) quicklaps winner r)))
                   (results s).
Proof.
  unfold race_frame.
  destruct (winner_time (results s)) as [winner|] eqn:Hw; [|done].
  cbn [mbind result_bind]. intros H. apply Ok_inj in H. subst df.
  exists winner. split; [done|]. split; [done|].
  rewrite sort_values_Permutation. unfold drop. cbn [rows].
  rewrite merge_left_unique by apply race_pace_unique. cbn [rows].
  by rewrite <- !list_fmap_compose.
Qed.

(** X12: the race table has one row per result row, with its driver and
    finishing position: the merge with the pace table neither drops nor
    doubles a driver.  The rows are in the order of the finishing positions,
    and rows without a position come last. *)
Theorem race_one_row_per_result (s : Session) (df : DataFrame) :
  get_race_data (Some s) = Ok df →
  map (λ x : row, (x !! "Driver", x !! "FinishingPosition")) (rows df)
  ≡ₚ map (λ r, (Some (Str (Abbreviation r)), num (Position r))) (results s) ∧
  (∀ i j x y q, (i < j)%nat → rows df !! i = Some x → rows df !! j = Some y →
     y !! "FinishingPosition" = Some (Num q) →
     ∃ p, x !! "FinishingPosition" = Some (Num p) ∧ (p <= q)%Q).
Proof.
  rewrite get_race_data_Some. intros Hdf.
  destruct (race_frame_list s df Hdf) as (winner & _ & Heq & Hperm). split.
  - rewrite Hperm, <- list_fmap_compose.
    rewrite (list_fmap_ext _ (λ r, (Some (Str (Abbreviation r)), num (Position r)))
               (results s)); [done|].
    intros _ r _. cbn [compose].
    rewrite (race_row_lookup_left _ _ _ _ _ _ "Driver" (partner_pace_part _ _ _ _))
      by set_solver.
    rewrite (race_row_lookup_left _ _ _ _ _ _ "FinishingPosition" (partner_pace_part _ _ _ _))
      by set_solver.
    unfold race_row. by rewrite !lookup_mk_row.
  - intros i j x y q Hij Hx Hy Hq. rewrite Heq in Hx, Hy.
    by eapply sort_values_order.
Qed.

Lemma race_one_row_per_result_scenario :
  ∃ df, get_race_data (Some scenario_race) = Ok df ∧
        length (rows df) = 5%nat ∧
        column "Driver" df = [Some (Str "AAA"); Some (Str "BBB"); Some (Str "CCC");
                              Some (Str "EEE"); Some (Str "DDD")].
Proof.
  destruct (returns_true (get_race_data (Some scenario_race))
              (λ df, bool_decide (column "Driver" df
                       = [Some (Str "AAA"); Some (Str "BBB"); Some (Str "CCC");
                          Some (Str "EEE"); Some (Str "DDD")])))
    as (df & Hdf & Hcol); [vm_compute; reflexivity|].
  apply bool_decide_eq_true_1 in Hcol.
  exists df. split; [exact Hdf|]. split; [|exact Hcol].
  pose proof (proj1 (race_one_row_per_result scenario_race df Hdf)) as Hperm.
  apply Permutation_length in Hperm. rewrite !length_map in Hperm. exact Hperm.
Defined.

Lemma compute_racetime_no_winner_time laps quicklaps r :
  compute_racetime laps quicklaps None r = None.
Proof.
  unfold compute_racetime, base_time.
  destruct (Nat.eqb (DNF_Dummy r) 1); [done|].
  by destruct (contains "Lap" (Status r)), (negb _).
Qed.

(** X13: every row of the race table belongs to a result row of its driver;
    the recorded time is not a column of the table; a driver without a
    recorded time has the retirement flag 1 and no race time, a driver with
    one has the flag 0; when the winner has no recorded time no row has a race
    time; and the finish status is Finished, Lapped or DNF. *)
Theorem race_row_flags (s : Session) (df : DataFrame) (x : row) :
  get_race_data (Some s) = Ok df → x ∈ rows df →
  ∃ r, r ∈ results s ∧
    x !! "Driver" = Some (Str (Abbreviation r)) ∧
    x !! "Time" = None ∧
    (Time r = None →
       x !! "DNF_Dummy" = Some (Num 1%Q) ∧ x !! "RaceTime" = None) ∧
    (is_Some (Time r) → x !! "DNF_Dummy" = Some (Num 0%Q)) ∧
    (winner_time (results s) = Ok None → x !! "RaceTime" = None) ∧
    (∃ status, x !! "FinishStatus" = Some (Str status) ∧
               status ∈ ["Finished"; "Lapped"; "DNF"]).
Proof.
  rewrite get_race_data_Some. intros Hdf Hx.
  destruct (race_frame_rows s df Hdf) as (winner & Hw & Hrows).
  destruct (proj1 (Hrows x) Hx) as (r & p & Hr & Hp & Heq). rewrite Heq. clear Heq.
  exists r. split; [done|].
  rewrite (race_row_lookup_left _ _ _ _ _ _ "Driver" Hp) by set_solver.
  rewrite (race_row_lookup_left _ _ _ _ _ _ "DNF_Dummy" Hp) by set_solver.
  rewrite (race_row_lookup_left _ _ _ _ _ _ "RaceTime" Hp) by set_solver.
  rewrite (race_row_lookup_left _ _ _ _ _ _ "FinishStatus" Hp) by set_solver.
  rewrite lookup_delete_eq. unfold race_row. rewrite !lookup_mk_row.
  cbn [lookup_cells fst snd]. rewrite !decide_True by done.
  repeat (rewrite decide_False by done). rewrite ?decide_True by done.
  split; [done|]. split; [done|].
  split; [|split; [|split]].
  - intros Ht. unfold compute_racetime, DNF_Dummy. by rewrite Ht.
  - intros [t Ht]. unfold DNF_Dummy. by rewrite Ht.
  - intros Hnone. assert (winner = None) as -> by congruence.
    by rewrite compute_racetime_no_winner_time.
  - exists (simplify_status (Status r)). split; [done|].
    unfold simplify_status.
    destruct (contains "Finished" (Status r)); [set_solver|].
    destruct (contains "Lap" (Status r)); set_solver.
Qed.

Lemma race_row_flags_retired :
  ∃ df x, get_race_data (Some scenario_race) = Ok df ∧ x ∈ rows df ∧
    x !! "Driver" = Some (Str "DDD") ∧
    x !! "DNF_Dummy" = Some (Num 1%Q) ∧ x !! "RaceTime" = None ∧
    x !! "FinishStatus" = Some (Str "DNF").
Proof.
  destruct (returns_true (get_race_data (Some scenario_race))
              (λ df, bool_decide (((λ x : row, (x !! "Driver", x !! "FinishStatus"))
                                   <$> last (rows df))
                                  = Some (Some (Str "DDD"), Some (Str "DNF")))))
    as (df & Hdf & Hlast); [vm_compute; reflexivity|].
  apply bool_decide_eq_true_1 in Hlast.
  destruct (last (rows df)) as [x|] eqn:Hx; [|discriminate].
  assert (x ∈ rows df) as Hin.
  { apply last_Some in Hx as [l' ->]. apply elem_of_app. right. left. }
  injection Hlast as HD HF.
  exists df, x. split; [exact Hdf|]. split; [exact Hin|]. split; [exact HD|].
  destruct (race_row_flags scenario_race df x Hdf Hin)
    as (r & Hr & Hdriver & _ & Hdnf & _ & _ & _).
  rewrite HD in Hdriver.
  assert (Time r = None) as Ht.
  { repeat (apply elem_of_cons in Hr as [->|Hr]; [discriminate || reflexivity|]).
    by apply elem_of_nil in Hr. }
  destruct (Hdnf Ht) as [H1 H2]. split; [exact H1|]. split; [exact H2|exact HF].
Defined.

(** ** The qualifying table, row by row *)

Lemma min_None (xs : list float) : Float.min xs = None ↔ ∀ x, Some x ∉ xs.
Proof.
  split.
  - intros Hm x Hx. destruct (min_is_Some xs x Hx) as [m Hm']. congruence.
  - intros Hnone. destruct (Float.min xs) as [m|] eqn:Hm; [|done].
    destruct (Hnone m). by apply min_elem_of.
Qed.

(** X10: the qualifying table has one row per result row, with its driver,
    its position and, as qualifying lap, the time of Q3, else of Q2, else of
    Q1; the rows are in the order of the positions, and rows without a
    position come last. *)
Theorem quali_table_rows (s : Session) (df : DataFrame) :
  get_quali_data (Some s) = Ok df →
  map (λ x : row, (x !! "Driver", x !! "Position_Quali", x !! "QualiLap")) (rows df)
  ≡ₚ map (λ r, (Some (Str (Abbreviation r)), num (Position r),
                num (match Q3 r, Q2 r with
                     | Some t, _ => Some t
                     | None, Some t => Some t
                     | None, None => Q1 r
                     end)))
         (results s) ∧
  (∀ i j x y q, (i < j)%nat → rows df !! i = Some x → rows df !! j = Some y →
     y !! "Position_Quali" = Some (Num q) →
     ∃ p, x !! "Position_Quali" = Some (Num p) ∧ (p <= q)%Q).
Proof.
  intros Hdf. cbn in Hdf. apply Ok_inj in Hdf. subst df. split.
  - unfold quali_frame. rewrite sort_values_Permutation. cbn [rows].
    rewrite <- list_fmap_compose.
    rewrite (list_fmap_ext _ (λ r, (Some (Str (Abbreviation r)), num (Position r),
                num (match Q3 r, Q2 r with
                     | Some t, _ => Some t
                     | None, Some t => Some t
                     | None, None => Q1 r
                     end))) (results s)); [done|].
    intros _ r _. cbn [compose]. unfold quali_row. rewrite !lookup_mk_row. simpl.
    unfold QualiLap. by destruct (Q3 r), (Q2 r).
  - intros i j x y q Hij Hx Hy Hq. by eapply sort_values_order.
Qed.

Lemma quali_table_rows_damp :
  ∃ df, get_quali_data (Some damp_qualifying) = Ok df ∧ length (rows df) = 2%nat.
Proof.
  exists (quali_frame damp_qualifying). split; [reflexivity|].
  pose proof (proj1 (quali_table_rows damp_qualifying _ eq_refl)) as Hperm.
  apply Permutation_length in Hperm. rewrite !length_map in Hperm. exact Hperm.
Defined.



(** X11: a row of the qualifying table has a gap to pole exactly when it has
    a qualifying lap and some driver has a Q3 time; in a session without any
    Q3 time no row has a gap. *)
Theorem gap_to_pole_defined (s : Session) (df : DataFrame) (x : row) :
  get_quali_data (Some s) = Ok df → x ∈ rows df →
  (is_Some (x !! "GapToPole") ↔
   is_Some (x !! "QualiLap") ∧ ∃ r t, r ∈ results s ∧ Q3 r = Some t) ∧
  ((∀ r, r ∈ results s → Q3 r = None) → x !! "GapToPole" = None).
Proof.
  intros Hdf Hx. cbn in Hdf. apply Ok_inj in Hdf. subst df.
  apply elem_of_quali_frame in Hx as (r & Hr & ->).
  unfold quali_row. rewrite !lookup_mk_row. simpl.
  unfold GapToPole, pole_time.
  assert (is_Some (Float.min (map Q3 (results s))) ↔ ∃ r t, r ∈ results s ∧ Q3 r = Some t)
    as Hpole.
  { split.
    - intros [m Hm]. apply min_elem_of, list_elem_of_fmap in Hm as (r' & Hq & Hr').
      by exists r', m.
    - intros (r' & t & Hr' & Hq). apply (min_is_Some _ t).
      rewrite <- Hq. apply list_elem_of_fmap. by exists r'. }
  split.
  - rewrite <- Hpole.
    destruct (QualiLap r) as [lap|], (Float.min (map Q3 (results s))) as [m|]; simpl;
      split; intros H; try done; try (by destruct H as [[] []]); eauto.
  - intros Hnone.
    assert (Float.min (map Q3 (results s)) = None) as ->.
    { apply min_None. intros t Ht. apply list_elem_of_fmap in Ht as (r' & Hq & Hr').
      rewrite (Hnone r' Hr') in Hq. done. }
    by destruct (QualiLap r).
Qed.

Lemma gap_to_pole_defined_damp :
  ∃ df x, get_quali_data (Some damp_qualifying) = Ok df ∧ x ∈ rows df ∧
    x !! "Driver" = Some (Str "BBB") ∧ is_Some (x !! "GapToPole").
Proof.
  assert (quali_row (results damp_qualifying) (timed "BBB" 2 (Some (179 # 2)) None None)
          ∈ rows (quali_frame damp_qualifying)) as Hin.
  { apply elem_of_quali_frame. eexists. split; [|reflexivity].
    apply list_elem_of_further, list_elem_of_here. }
  eexists _, _. split; [reflexivity|]. split; [exact Hin|]. split; [reflexivity|].
  apply (proj1 (gap_to_pole_defined damp_qualifying _ _ eq_refl Hin)).
  split; [vm_compute; eauto|].
  exists (timed "AAA" 1 (Some 91%Q) (Some (181 # 2)) (Some 90%Q)), 90%Q.
  split; [left|reflexivity].
Defined.

(** ** The practice table, row by row *)

Lemma laps_of_nil d (ls : list Lap) : d ∉ drivers_of ls → laps_of d ls = [].
Proof.
  intros Hd. apply filter_none. intros l Hl Hdl. apply Hd.
  apply elem_of_drivers_of. by exists l.
Qed.

Lemma mean_laptime_unique (quicklaps : list Lap) k :
  let pace := {| columns := ["Driver"; "LapTime"];
                 rows := map (λ p : string * float,
                                mk_row [("Driver", Some (Str p.1)); ("LapTime", num p.2)])
                             (mean_laptime quicklaps) |} in
  (length (select "Driver" k (rows pace)) ≤ 1)%nat.
Proof.
  intros pace. apply select_NoDup. unfold column, pace, mean_laptime. cbn [rows].
  rewrite <- !list_fmap_compose.
  rewrite (list_fmap_ext _ (λ d, Some (Str d)) (drivers_of quicklaps))
    by (intros; cbn [compose]; by rewrite lookup_mk_row).
  apply NoDup_fmap_2; [|apply drivers_of_NoDup]. by intros d1 d2 [= ->].
Qed.

(** The mean lap time a row is merged with: that of its driver. *)
Lemma partner_mean_laptime (quicklaps : list Lap) (x : row) d :
  let pace := {| columns := ["Driver"; "LapTime"];
                 rows := map (λ p : string * float,
                                mk_row [("Driver", Some (Str p.1)); ("LapTime", num p.2)])
                             (mean_laptime quicklaps) |} in
  x !! "Driver" = Some (Str d) →
  partner "Driver" pace x !! "LapTime"
  = num (Float.mean (map LapTime (laps_of d quicklaps))) ∧
  (∀ c, c ≠ "LapTime" → is_Some (partner "Driver" pace x !! c) → c = "Driver").
Proof.
  intros pace Hx.
  assert (∀ y, y ∈ rows pace ↔ ∃ d', d' ∈ drivers_of quicklaps ∧
            y = mk_row [("Driver", Some (Str d'));
                        ("LapTime", num (Float.mean (map LapTime (laps_of d' quicklaps))))])
    as Hrows.
  { intros y. unfold pace, mean_laptime. cbn [rows]. rewrite <- list_fmap_compose.
    rewrite list_elem_of_fmap. split; intros (d' & ? & ?); by exists d'. }
  split.
  - destruct (partner_cases "Driver" pace x) as [[-> Hnil]|[Hin Hk]].
    + rewrite lookup_empty, laps_of_nil; [done|].
      intros Hd. rewrite select_nil in Hnil. eapply Hnil.
      * apply Hrows. by exists d.
      * by rewrite lookup_mk_row, Hx.
    + apply Hrows in Hin as (d' & Hd' & Heq). rewrite Heq in Hk |- *.
      rewrite lookup_mk_row in Hk. rewrite Hx in Hk. simpl in Hk. injection Hk as ->.
      by rewrite lookup_mk_row.
  - intros c Hc. destruct (partner_cases "Driver" pace x) as [[-> Hnil]|[Hin Hk]].
    + rewrite lookup_empty. by intros [? ?].
    + apply Hrows in Hin as (d' & Hd' & ->). rewrite lookup_mk_row. simpl.
      destruct (decide ("Driver" = c)) as [<-|]; [done|].
      rewrite decide_False by done. by intros [? ?].
Qed.

(** The rows of the practice table: one per driver with a timed lap, in the
    order of the gaps. *)
Lemma fp_frame_list fp (s : Session) (df : DataFrame) :
  fp_frame fp s = Ok df →
  let tl := timed_laps (laps s) in
  let gapcol := "GapToFastest_" +:+ fp in
  rows df = sort_by (λ x y : row, Float.leb (cell_float (x !! gapcol)) (cell_float (y !! gapcol)))
                    (map (practice_row fp tl) (fastest_laps tl)).
Proof.
  intros H tl gapcol. unfold fp_frame in H. cbv zeta in H. fold tl gapcol in H.
  set (poscol := "Position_" +:+ fp) in *.
  set (fl := fastest_laps tl) in *. set (m := fp_fastest_time tl) in *.
  set (fp0 := {| columns := ["Driver"]; rows := map _ fl |}) in H.
  set (res := {| columns := ["Driver"]; rows := map _ (results s) |}) in H.
  set (pace := {| columns := ["Driver"; "LapTime"]; rows := _ |}) in H.
  destruct (assign_values _ _ (merge_left "Driver" fp0 res)) as [fp2|] eqn:E2; [|done].
  cbn [mbind result_bind] in H.
  destruct (mapM id _) as [qs|] eqn:Eqs; [|done].
  cbn [mbind result_bind] in H.
  destruct (assign_values _ _ fp2) as [fp3|] eqn:E3; [|done].
  cbn [mbind result_bind] in H. apply Ok_inj in H. subst df.
  apply assign_values_Ok in E2 as [Hlen2 Hrows2].
  apply assign_values_Ok in E3 as [_ Hrows3].
  rewrite !length_map in Hlen2.
  assert (rows (merge_left "Driver" fp0 res) = rows fp0) as Hrows.
  { apply merge_left_keys_only.
    - intros x Hx. apply list_elem_of_fmap in Hx as (p & -> & _). eauto.
    - intros x Hx. apply list_elem_of_fmap in Hx as (p & -> & _). eauto.
    - simpl. by rewrite length_map. }
  rewrite Hrows in Hrows2. unfold fp0 in Hrows2. cbn [rows] in Hrows2.
  rewrite <- list_fmap_compose in Hrows2.
  rewrite zip_with_fmap_diag in Hrows2.
  apply (mapM_id_Some _ _ 0%Q) in Eqs as [Hqs Hdef].
  change (qs = fp_gaps tl) in Hqs.
  set (sorted := sort_by (rank_order true) qs) in *.
  set (rank (p : string * float) := Some (Num (Float.of_nat
                   (first_position (default 0%Q (Float.sub p.2 m)) sorted)))).
  assert (rows fp3 =
          map (λ p, set_cell poscol (rank p)
                      (set_cell gapcol (num (Float.sub p.2 m)) {[ "Driver" := Str p.1 ]})) fl)
    as Hfp3.
  { rewrite Hrows3, Hrows2. unfold rank_min. fold sorted.
    rewrite Hdef at 1. rewrite <- !list_fmap_compose.
    by rewrite zip_with_fmap_diag. }
  clear Hrows3 Hrows2 Hrows Hlen2.
  assert (∀ p, p ∈ fl →
            rank p = Some (Num (Float.of_nat
              (S (count_if (λ z, ahead true z (default 0%Q (Float.sub p.2 m))) (fp_gaps tl))))))
    as Hrank.
  { intros p Hp. unfold rank, sorted. rewrite first_position_count; [by rewrite Hqs|].
    rewrite Hdef. apply list_elem_of_fmap. exists (Float.sub p.2 m).
    split; [done|]. apply list_elem_of_fmap. by exists p. }
  cbn [rows sort_values rename]. f_equal.
  rewrite (merge_left_unique "Driver" fp3 pace)
    by (intros k; apply mean_laptime_unique).
  rewrite Hfp3, <- !list_fmap_compose.
  apply list_fmap_ext. intros i p Hp%list_elem_of_lookup_2. cbn [compose].
  set (x3 := set_cell poscol (rank p) _).
  assert (x3 !! "Driver" = Some (Str p.1)) as HD.
  { unfold x3. rewrite !lookup_set_cell_ne by done. apply lookup_singleton_eq. }
  destruct (partner_mean_laptime (pick_quicklaps tl) x3 p.1 HD) as (Hlap & Hother).
  fold pace in Hlap, Hother.
  assert (x3 !! "LapTime" = None) as Hnolap.
  { unfold x3. rewrite !lookup_set_cell_ne by done. by apply lookup_singleton_None. }
  apply map_eq. intros c. unfold practice_row. rewrite lookup_mk_row.
  cbn [lookup_cells fst snd]. fold gapcol poscol m.
  destruct (decide ("RacePace_" +:+ fp = c)) as [<-|Hrp].
  { rewrite lookup_set_cell, decide_True by done.
    rewrite !decide_False by done.
    rewrite lookup_union, Hnolap, Hlap.
    destruct (num (Float.mean _)); reflexivity. }
  rewrite lookup_set_cell_ne by done.
  destruct (decide ("LapTime" = c)) as [<-|Hlt].
  { rewrite lookup_delete_eq. by rewrite !decide_False by done. }
  rewrite lookup_delete_ne by done. rewrite lookup_union.
  assert (x3 !! c = None → partner "Driver" pace x3 !! c = None) as Hp3.
  { intros Hnone. destruct (partner "Driver" pace x3 !! c) as [v|] eqn:Ev; [|done].
    rewrite (Hother c) in Hnone by (done || eauto). congruence. }
  assert (x3 !! c ∪ partner "Driver" pace x3 !! c = x3 !! c) as ->.
  { destruct (x3 !! c) as [v|] eqn:Ev.
    - destruct (partner "Driver" pace x3 !! c); reflexivity.
    - by rewrite Hp3. }
  unfold x3. rewrite !lookup_set_cell. rewrite (Hrank p Hp).
  destruct (decide ("Driver" = c)) as [<-|HnD].
  { rewrite !decide_False by done. apply lookup_singleton_eq. }
  destruct (decide (gapcol = c)) as [<-|HnG].
  { by rewrite decide_False by done. }
  destruct (decide (poscol = c)) as [<-|HnP]; [done|].
  by apply lookup_singleton_None.
Qed.

Lemma practice_row_lookup fp laps (p : string * float) :
  let x := practice_row fp laps p in
  let gap := Float.sub p.2 (fp_fastest_time laps) in
  x !! "Driver" = Some (Str p.1) ∧
  x !! ("GapToFastest_" +:+ fp) = num gap ∧
  x !! ("Position_" +:+ fp)
  = Some (Num (Float.of_nat
      (S (count_if (λ z, ahead true z (default 0%Q gap)) (fp_gaps laps))))) ∧
  x !! ("RacePace_" +:+ fp)
  = num (Float.mean (map LapTime (laps_of p.1 (pick_quicklaps laps)))) ∧
  (∀ c, is_Some (x !! c) →
        c ∈ ["Driver"; "GapToFastest_" +:+ fp; "Position_" +:+ fp; "RacePace_" +:+ fp]).
Proof.
  intros x gap. unfold x, practice_row. fold gap. rewrite !lookup_mk_row.
  cbn [lookup_cells fst snd].
  split; [by rewrite decide_True by done|].
  split; [by rewrite decide_False, decide_True by done|].
  split; [by rewrite !decide_False, decide_True by done|].
  split; [by rewrite !decide_False, decide_True by done|].
  intros c. rewrite lookup_mk_row. cbn [lookup_cells fst snd].
  repeat (case_decide; [subst c; intros _; set_solver|]).
  by intros [? ?].
Qed.

Lemma fastest_laps_gap (ls : list Lap) p :
  p ∈ fastest_laps (timed_laps ls) →
  ∃ t m, p.2 = Some t ∧ fp_fastest_time (timed_laps ls) = Some m ∧
         Float.sub p.2 (fp_fastest_time (timed_laps ls)) = Some (Qminus' t m) ∧
         (0 <= Qminus' t m)%Q ∧ Qminus' t m ∈ fp_gaps (timed_laps ls).
Proof.
  intros Hp. destruct (fastest_laps_timed _ _ Hp) as [t Ht].
  destruct (fp_fastest_time_is_Some _ _ Hp) as [m Hm].
  exists t, m. split; [done|]. split; [done|].
  assert (Float.sub p.2 (fp_fastest_time (timed_laps ls)) = Some (Qminus' t m)) as Hg
    by (by rewrite Ht, Hm).
  split; [done|]. split.
  - apply (gap_nonneg (map snd (fastest_laps (timed_laps ls))) p.2); [|done].
    apply list_elem_of_fmap. by exists p.
  - unfold fp_gaps. apply elem_of_dropna. rewrite <- Hg.
    apply list_elem_of_fmap. by exists p.
Qed.

Lemma fp_gaps_nonneg (ls : list Lap) g : g ∈ fp_gaps (timed_laps ls) → (0 <= g)%Q.
Proof.
  unfold fp_gaps. intros Hg. apply elem_of_dropna, list_elem_of_fmap in Hg as (p & Hg & Hp).
  destruct (fastest_laps_gap _ _ Hp) as (t & m & _ & _ & Hsub & Hnn & _).
  rewrite Hsub in Hg. by injection Hg as ->.
Qed.

Lemma count_if_mono {A} (f g : A → bool) l :
  (∀ x, x ∈ l → f x = true → g x = true) → (count_if f l ≤ count_if g l)%nat.
Proof.
  induction l as [|x l IH]; intros H; [done|]. simpl.
  assert (count_if f l ≤ count_if g l)%nat by (apply IH; intros y Hy; apply H; by right).
  destruct (f x) eqn:E; [rewrite (H x) by (done || left)|destruct (g x)]; lia.
Qed.

(** X8: the practice table is in the order of the gaps: down the table
    neither the gap nor the position decreases, every row has both, and the
    first row has gap 0 and position 1. *)
Theorem practice_table_order (s : Session) (fpsession : string) (df : DataFrame) :
  get_fp_data (Some s) fpsession = Ok df →
  let gapcol := "GapToFastest_" +:+ fpsession in
  let poscol := "Position_" +:+ fpsession in
  (∀ i j x y, (i < j)%nat → rows df !! i = Some x → rows df !! j = Some y →
     ∃ gx gy px py,
       x !! gapcol = Some (Num gx) ∧ y !! gapcol = Some (Num gy) ∧ (gx <= gy)%Q ∧
       x !! poscol = Some (Num (Float.of_nat px)) ∧
       y !! poscol = Some (Num (Float.of_nat py)) ∧ (px ≤ py)%nat) ∧
  (∀ x, head (rows df) = Some x →
     x !! gapcol = Some (Num 0%Q) ∧ x !! poscol = Some (Num 1%Q)).
Proof.
  intros Hdf gapcol poscol. change (fp_frame fpsession s = Ok df) in Hdf.
  pose proof (fp_frame_list _ _ _ Hdf) as Hrows. cbv zeta in Hrows. fold gapcol in Hrows.
  set (tl := timed_laps (laps s)) in *.
  set (table := {| columns := columns df;
                   rows := map (practice_row fpsession tl) (fastest_laps tl) |}).
  change (rows df = rows (sort_values gapcol table)) in Hrows.
  assert (∀ x, x ∈ rows df →
            ∃ g, (0 <= g)%Q ∧ g ∈ fp_gaps tl ∧ Qred g = g ∧
                 x !! gapcol = Some (Num g) ∧
                 x !! poscol = Some (Num (Float.of_nat
                   (S (count_if (λ z, ahead true z g) (fp_gaps tl)))))) as Hrow.
  { intros x Hx. rewrite Hrows in Hx. apply elem_of_sort_values in Hx.
    cbn [rows table] in Hx. apply list_elem_of_fmap in Hx as (p & -> & Hp).
    destruct (fastest_laps_gap _ _ Hp) as (t & m & _ & _ & Hsub & Hnn & Hin).
    destruct (practice_row_lookup fpsession tl p) as (_ & HG & HP & _).
    fold tl in Hsub. rewrite Hsub in HG, HP.
    exists (Qminus' t m). split; [done|]. split; [done|].
    split; [unfold Qminus'; apply Qred_complete, Qred_correct|]. done. }
  split.
  - intros i j x y Hij Hx Hy.
    destruct (Hrow x) as (gx & _ & _ & _ & HGx & HPx); [by eapply list_elem_of_lookup_2|].
    destruct (Hrow y) as (gy & _ & _ & _ & HGy & HPy); [by eapply list_elem_of_lookup_2|].
    rewrite Hrows in Hx, Hy.
    destruct (sort_values_order gapcol table i j x y gy Hij Hx Hy HGy) as (gx' & HGx' & Hle).
    assert (gx' = gx) as -> by congruence.
    eexists gx, gy, _, _. do 3 (split; [done|]). do 2 (split; [done|]).
    apply le_n_S, count_if_mono. intros z _. q_cases.
  - intros x Hx.
    assert (x ∈ rows df) as Hin by (destruct (rows df); [done|]; injection Hx as ->; left).
    destruct (Hrow x Hin) as (g & Hnn & Hg & Hred & HG & HP).
    assert (∃ y, y ∈ rows df ∧ y !! gapcol = Some (Num 0%Q)) as (y & Hy & HGy).
    { apply elem_of_dropna, list_elem_of_fmap in Hg as (p0 & _ & Hp0).
      destruct (fp_fastest_time_is_Some _ _ Hp0) as [m Hm]. fold tl in Hm.
      pose proof (min_elem_of _ _ Hm) as Hmin.
      apply list_elem_of_fmap in Hmin as (p & Hpm & Hp).
      exists (practice_row fpsession tl p). split.
      - rewrite Hrows. apply elem_of_sort_values. cbn [rows table].
        apply list_elem_of_fmap. by exists p.
      - destruct (practice_row_lookup fpsession tl p) as (_ & HGp & _).
        unfold gapcol. rewrite HGp, Hm, <- Hpm. by rewrite (gap_zero m m). }
    assert (g = 0%Q) as ->.
    { assert (g <= 0)%Q as Hle.
      { apply list_elem_of_lookup in Hy as [j Hj]. destruct j as [|j].
        - rewrite head_lookup in Hx. assert (y = x) as -> by congruence.
          rewrite HG in HGy. injection HGy as ->. lra.
        - rewrite head_lookup in Hx. rewrite Hrows in Hx, Hj.
          destruct (sort_values_order gapcol table 0 (S j) x y 0%Q) as (g' & HG' & Hle);
            [lia|done|done|done|].
          assert (g' = g) as -> by congruence. done. }
      rewrite <- Hred. apply Qred_zero. lra. }
    split; [done|]. rewrite HP, count_if_none; [done|].
    intros z Hz. apply fp_gaps_nonneg in Hz. q_cases.
Qed.

Lemma practice_table_order_scenario :
  ∃ df x, get_fp_data (Some scenario_practice) "FP1" = Ok df ∧
    head (rows df) = Some x ∧
    x !! "GapToFastest_FP1" = Some (Num 0%Q) ∧ x !! "Position_FP1" = Some (Num 1%Q).
Proof.
  destruct (returns_true (get_fp_data (Some scenario_practice) "FP1")
              (λ df, bool_decide (is_Some (head (rows df)))))
    as (df & Hdf & Hhead); [vm_compute; reflexivity|].
  apply bool_decide_eq_true_1 in Hhead. destruct Hhead as [x Hx].
  exists df, x. split; [exact Hdf|]. split; [exact Hx|].
  exact (proj2 (practice_table_order scenario_practice "FP1" df Hdf) x Hx).
Defined.

(** X7: the practice table has one row per driver with a timed lap: the
    driver column has no duplicate, and a driver is in it exactly when the
    session has a lap of the driver with a lap time. *)
Theorem practice_one_row_per_driver (s : Session) (fpsession : string) (df : DataFrame) :
  get_fp_data (Some s) fpsession = Ok df →
  NoDup (column "Driver" df) ∧
  length (rows df) = length (drivers_of (timed_laps (laps s))) ∧
  (∀ d, Some (Str d) ∈ column "Driver" df ↔
        ∃ l, l ∈ laps s ∧ Driver l = d ∧ is_Some (LapTime l)).
Proof.
  intros Hdf. change (fp_frame fpsession s = Ok df) in Hdf.
  pose proof (fp_frame_list _ _ _ Hdf) as Hrows. cbv zeta in Hrows.
  set (tl := timed_laps (laps s)) in *.
  assert (column "Driver" df ≡ₚ map (λ d, Some (Str d)) (drivers_of tl)) as Hperm.
  { unfold column. rewrite Hrows, sort_by_Permutation. unfold fastest_laps.
    rewrite <- !list_fmap_compose.
    rewrite (list_fmap_ext _ (λ d, Some (Str d)) (drivers_of tl)); [done|].
    intros _ d _. cbn [compose].
    by destruct (practice_row_lookup fpsession tl
                   (d, Float.min (map LapTime (laps_of d tl)))) as (-> & _). }
  split; [|split].
  - rewrite Hperm. apply NoDup_fmap_2; [|apply drivers_of_NoDup]. by intros d1 d2 [= ->].
  - apply Permutation_length in Hperm. unfold column in Hperm.
    by rewrite !length_map in Hperm.
  - intros d. rewrite Hperm, list_elem_of_fmap. split.
    + intros (d' & [= <-] & Hd). apply elem_of_drivers_of in Hd as (l & Hl & Hdl).
      apply list_elem_of_filter in Hl as [Ht Hl].
      exists l. split; [done|]. split; [done|]. by destruct (LapTime l).
    + intros (l & Hl & Hdl & [t Ht]). exists d. split; [done|].
      apply elem_of_drivers_of. exists l. split; [|done].
      apply list_elem_of_filter. split; [by rewrite Ht|done].
Qed.

Lemma practice_one_row_per_driver_scenario :
  ∃ df, get_fp_data (Some scenario_practice) "FP1" = Ok df ∧
        NoDup (column "Driver" df) ∧ length (rows df) = 3%nat.
Proof.
  destruct (returns_is_Ok (get_fp_data (Some scenario_practice) "FP1"))
    as [df Hdf]; [vm_compute; reflexivity|].
  exists df. split; [exact Hdf|].
  destruct (practice_one_row_per_driver scenario_practice "FP1" df Hdf) as (Hnd & Hlen & _).
  split; [exact Hnd|]. rewrite Hlen. vm_compute. reflexivity.
Defined.

Lemma mean_is_Some (xs : list float) : (∃ x, Some x ∈ xs) → is_Some (Float.mean xs).
Proof.
  intros [x Hx]. unfold Float.mean. apply elem_of_dropna in Hx.
  destruct (Float.dropna xs); [by apply elem_of_nil in Hx|eauto].
Qed.

(** X9: the race pace of a row of the practice table is the mean lap time of
    the laps of its driver that are quick and have a lap time; it is present
    exactly when the driver has such a lap. *)
Theorem practice_race_pace (s : Session) (fpsession : string) (df : DataFrame) (x : row) :
  get_fp_data (Some s) fpsession = Ok df → x ∈ rows df →
  ∃ d, x !! "Driver" = Some (Str d) ∧
    let quick := filter (λ l, Driver l = d ∧ IsQuick l = true ∧ LapTime l ≠ None) (laps s) in
    x !! ("RacePace_" +:+ fpsession) = num (Float.mean (map LapTime quick)) ∧
    (is_Some (x !! ("RacePace_" +:+ fpsession)) ↔ quick ≠ []).
Proof.
  intros Hdf Hx. change (fp_frame fpsession s = Ok df) in Hdf.
  pose proof (fp_frame_list _ _ _ Hdf) as Hrows. cbv zeta in Hrows.
  rewrite Hrows in Hx. apply elem_of_sort_by, list_elem_of_fmap in Hx as (p & Heq & Hp).
  rewrite Heq. clear Heq.
  destruct (practice_row_lookup fpsession (timed_laps (laps s)) p) as (HD & _ & _ & HR & _).
  exists p.1. split; [done|]. intros quick.
  assert (laps_of p.1 (pick_quicklaps (timed_laps (laps s))) = quick) as Hquick.
  { unfold laps_of, pick_quicklaps, timed_laps, quick.
    rewrite !list_filter_filter. apply list_filter_iff. tauto. }
  rewrite Hquick in HR. split; [done|]. rewrite HR. split.
  - intros [v Hv] E. by rewrite E in Hv.
  - intros Hne. destruct quick as [|l ls] eqn:E; [done|].
    assert (l ∈ quick) as Hl by (rewrite E; left).
    apply list_elem_of_filter in Hl as [(_ & _ & Ht) _].
    destruct (LapTime l) as [t|] eqn:Et; [|done].
    destruct (mean_is_Some (map LapTime (l :: ls))) as [m Hm].
    + exists t. rewrite <- Et. apply list_elem_of_fmap. exists l. split; [done|left].
    + rewrite Hm. simpl. eauto.
Qed.

Lemma practice_race_pace_scenario :
  ∃ df x, get_fp_data (Some scenario_practice) "FP1" = Ok df ∧
    head (rows df) = Some x ∧ is_Some (x !! "RacePace_FP1").
Proof.
  destruct (returns_true (get_fp_data (Some scenario_practice) "FP1")
              (λ df, bool_decide (((λ x : row, x !! "Driver") <$> head (rows df))
                                  = Some (Some (Str "AAA")))))
    as (df & Hdf & Hhead); [vm_compute; reflexivity|].
  apply bool_decide_eq_true_1 in Hhead.
  destruct (head (rows df)) as [x|] eqn:Hx; [|discriminate].
  injection Hhead as HD.
  assert (x ∈ rows df) as Hin.
  { destruct (rows df); [discriminate|]. injection Hx as ->. left. }
  exists df, x. split; [exact Hdf|]. split; [exact Hx|].
  destruct (practice_race_pace scenario_practice "FP1" df x Hdf Hin) as (d & HD' & _ & Hdef).
  rewrite HD in HD'. injection HD' as <-.
  apply Hdef. vm_compute. discriminate.
Defined.

Lemma select_results_driver (rs : list ResultRow) d :
  select "Driver" (Some (Str d)) (map (λ r, {[ "Driver" := Str (Abbreviation r) ]}) rs)
  = map (λ r, {[ "Driver" := Str (Abbreviation r) ]}) (filter (λ r, Abbreviation r = d) rs).
Proof.
  unfold select. induction rs as [|r rs IH]; [done|].
  cbn [map]. rewrite !filter_cons, lookup_singleton_eq, IH.
  destruct (decide (Abbreviation r = d)) as [Heq|Hne].
  - rewrite decide_True by (by rewrite Heq). done.
  - rewrite decide_False; [done|]. intros [= ?]. done.
Qed.

(** X6: for a session with a timed lap, the practice table is returned when
    no driver with a timed lap is listed more than once in the results of the
    session; when one is, the left merge with the results doubles the row of
    the driver and the assignment of the gaps, one per driver, raises
    [ValueError]. *)
Theorem practice_table_returned (s : Session) (fpsession : string) :
  let drivers := drivers_of (timed_laps (laps s)) in
  let entries d := length (filter (λ r, Abbreviation r = d) (results s)) in
  (drivers ≠ [] → (∀ d, d ∈ drivers → (entries d ≤ 1)%nat) →
   is_Ok (get_fp_data (Some s) fpsession)) ∧
  ((∃ d, d ∈ drivers ∧ (2 ≤ entries d)%nat) →
   get_fp_data (Some s) fpsession = Raise ValueError).
Proof.
  intros drivers entries. change (get_fp_data (Some s) fpsession) with (fp_frame fpsession s).
  unfold fp_frame. cbv zeta.
  set (tl := timed_laps (laps s)) in *.
  set (gapcol := "GapToFastest_" +:+ fpsession).
  set (poscol := "Position_" +:+ fpsession).
  set (fl := fastest_laps tl). set (m := fp_fastest_time tl).
  set (fp0 := {| columns := ["Driver"]; rows := map _ fl |}).
  set (res := {| columns := ["Driver"]; rows := map _ (results s) |}).
  set (pace := {| columns := ["Driver"; "LapTime"]; rows := _ |}).
  assert (∀ x, x ∈ rows fp0 →
            ∃ d, d ∈ drivers ∧ x !! "Driver" = Some (Str d) ∧
                 length (select "Driver" (x !! "Driver") (rows res)) = entries d) as Hsel.
  { intros x Hx. unfold fp0 in Hx. cbn [rows] in Hx.
    apply list_elem_of_fmap in Hx as (p & -> & Hp).
    apply list_elem_of_fmap in Hp as (d & -> & Hd). exists d. split; [done|].
    rewrite lookup_singleton_eq. split; [done|]. unfold res. cbn [rows fst].
    by rewrite select_results_driver, length_map. }
  assert (length (rows fp0) = length fl) as Hlen0 by (unfold fp0; cbn [rows]; by rewrite length_map).
  split.
  - intros _ Hone.
    assert (length (rows (merge_left "Driver" fp0 res)) = length fl) as Hlen.
    { rewrite merge_left_once, length_map; [done|].
      intros x Hx. destruct (Hsel x Hx) as (d & Hd & _ & ->). by apply Hone. }
    unfold assign_values at 2. rewrite bool_decide_eq_true_2 by (by rewrite !length_map).
    cbn [mbind result_bind].
    destruct (mapM id (map (λ p : string * float, Float.sub p.2 m) fl)) as [qs|] eqn:Eqs.
    + cbn [mbind result_bind]. unfold assign_values. cbn [rows].
      rewrite bool_decide_eq_true_2; [cbn [mbind result_bind]; by eexists|].
      apply (mapM_id_Some _ _ 0%Q) in Eqs as [_ ->]. unfold rank_min.
      rewrite !length_map, length_zip_with, !length_map, Hlen. lia.
    + exfalso. assert (is_Some (mapM id (map (λ p : string * float, Float.sub p.2 m) fl)))
        as [? ?]; [|congruence].
      apply mapM_is_Some, Forall_forall. intros g Hg.
      apply list_elem_of_fmap in Hg as (p & -> & Hp).
      destruct (fastest_laps_gap _ _ Hp) as (t & m' & _ & _ & Hsub & _).
      fold tl m in Hsub. rewrite Hsub. simpl. eauto.
  - intros (d & Hd & Hlen).
    assert (length fl < length (rows (merge_left "Driver" fp0 res)))%nat as Hlt.
    { rewrite <- Hlen0. apply length_merge_left.
      exists {[ "Driver" := Str d ]}. split.
      - unfold fp0, fl, fastest_laps. cbn [rows]. rewrite <- list_fmap_compose.
        apply list_elem_of_fmap. by exists d.
      - rewrite lookup_singleton_eq. unfold res. cbn [rows].
        by rewrite select_results_driver, length_map. }
    unfold assign_values at 2. rewrite bool_decide_eq_false_2; [done|].
    rewrite !length_map. lia.
Qed.

Lemma practice_table_returned_scenarios :
  is_Ok (get_fp_data (Some scenario_practice) "FP1") ∧
  get_fp_data (Some double_listed_practice) "FP1" = Raise ValueError.
Proof.
  split.
  - apply (proj1 (practice_table_returned scenario_practice "FP1")).
    + vm_compute. discriminate.
    + apply Forall_forall. apply (bool_decide_unpack _). vm_compute. exact I.
  - apply (proj2 (practice_table_returned double_listed_practice "FP1")).
    exists "AAA". split.
    + apply (bool_decide_unpack _). vm_compute. exact I.
    + vm_compute. lia.
Defined.

(** X14: the race pace of a row of the race table is the mean lap time of
    the quick laps of its driver, laps without a lap time skipped; a driver
    without a quick lap has neither a race pace nor a gap to the fastest race
    pace. *)
Theorem race_pace_of_driver (s : Session) (df : DataFrame) (x : row) :
  get_race_data (Some s) = Ok df → x ∈ rows df →
  ∃ d, x !! "Driver" = Some (Str d) ∧
    let quick := filter (λ l, Driver l = d ∧ IsQuick l = true) (laps s) in
    x !! "RacePace" = num (Float.mean (map LapTime quick)) ∧
    (quick = [] → x !! "RacePace" = None ∧ x !! "GapToFastestRacePace" = None).
Proof.
  rewrite get_race_data_Some. intros Hdf Hx.
  destruct (race_frame_rows s df Hdf) as (winner & _ & Hrows).
  destruct (proj1 (Hrows x) Hx) as (r & p & Hr & Hp & Heq). rewrite Heq. clear Heq.
  exists (Abbreviation r).
  rewrite (race_row_lookup_left _ _ _ _ _ _ "Driver" Hp)
    by (apply (bool_decide_unpack _); by vm_compute).
  split; [apply race_row_Driver|]. intros quick.
  set (quicklaps := pick_quicklaps (laps s)) in *.
  assert (laps_of (Abbreviation r) quicklaps = quick) as Hquick.
  { unfold laps_of, quicklaps, pick_quicklaps, quick.
    rewrite list_filter_filter. apply list_filter_iff. tauto. }
  assert (∀ c, c ∈ ["RacePace"; "GapToFastestRacePace"] →
            delete "Time" (race_row (laps s) quicklaps winner r ∪ p) !! c = p !! c)
    as Hlook.
  { intros c Hc. rewrite lookup_delete_ne.
    - apply lookup_union_r. unfold race_row. rewrite lookup_mk_row.
      repeat (apply elem_of_cons in Hc as [->|Hc]; [done|]). by apply elem_of_nil in Hc.
    - intros <-. repeat (apply elem_of_cons in Hc as [Hc|Hc]; [done|]).
      by apply elem_of_nil in Hc. }
  rewrite (Hlook "RacePace") by (left).
  rewrite (Hlook "GapToFastestRacePace") by (right; left).
  destruct Hp as [[-> Hsel]|[Hp Hk]].
  - rewrite !lookup_empty.
    assert (quick = []) as ->; [|done].
    rewrite <- Hquick. apply laps_of_nil. intros Hd.
    rewrite select_nil in Hsel.
    apply (Hsel (mk_row [("Driver", Some (Str (Abbreviation r)));
                         ("RacePace", num (Float.mean (map LapTime
                            (laps_of (Abbreviation r) quicklaps))));
                         ("GapToFastestRacePace",
                          num (Float.sub (Float.mean (map LapTime
                                 (laps_of (Abbreviation r) quicklaps)))
                                 (Float.min (map snd (mean_laptime quicklaps)))))])).
    + unfold race_pace. cbn [rows]. apply list_elem_of_fmap.
      exists (Abbreviation r, Float.mean (map LapTime (laps_of (Abbreviation r) quicklaps))).
      split; [done|]. apply list_elem_of_fmap. by exists (Abbreviation r).
    + by rewrite lookup_mk_row.
  - unfold race_pace in Hp. cbn [rows] in Hp.
    apply list_elem_of_fmap in Hp as (q & -> & Hq).
    apply list_elem_of_fmap in Hq as (d & -> & Hd). cbn [fst snd] in *.
    rewrite lookup_mk_row in Hk. simpl in Hk. injection Hk as ->.
    rewrite !lookup_mk_row. simpl. rewrite Hquick. split; [done|].
    intros E. by rewrite E.
Qed.

Lemma race_pace_of_driver_scenario :
  ∃ df x, get_race_data (Some scenario_race) = Ok df ∧ x ∈ rows df ∧
    x !! "Driver" = Some (Str "EEE") ∧
    x !! "RacePace" = None ∧ x !! "GapToFastestRacePace" = None.
Proof.
  destruct (returns_true (get_race_data (Some scenario_race))
              (λ df, bool_decide (((λ x : row, x !! "Driver") <$> rows df !! 3%nat)
                                  = Some (Some (Str "EEE")))))
    as (df & Hdf & Hrow); [vm_compute; reflexivity|].
  apply bool_decide_eq_true_1 in Hrow.
  destruct (rows df !! 3%nat) as [x|] eqn:Hx; [|discriminate].
  injection Hrow as HD.
  assert (x ∈ rows df) as Hin by (by eapply list_elem_of_lookup_2).
  exists df, x. split; [exact Hdf|]. split; [exact Hin|]. split; [exact HD|].
  destruct (race_pace_of_driver scenario_race df x Hdf Hin) as (d & HD' & _ & Hnone).
  rewrite HD in HD'. injection HD' as <-.
  apply Hnone. vm_compute. reflexivity.
Defined.

(** ** The rolling table *)

Lemma agg_row_key key specs (rs : list row) k :
  key ∉ map fst specs → agg_row key specs rs k !! key = Some k.
Proof.
  unfold agg_row. induction specs as [|sp specs IH]; intros Hkey.
  - apply lookup_singleton_eq.
  - cbn [foldr]. rewrite lookup_set_cell_ne; [apply IH|].
    + intros H. apply Hkey. by right.
    + intros E. apply Hkey. rewrite <- E. by left.
Qed.

Lemma agg_row_lookup key specs (rs : list row) k out col :
  NoDup (map fst specs) → (out, col) ∈ specs →
  agg_row key specs rs k !! out
  = num (Float.mean (map (λ x : row, cell_float (x !! col)) (select key (Some k) rs))).
Proof.
  unfold agg_row. induction specs as [|sp specs IH]; intros Hnd Hin.
  - by apply elem_of_nil in Hin.
  - cbn [map] in Hnd. apply NoDup_cons in Hnd as [Hsp Hnd]. cbn [foldr].
    apply elem_of_cons in Hin as [<-|Hin].
    + by rewrite lookup_set_cell, decide_True.
    + rewrite lookup_set_cell_ne; [by apply IH|].
      intros E. apply Hsp. apply list_elem_of_fmap. exists (out, col). by split.
Qed.

Lemma agg_row_labels key specs (rs : list row) k c :
  is_Some (agg_row key specs rs k !! c) → c = key ∨ c ∈ map fst specs.
Proof.
  unfold agg_row. induction specs as [|sp specs IH]; cbn [foldr].
  - intros [v Hv]. left. by apply lookup_singleton_Some in Hv as [-> _].
  - rewrite lookup_set_cell. case_decide as E.
    + intros _. right. rewrite <- E. left.
    + intros H. destruct (IH H) as [?|?]; [by left|right; by right].
Qed.

Lemma group_keys_NoDup key (df : DataFrame) : NoDup (group_keys key df).
Proof. unfold group_keys. rewrite sort_by_Permutation. apply NoDup_unique. Qed.

Lemma elem_of_group_keys key (df : DataFrame) k :
  k ∈ group_keys key df ↔ has_key key (Some k) df.
Proof.
  unfold group_keys. rewrite elem_of_sort_by, elem_of_unique, <- elem_of_column.
  rewrite list_elem_of_omap. split.
  - intros (v & Hv & E). simpl in E. by subst.
  - intros H. by exists (Some k).
Qed.

Lemma groupby_mean_rows key specs (df rf : DataFrame) :
  groupby_mean key specs df = Ok rf →
  rows rf = map (agg_row key specs (rows df)) (group_keys key df).
Proof.
  unfold groupby_mean. destruct (filter _ _); [|done].
  intros H. apply Ok_inj in H. by subst rf.
Qed.

Lemma rolling_specs_names :
  NoDup (map fst rolling_specs) ∧ "Driver" ∉ map fst rolling_specs ∧
  "Team" ∉ map fst rolling_specs ∧
  Forall (λ sp : string * string, sp.1 ∉ round_labels) rolling_specs.
Proof.
  split; [apply (bool_decide_unpack _); by vm_compute|].
  split; [apply (bool_decide_unpack _); by vm_compute|].
  split; [apply (bool_decide_unpack _); by vm_compute|].
  apply (bool_decide_unpack _); by vm_compute.
Qed.

(** The rows of the rolling table: one per driver of the season so far. *)
Lemma rolling_features_rows (std : DataFrame) (standings : result DataFrame) (rf : DataFrame) :
  rolling_features std standings = Ok rf →
  (∀ st, standings = Ok st → ∀ k, (length (select "Driver" k (rows st)) ≤ 1)%nat) →
  (rows rf = [] ∧ (rows std = [] ∨ "Driver" ∉ columns std ∨ columns std = [])) ∨
  (columns rf ≠ [] ∧
   rows rf = map (rolling_row (rows std) standings) (group_keys "Driver" std)).
Proof.
  unfold rolling_features. intros H Hst.
  destruct (df_empty std || negb (bool_decide ("Driver" ∈ columns std))) eqn:E.
  - apply Ok_inj in H. subst rf. left. split; [done|].
    apply orb_true_iff in E as [E|E].
    + unfold df_empty in E. apply orb_true_iff in E as [E|E];
        apply bool_decide_eq_true_1 in E; auto.
    + apply negb_true_iff, bool_decide_eq_false_1 in E. auto.
  - destruct (groupby_mean "Driver" rolling_specs std) as [rf0|] eqn:E0; [|done].
    cbn [mbind result_bind] in H. apply Ok_inj in H. right.
    pose proof (groupby_mean_rows _ _ _ _ E0) as Hrows0.
    assert (columns rf0 ≠ []) as Hcols0.
    { unfold groupby_mean in E0. destruct (filter _ _); [|done].
      apply Ok_inj in E0. by subst rf0. }
    set (rf1 := assign_with "Team" team_of rf0) in *.
    assert (columns rf1 ≠ []) as Hcols1.
    { unfold rf1, assign_with. cbn [columns].
      destruct (bool_decide ("Team" ∈ columns rf0)); [done|by destruct (columns rf0)]. }
    assert (rows rf1 = map (λ k, let aggregated := agg_row "Driver" rolling_specs (rows std) k in
                                 set_cell "Team" (team_of aggregated) aggregated)
                           (group_keys "Driver" std)) as Hrows1.
    { unfold rf1, assign_with. cbn [rows]. by rewrite Hrows0, <- list_fmap_compose. }
    destruct standings as [st|e]; subst rf.
    + split.
      * cbn [columns merge_left]. unfold merged_columns. by destruct (columns rf1).
      * rewrite merge_left_unique by (by apply Hst). rewrite Hrows1, <- list_fmap_compose.
        done.
    + by split.
Qed.

Lemma rolling_row_Driver (std : list row) (standings : result DataFrame) k :
  rolling_row std standings k !! "Driver" = Some k.
Proof.
  destruct rolling_specs_names as (_ & HD & _).
  assert (set_cell "Team" (team_of (agg_row "Driver" rolling_specs std k))
            (agg_row "Driver" rolling_specs std k) !! "Driver" = Some k) as H.
  { rewrite lookup_set_cell_ne by done. by apply agg_row_key. }
  unfold rolling_row. cbv zeta. destruct standings as [st|]; [|done].
  by apply lookup_union_Some_l.
Qed.

(** What a pass of the loop emits: the rows of the round record, each with
    the rolling row of its driver. *)
Lemma emit_rows (history : list DataFrame) (standings : result DataFrame)
    (rd block : DataFrame) :
  emit history standings = Ok block →
  last history = Some rd → "Driver" ∈ columns rd →
  (∀ st, standings = Ok st → ∀ k, (length (select "Driver" k (rows st)) ≤ 1)%nat) →
  rows block = map (λ a, a ∪ features (history ≫= rows) standings a) (rows rd).
Proof.
  unfold emit. intros H Hlast Hcol Hst.
  assert (rd ∈ history) as Hrd.
  { apply last_Some in Hlast as [l' ->]. apply elem_of_app. right. left. }
  rewrite concat_Ok in H by (intros E; rewrite E in Hrd; by apply elem_of_nil in Hrd).
  cbn [mbind result_bind] in H. rewrite Hlast in H.
  set (std := {| columns := unique (history ≫= columns); rows := history ≫= rows |}) in *.
  destruct (rolling_features std standings) as [rf|] eqn:Erf; [|done].
  cbn [mbind result_bind] in H. apply Ok_inj in H. subst block.
  assert (∀ a, a ∈ rows rd → a ∈ rows std) as Hsub.
  { intros a Ha. cbn [rows std]. apply list_elem_of_bind. by exists rd. }
  assert ("Driver" ∈ columns std) as HD.
  { cbn [columns std]. apply elem_of_unique, list_elem_of_bind. by exists rd. }
  destruct (rolling_features_rows _ _ _ Erf Hst) as [[Hnil Hwhy]|[Hcols Hrows]].
  - assert (rows rd = []) as Hnone.
    { destruct Hwhy as [E|[E|E]]; [|done|rewrite E in HD; by apply elem_of_nil in HD].
      destruct (rows rd) as [|a l]; [done|].
      assert (a ∈ rows std) as Ha by (apply Hsub; left).
      rewrite E in Ha. by apply elem_of_nil in Ha. }
    unfold round_with_features, df_empty. rewrite Hnil, bool_decide_eq_true_2 by done.
    cbn [orb negb]. by rewrite Hnone.
  - assert (∀ a, a ∈ rows rd →
              partner "Driver" rf a = features (rows std) standings a) as Hpartner.
    { intros a Ha. unfold features.
      destruct (partner_cases "Driver" rf a) as [[-> Hsel]|[Hin Hk]].
      - destruct (a !! "Driver") as [k|] eqn:Ek; [|done]. exfalso.
        rewrite select_nil in Hsel. apply (Hsel (rolling_row (rows std) standings k)).
        + rewrite Hrows. apply list_elem_of_fmap. exists k. split; [done|].
          apply elem_of_group_keys. exists a. split; [by apply Hsub|done].
        + apply rolling_row_Driver.
      - rewrite Hrows in Hin. apply list_elem_of_fmap in Hin as (k & Hp & _).
        rewrite Hp in Hk |- *. rewrite rolling_row_Driver in Hk. by rewrite <- Hk. }
    assert (∀ k, (length (select "Driver" k (rows rf)) ≤ 1)%nat) as Hone.
    { intros k. apply select_NoDup. unfold column. rewrite Hrows, <- list_fmap_compose.
      rewrite (list_fmap_ext _ Some (group_keys "Driver" std))
        by (intros; cbn [compose]; apply rolling_row_Driver).
      apply NoDup_fmap_2; [|apply group_keys_NoDup]. by intros k1 k2 [= ->]. }
    unfold round_with_features. destruct (df_empty rf) eqn:Eempty; cbn [negb].
    + unfold df_empty in Eempty. apply orb_true_iff in Eempty as [E|E];
        apply bool_decide_eq_true_1 in E; [|done].
      rewrite <- (list_fmap_id (rows rd)) at 1. apply list_fmap_ext.
      intros i a Ha%list_elem_of_lookup_2. rewrite <- Hpartner by done.
      unfold partner. rewrite E. cbn. by rewrite (right_id ∅ (∪)).
    + rewrite merge_left_unique by done. apply list_fmap_ext.
      intros i a Ha%list_elem_of_lookup_2. by rewrite Hpartner.
Qed.

(** ** The rows of a round record *)

Lemma lookup_cells_Some c cells : is_Some (lookup_cells c cells) → c ∈ map fst cells.
Proof.
  induction cells as [|cv cells IH]; simpl; [by intros [? ?]|].
  case_decide as E; [intros _; rewrite <- E; left|intros H; right; by apply IH].
Qed.

Lemma round_row_union (a b : row) : round_row a → round_row b → round_row (a ∪ b).
Proof.
  intros ([d Hd] & Hla & Hfa) (_ & Hlb & Hfb). split; [|split].
  - exists d. by apply lookup_union_Some_l.
  - intros c [v Hv]. apply lookup_union_Some_raw in Hv as [Hv|[_ Hv]]; eauto.
  - intros v Hv. apply lookup_union_Some_raw in Hv as [Hv|[_ Hv]]; eauto.
Qed.

Lemma race_frame_round_rows (s : Session) (df : DataFrame) (x : row) :
  race_frame s = Ok df → x ∈ rows df → round_row x.
Proof.
  intros Hdf Hx. destruct (race_frame_rows s df Hdf) as (winner & _ & Hrows).
  destruct (proj1 (Hrows x) Hx) as (r & p & Hr & Hp & Heq). rewrite Heq. clear Heq.
  split; [|split].
  - exists (Abbreviation r).
    rewrite (race_row_lookup_left _ _ _ _ _ _ "Driver" Hp) by set_solver.
    apply race_row_Driver.
  - intros c [v Hv]. apply lookup_delete_Some in Hv as [Hc Hv].
    apply lookup_union_Some_raw in Hv as [Hv|[_ Hv]].
    + unfold race_row in Hv. rewrite lookup_mk_row in Hv.
      assert (is_Some (lookup_cells c
                [("Driver", Some (Str (Abbreviation r)));
                 ("FinishingPosition", num (Position r));
                 ("Status", Some (Str (Status r))); ("Time", num (Time r));
                 ("DNF_Dummy", Some (Num (Float.of_nat (DNF_Dummy r))));
                 ("FinishStatus", Some (Str (simplify_status (Status r))));
                 ("RaceTime",
                  num (compute_racetime (laps s) (pick_quicklaps (laps s)) winner r))]))
        as Hin%lookup_cells_Some by eauto.
      cbn [map fst] in Hin.
      repeat (apply elem_of_cons in Hin as [->|Hin];
              [done || (apply (bool_decide_unpack _); by vm_compute)|]).
      by apply elem_of_nil in Hin.
    + destruct (decide (c ∈ ["Driver"; "RacePace"; "GapToFastestRacePace"])) as [Hin|Hn].
      * repeat (apply elem_of_cons in Hin as [->|Hin];
                [apply (bool_decide_unpack _); by vm_compute|]).
        by apply elem_of_nil in Hin.
      * by rewrite (pace_part_lookup _ _ _ _ Hp Hn) in Hv.
  - intros v. rewrite (race_row_lookup_left _ _ _ _ _ _ "DNF_Dummy" Hp) by set_solver.
    unfold race_row. rewrite lookup_mk_row. simpl. unfold DNF_Dummy.
    intros [= <-]. destruct (Float.isna (Time r)); auto.
Qed.

Lemma quali_frame_round_rows (s : Session) (x : row) :
  x ∈ rows (quali_frame s) → round_row x.
Proof.
  intros (r & _ & ->)%elem_of_quali_frame. unfold quali_row. split; [|split].
  - exists (Abbreviation r). by rewrite lookup_mk_row.
  - intros c Hc. rewrite lookup_mk_row in Hc. apply lookup_cells_Some in Hc.
    cbn [map fst] in Hc.
    repeat (apply elem_of_cons in Hc as [->|Hc];
            [apply (bool_decide_unpack _); by vm_compute|]).
    by apply elem_of_nil in Hc.
  - intros v. by rewrite lookup_mk_row.
Qed.

Lemma fp_frame_round_rows fp (s : Session) (df : DataFrame) (x : row) :
  fp ∈ ["FP1"; "FP2"; "FP3"] → fp_frame fp s = Ok df → x ∈ rows df → round_row x.
Proof.
  intros Hfp Hdf Hx. pose proof (fp_frame_list _ _ _ Hdf) as Hrows. cbv zeta in Hrows.
  rewrite Hrows in Hx. apply elem_of_sort_by, list_elem_of_fmap in Hx as (p & -> & _).
  destruct (practice_row_lookup fp (timed_laps (laps s)) p) as (HD & _ & _ & _ & Hlabels).
  split; [|split].
  - by exists p.1.
  - intros c Hc. apply Hlabels in Hc.
    repeat (apply elem_of_cons in Hfp as [->|Hfp];
            [repeat (apply elem_of_cons in Hc as [->|Hc];
                     [apply (bool_decide_unpack _); by vm_compute|]);
             by apply elem_of_nil in Hc|]).
    by apply elem_of_nil in Hfp.
  - intros v Hv. assert (is_Some (practice_row fp (timed_laps (laps s)) p !! "DNF_Dummy"))
      as Hc by eauto.
    apply Hlabels in Hc.
    repeat (apply elem_of_cons in Hc as [Hc|Hc]; [done|]). by apply elem_of_nil in Hc.
Qed.

Lemma merge_outer_round_rows (l r : DataFrame) :
  (∀ x, x ∈ rows l → round_row x) → (∀ x, x ∈ rows r → round_row x) →
  ∀ x, x ∈ rows (merge_outer "Driver" l r) → round_row x.
Proof.
  intros Hl Hr x Hx. apply elem_of_merge_outer in Hx.
  destruct Hx as [[Hx _]|[[Hx _]|(a & b & Ha & Hb & _ & ->)]]; auto.
  apply round_row_union; auto.
Qed.

Lemma merge_present_round_rows (l r : DataFrame) :
  (∀ x, x ∈ rows l → round_row x) → (∀ x, x ∈ rows r → round_row x) →
  ∀ x, x ∈ rows (merge_present l r) → round_row x.
Proof.
  intros Hl Hr. unfold merge_present. destruct (negb _); [|done].
  by apply merge_outer_round_rows.
Qed.

Lemma fp_merged_round_rows (fps : list DataFrame) :
  (∀ fp x, fp ∈ fps → x ∈ rows fp → round_row x) →
  ∀ x, x ∈ rows (fp_merged fps) → round_row x.
Proof.
  destruct fps as [|d ds]; [intros _ x Hx; by apply elem_of_nil in Hx|].
  cbn [fp_merged]. intros Hall.
  assert (∀ x, x ∈ rows d → round_row x) as Hd by (intros x; apply Hall; left).
  assert (∀ fp x, fp ∈ ds → x ∈ rows fp → round_row x) as Hds
    by (intros fp x Hfp; apply Hall; by right).
  clear Hall. revert d Hd. induction ds as [|d' ds IH]; intros d Hd; [done|].
  cbn [foldl]. apply IH.
  - intros fp x Hfp. apply Hds. by right.
  - apply merge_outer_round_rows; [done|]. intros x. apply Hds. left.
Qed.

(** Every row of a round record names its driver and carries known labels. *)
Lemma round_data_round_rows w season rnd (x : row) :
  x ∈ rows (round_data w season rnd) → round_row x.
Proof.
  unfold round_data. rewrite assemble_unfold.
  intros (y & Hy & ->)%elem_of_assign_const.
  assert (round_row y) as (Hd & Hl & Hf).
  { revert y Hy. apply merge_present_round_rows; [apply merge_present_round_rows|].
    - intros y Hy. destruct (get_session w season rnd "R") as [s|];
        [|by apply elem_of_nil in Hy].
      rewrite get_race_data_Some in Hy. destruct (race_frame s) as [df|] eqn:E;
        [|by apply elem_of_nil in Hy].
      by eapply race_frame_round_rows.
    - intros y Hy. destruct (get_session w season rnd "Q") as [s|];
        [|by apply elem_of_nil in Hy].
      change (y ∈ rows (quali_frame s)) in Hy.
      by eapply quali_frame_round_rows.
    - apply fp_merged_round_rows. intros fp y Hfp Hy.
      unfold fp_data in Hfp. apply list_elem_of_bind in Hfp as (name & Hfp & Hname).
      destruct (get_session w season rnd name) as [s|]; [|by apply elem_of_nil in Hfp].
      change (get_fp_data (Some s) name) with (fp_frame name s) in Hfp.
      destruct (fp_frame name s) as [df|] eqn:E; [|by apply elem_of_nil in Hfp].
      apply list_elem_of_singleton in Hfp as ->.
      by eapply fp_frame_round_rows. }
  split; [|split].
  - destruct Hd as [d Hd]. exists d. by rewrite lookup_insert_ne.
  - intros c Hc. destruct (decide (c = "Round")) as [->|Hne].
    + apply (bool_decide_unpack _). by vm_compute.
    + rewrite lookup_insert_ne in Hc by done. by apply Hl.
  - intros v. rewrite lookup_insert_ne by done. apply Hf.
Qed.

(** ** The rows of a round in the season table *)

Lemma standings_unique e season n (st : DataFrame) k :
  get_driver_standings e season n = Ok st →
  (length (select "Driver" k (rows st)) ≤ 1)%nat.
Proof.
  intros Hst. apply select_NoDup.
  destruct (get_driver_standings_Ok _ _ _ _ Hst) as (races & results & _ & _ & Hframe).
  rewrite (standings_frame_drivers _ _ Hframe).
  apply NoDup_fmap_2; [|apply NoDup_unique]. by intros d1 d2 [= ->].
Qed.

Lemma standings_labels e season n (st : DataFrame) (y : row) c :
  get_driver_standings e season n = Ok st → y ∈ rows st → is_Some (y !! c) →
  c ∈ ["Driver"; "Points"; "ChampPosition"].
Proof.
  intros Hst Hy Hc.
  destruct (get_driver_standings_Ok _ _ _ _ Hst) as (races & results & _ & _ & Hframe).
  destruct (standings_frame_list _ _ Hframe) as (? & ? & ? & _ & _ & _ & _ & _ & Hrows).
  rewrite Hrows in Hy. apply list_elem_of_fmap in Hy as (sd & -> & _).
  rewrite lookup_mk_row in Hc. by apply lookup_cells_Some in Hc.
Qed.

Lemma last_round_data w season n :
  last (map (round_data w season) (seq 1 (S n))) = Some (round_data w season (S n)).
Proof. rewrite seq_S, map_app. cbn [map]. apply last_snoc. Qed.

(** The rows of a round in the season table are the rows of the round record,
    in their order, each with what the rolling table holds for its driver. *)
Lemma season_block_rows w season round_limit (table : DataFrame) rnd :
  get_season_data_with_features w season round_limit = Ok table →
  (1 ≤ rnd ≤ round_limit)%nat →
  rows_of_round rnd table
  = map (λ a, a ∪ features (map (round_data w season) (seq 1 rnd) ≫= rows)
                           (get_driver_standings (ergast w) season rnd) a)
        (rows (round_data w season rnd)).
Proof.
  intros Htable Hrnd. destruct rnd as [|i]; [lia|].
  destruct (season_rows_of_round _ _ _ _ i Htable) as (block & Hemit & ->); [lia|].
  apply (emit_rows _ _ _ _ Hemit).
  - apply last_round_data.
  - apply round_data_Driver.
  - intros st Hst k. by eapply standings_unique.
Qed.

Lemma elem_of_season_block w season round_limit (table : DataFrame) rnd (x : row) :
  get_season_data_with_features w season round_limit = Ok table →
  (1 ≤ rnd ≤ round_limit)%nat →
  x ∈ rows_of_round rnd table →
  ∃ a d, a ∈ rows (round_data w season rnd) ∧ round_row a ∧
         a !! "Driver" = Some (Str d) ∧
         x = a ∪ rolling_row (map (round_data w season) (seq 1 rnd) ≫= rows)
                             (get_driver_standings (ergast w) season rnd) (Str d).
Proof.
  intros Htable Hrnd Hx. rewrite (season_block_rows _ _ _ _ _ Htable Hrnd) in Hx.
  apply list_elem_of_fmap in Hx as (a & -> & Ha).
  pose proof (round_data_round_rows _ _ _ _ Ha) as Hok.
  destruct Hok as ([d Hd] & Hl & Hf). exists a, d.
  split; [done|]. split; [by split; eauto|]. split; [done|].
  unfold features. by rewrite Hd.
Qed.

Lemma with_team_lookup (std : list row) d :
  let aggregated := agg_row "Driver" rolling_specs std (Str d) in
  let with_team := set_cell "Team" (team_of aggregated) aggregated in
  (∀ out col, (out, col) ∈ rolling_specs →
     with_team !! out
     = num (Float.mean (map (λ r : row, cell_float (r !! col))
                            (select "Driver" (Some (Str d)) std)))) ∧
  with_team !! "Team" = Str <$> mapTeams !! d ∧
  with_team !! "Driver" = Some (Str d) ∧
  (∀ c, is_Some (with_team !! c) →
        c = "Driver" ∨ c = "Team" ∨ c ∈ map fst rolling_specs).
Proof.
  intros aggregated with_team.
  destruct rolling_specs_names as (Hnd & HD & HT & _).
  assert (aggregated !! "Driver" = Some (Str d)) as Hkey by (by apply agg_row_key).
  split; [|split; [|split]].
  - intros out col Hin. unfold with_team. rewrite lookup_set_cell_ne.
    + by apply agg_row_lookup.
    + intros <-. apply HT. apply list_elem_of_fmap. by exists ("Team", col).
  - unfold with_team. rewrite lookup_set_cell, decide_True by done.
    unfold team_of. by rewrite Hkey.
  - unfold with_team. by rewrite lookup_set_cell_ne.
  - intros c. unfold with_team. rewrite lookup_set_cell. case_decide; [auto|].
    intros Hc. apply agg_row_labels in Hc as [?|?]; auto.
Qed.

(** The cells of a rolling row, when the standings are those of the
    provider. *)
Lemma rolling_row_lookup e season n (std : list row) d :
  let standings := get_driver_standings e season n in
  let x := rolling_row std standings (Str d) in
  (∀ out col, (out, col) ∈ rolling_specs →
     x !! out = num (Float.mean (map (λ r : row, cell_float (r !! col))
                                     (select "Driver" (Some (Str d)) std)))) ∧
  x !! "Team" = Str <$> mapTeams !! d ∧
  (∀ c, c ∈ ["Points"; "ChampPosition"] →
     match standings with
     | Ok st => x !! c = partner "Driver" st x !! c
     | Raise _ => x !! c = None
     end).
Proof.
  intros standings x.
  destruct (with_team_lookup std d) as (Hmeans & Hteam & Hkey & Hlabels).
  cbv zeta in Hmeans, Hteam, Hkey, Hlabels.
  set (with_team := set_cell "Team" _ _) in *.
  assert (∀ c, c ∈ ["Points"; "ChampPosition"] → with_team !! c = None) as Hnone.
  { intros c Hc. destruct (with_team !! c) as [v|] eqn:Ev; [|done].
    exfalso. destruct (Hlabels c) as [Hin|[Hin|Hin]]; [eauto| | |];
      repeat (apply elem_of_cons in Hc as [Hc|Hc];
              [subst c; first [discriminate Hin
                              |revert Hin; apply (bool_decide_unpack _); by vm_compute]|]);
      by apply elem_of_nil in Hc. }
  unfold x, rolling_row. cbv zeta. fold with_team. fold standings.
  destruct standings as [st|err] eqn:Est; [|by split; [|split]].
  assert (∀ c, c ∉ ["Driver"; "Points"; "ChampPosition"] →
               (with_team ∪ partner "Driver" st with_team) !! c = with_team !! c) as Hleft.
  { intros c Hc. rewrite lookup_union.
    destruct (partner_cases "Driver" st with_team) as [[-> _]|[Hin _]].
    - rewrite lookup_empty. by destruct (with_team !! c).
    - destruct (partner "Driver" st with_team !! c) as [v|] eqn:Ev;
        [|by destruct (with_team !! c)].
      destruct Hc. eapply standings_labels; eauto. }
  split; [|split].
  - intros out col Hin. rewrite Hleft; [by apply Hmeans|].
    destruct rolling_specs_names as (_ & _ & _ & Hall).
    intros Hc. assert (out ∈ map fst rolling_specs) as Hout
      by (apply list_elem_of_fmap; by exists (out, col)).
    repeat (apply elem_of_cons in Hc as [Hc|Hc];
            [subst out; revert Hout; apply (bool_decide_unpack _); by vm_compute|]).
    by apply elem_of_nil in Hc.
  - rewrite Hleft; [done|]. apply (bool_decide_unpack _). by vm_compute.
  - intros c Hc. rewrite lookup_union, (Hnone c Hc).
    assert (partner "Driver" st (with_team ∪ partner "Driver" st with_team)
            = partner "Driver" st with_team) as ->.
    { unfold partner at 1 3. by rewrite lookup_union_partner_key. }
    by destruct (partner "Driver" st with_team !! c).
Qed.

Lemma round_row_no_feature (a : row) c :
  round_row a → c ∉ round_labels → a !! c = None.
Proof.
  intros (_ & Hl & _) Hc. destruct (a !! c) as [v|] eqn:E; [|done].
  destruct Hc. apply Hl. eauto.
Qed.

Lemma lookup_union_r_None (a b : row) c : a !! c = None → (a ∪ b) !! c = b !! c.
Proof. intros H. rewrite lookup_union, H. by destruct (b !! c). Qed.

(** X16: the rows of a round in the season table are the rows of the round
    record, one for one and in the same order, each with all the cells of its
    row of the round record: the merge with the rolling table neither drops
    nor doubles a row. *)
Theorem one_row_per_round_record (w : World) (season round_limit : nat)
    (table : DataFrame) (rnd : nat) :
  get_season_data_with_features w season round_limit = Ok table →
  (1 ≤ rnd ≤ round_limit)%nat →
  Forall2 (λ x a : row, a ⊆ x)
          (rows_of_round rnd table) (rows (round_data w season rnd)).
Proof.
  intros Htable Hrnd. rewrite (season_block_rows _ _ _ _ _ Htable Hrnd).
  apply Forall2_fmap_l, Forall_Forall2_diag, Forall_forall.
  intros a _. apply map_union_subseteq_l.
Qed.

Lemma season_block_means (w : World) (season round_limit : nat) (table : DataFrame)
    (rnd : nat) (x : row) :
  get_season_data_with_features w season round_limit = Ok table →
  (1 ≤ rnd ≤ round_limit)%nat →
  x ∈ rows_of_round rnd table →
  ∃ d, x !! "Driver" = Some (Str d) ∧
    ∀ out col, (out, col) ∈ rolling_specs →
      x !! out = num (Float.mean (map (λ r : row, cell_float (r !! col))
                                      (rows_so_far w season rnd d))).
Proof.
  intros Htable Hrnd Hx.
  destruct (elem_of_season_block _ _ _ _ _ _ Htable Hrnd Hx) as (a & d & Ha & Hok & Hd & ->).
  exists d. split; [by apply lookup_union_Some_l|].
  intros out col Hin.
  destruct (rolling_row_lookup (ergast w) season rnd
              (map (round_data w season) (seq 1 rnd) ≫= rows) d) as (Hmeans & _).
  rewrite lookup_union_r_None; [by apply Hmeans|].
  apply round_row_no_feature; [done|].
  destruct rolling_specs_names as (_ & _ & _ & Hall).
  rewrite Forall_forall in Hall. apply (Hall (out, col) Hin).
Qed.

(** X17: in a row of round N of the season table, each rolling column is
    the mean of its source column over the rows of the driver in the round
    records of the rounds 1..N, missing values skipped, and is missing when
    the driver has no value there. *)
Theorem rolling_means (w : World) (season round_limit : nat) (table : DataFrame)
    (rnd : nat) (x : row) :
  get_season_data_with_features w season round_limit = Ok table →
  (1 ≤ rnd ≤ round_limit)%nat →
  x ∈ rows_of_round rnd table →
  ∃ d, x !! "Driver" = Some (Str d) ∧
    ∀ out col, (out, col) ∈ rolling_specs →
      x !! out = num (Float.mean (map (λ r : row, cell_float (r !! col))
                                      (rows_so_far w season rnd d))).
Proof.
  intros Htable Hrnd Hx.
  destruct (elem_of_season_block _ _ _ _ _ _ Htable Hrnd Hx) as (a & d & Ha & Hok & Hd & ->).
  exists d. split; [by apply lookup_union_Some_l|].
  intros out col Hin.
  destruct (rolling_row_lookup (ergast w) season rnd
              (map (round_data w season) (seq 1 rnd) ≫= rows) d) as (Hmeans & _).
  rewrite lookup_union_r_None; [by apply Hmeans|].
  apply round_row_no_feature; [done|].
  destruct rolling_specs_names as (_ & _ & _ & Hall).
  rewrite Forall_forall in Hall. apply (Hall (out, col) Hin).
Qed.

(** X19: the team of a row of the season table is the entry of its driver in
    the fixed table of teams, and is missing for a driver the table does not
    name. *)
Theorem team_of_driver (w : World) (season round_limit : nat) (table : DataFrame)
    (rnd : nat) (x : row) :
  get_season_data_with_features w season round_limit = Ok table →
  (1 ≤ rnd ≤ round_limit)%nat →
  x ∈ rows_of_round rnd table →
  ∃ d, x !! "Driver" = Some (Str d) ∧ x !! "Team" = Str <$> mapTeams !! d.
Proof.
  intros Htable Hrnd Hx.
  destruct (elem_of_season_block _ _ _ _ _ _ Htable Hrnd Hx) as (a & d & Ha & Hok & Hd & ->).
  exists d. split; [by apply lookup_union_Some_l|].
  destruct (rolling_row_lookup (ergast w) season rnd
              (map (round_data w season) (seq 1 rnd) ≫= rows) d) as (_ & Hteam & _).
  rewrite lookup_union_r_None; [done|].
  apply round_row_no_feature; [done|]. apply (bool_decide_unpack _). by vm_compute.
Qed.

(** X20: when the standings of round N cannot be computed the rows of the
    round are still emitted, without points and championship position; when
    they can, a row has the points and the position of the standings row of
    its driver, and neither when the standings do not name the driver. *)
Theorem standings_columns (w : World) (season round_limit : nat) (table : DataFrame)
    (rnd : nat) (x : row) :
  get_season_data_with_features w season round_limit = Ok table →
  (1 ≤ rnd ≤ round_limit)%nat →
  x ∈ rows_of_round rnd table →
  ∃ d, x !! "Driver" = Some (Str d) ∧
    match get_driver_standings (ergast w) season rnd with
    | Ok standings =>
        (∀ y, y ∈ rows standings → y !! "Driver" = Some (Str d) →
              x !! "Points" = y !! "Points" ∧
              x !! "ChampPosition" = y !! "ChampPosition") ∧
        ((∀ y, y ∈ rows standings → y !! "Driver" ≠ Some (Str d)) →
         x !! "Points" = None ∧ x !! "ChampPosition" = None)
    | Raise _ => x !! "Points" = None ∧ x !! "ChampPosition" = None
    end.
Proof.
  intros Htable Hrnd Hx.
  destruct (elem_of_season_block _ _ _ _ _ _ Htable Hrnd Hx) as (a & d & Ha & Hok & Hd & ->).
  exists d. split; [by apply lookup_union_Some_l|].
  set (std := map (round_data w season) (seq 1 rnd) ≫= rows).
  destruct (rolling_row_lookup (ergast w) season rnd std d) as (_ & _ & Hst).
  cbv zeta in Hst.
  pose proof (rolling_row_Driver std (get_driver_standings (ergast w) season rnd) (Str d))
    as Hkey.
  assert (∀ c, c ∈ ["Points"; "ChampPosition"] → a !! c = None) as Hnone.
  { intros c Hc. apply round_row_no_feature; [done|].
    repeat (apply elem_of_cons in Hc as [->|Hc];
            [apply (bool_decide_unpack _); by vm_compute|]).
    by apply elem_of_nil in Hc. }
  pose proof (Hst "Points" ltac:(left)) as HP.
  pose proof (Hst "ChampPosition" ltac:(right; left)) as HC.
  rewrite !lookup_union_r_None by (apply Hnone; (left || (right; left))).
  destruct (get_driver_standings (ergast w) season rnd) as [st|err] eqn:Est; [|done].
  rewrite HP, HC.
  set (x := rolling_row std (Ok st) (Str d)) in *.
  split.
  - intros y Hy Hyd.
    destruct (partner_cases "Driver" st x) as [[_ Hsel]|[Hin Hk]].
    + rewrite select_nil in Hsel. destruct (Hsel y Hy). congruence.
    + assert (partner "Driver" st x = y) as ->; [|done].
      pose proof (standings_unique _ _ _ _ (x !! "Driver") Est) as Hone.
      assert (partner "Driver" st x ∈ select "Driver" (x !! "Driver") (rows st)) as H1
        by (by apply elem_of_select).
      assert (y ∈ select "Driver" (x !! "Driver") (rows st)) as H2
        by (apply elem_of_select; split; [done|congruence]).
      destruct (select "Driver" (x !! "Driver") (rows st)) as [|z [|z' zs]];
        [by apply elem_of_nil in H1| |simpl in Hone; lia].
      apply list_elem_of_singleton in H1, H2. congruence.
  - intros Hnot. destruct (partner_cases "Driver" st x) as [[-> _]|[Hin Hk]]; [done|].
    destruct (Hnot _ Hin). congruence.
Qed.

Lemma total_bounds (lo hi : Q) (ys : list Q) :
  Forall (λ q, lo <= q <= hi)%Q ys →
  (Float.of_nat (length ys) * lo <= Float.total ys
   ∧ Float.total ys <= Float.of_nat (length ys) * hi)%Q.
Proof.
  induction 1 as [|y ys [Hlo Hhi] _ [IH1 IH2]].
  - change (Float.of_nat (length [])) with 0%Q. change (Float.total []) with 0%Q. lra.
  - cbn [length Float.total foldr]. fold (Float.total ys).
    unfold Qplus'. rewrite Qred_correct.
    assert (Float.of_nat (S (length ys)) == Float.of_nat (length ys) + 1)%Q as ->.
    { unfold Float.of_nat. rewrite Nat2Z.inj_succ, <- Z.add_1_r, inject_Z_plus. reflexivity. }
    lra.
Qed.

(** A mean lies between the bounds of the values it is taken of. *)
Lemma mean_bounds (lo hi : Q) (xs : list float) m :
  (∀ q, Some q ∈ xs → (lo <= q <= hi)%Q) →
  Float.mean xs = Some m → (lo <= m <= hi)%Q.
Proof.
  intros Hall. unfold Float.mean.
  destruct (Float.dropna xs) as [|y ys] eqn:E; [done|]. intros [= <-].
  assert (Forall (λ q, lo <= q <= hi)%Q (y :: ys)) as Hf.
  { apply Forall_forall. intros q Hq. apply Hall, elem_of_dropna. by rewrite E. }
  destruct (total_bounds lo hi _ Hf) as [H1 H2].
  assert (0 < Float.of_nat (length (y :: ys)))%Q as Hpos.
  { unfold Float.of_nat. cbn [length]. rewrite Nat2Z.inj_succ.
    change 0%Q with (inject_Z 0). rewrite <- Zlt_Qlt. lia. }
  rewrite Qred_correct.
  change (Qplus' y (Float.total ys)) with (Float.total (y :: ys)).
  change (Float.of_nat (S (length ys))) with (Float.of_nat (length (y :: ys))).
  revert H1 H2 Hpos.
  generalize (Float.total (y :: ys)), (Float.of_nat (length (y :: ys))).
  intros t n H1 H2 Hpos. split.
  - apply Qle_shift_div_l; [done|]. lra.
  - apply Qle_shift_div_r; [done|]. lra.
Qed.

Lemma elem_of_rows_so_far w season n d (r : row) :
  r ∈ rows_so_far w season n d → round_row r.
Proof.
  unfold rows_so_far. intros [Hr _]%elem_of_select.
  apply list_elem_of_bind in Hr as (rd & Hr & Hrd).
  apply list_elem_of_fmap in Hrd as (k & -> & _).
  by eapply round_data_round_rows.
Qed.

(** X18: the share of retirements of a row of the season table lies between
    0 and 1. *)
Theorem dnf_percentage_bounds (w : World) (season round_limit : nat) (table : DataFrame)
    (rnd : nat) (x : row) (p : Q) :
  get_season_data_with_features w season round_limit = Ok table →
  (1 ≤ rnd ≤ round_limit)%nat →
  x ∈ rows_of_round rnd table →
  x !! "DNFPercentage" = Some (Num p) → (0 <= p <= 1)%Q.
Proof.
  intros Htable Hrnd Hx Hp.
  destruct (season_block_means _ _ _ _ _ _ Htable Hrnd Hx) as (d & _ & Hmeans).
  rewrite (Hmeans "DNFPercentage" "DNF_Dummy") in Hp
    by (apply (bool_decide_unpack _); by vm_compute).
  apply num_inv in Hp. revert Hp. apply mean_bounds.
  intros q Hq. apply list_elem_of_fmap in Hq as (r & Hq & Hr).
  apply elem_of_rows_so_far in Hr as (_ & _ & Hflag).
  symmetry in Hq. apply cell_float_Some in Hq.
  destruct (Hflag _ Hq) as [[= ->]|[= ->]]; lra.
Qed.

(** The row of AAA in the second round of the full season. *)
Lemma full_season_row :
  ∃ table x,
    get_season_data_with_features full_season 2025 2 = Ok table ∧
    x ∈ rows_of_round 2 table ∧
    x !! "Driver" = Some (Str "AAA") ∧ x !! "DNFPercentage" = Some (Num 0%Q).
Proof.
  destruct (returns_true (get_season_data_with_features full_season 2025 2)
              (λ table, bool_decide
                 (((λ x : row, (x !! "Driver", x !! "DNFPercentage"))
                   <$> head (rows_of_round 2 table))
                  = Some (Some (Str "AAA"), Some (Num 0%Q)))))
    as (table & Htable & Hhead); [vm_compute; reflexivity|].
  apply bool_decide_eq_true_1 in Hhead.
  destruct (rows_of_round 2 table) as [|x l] eqn:E; [discriminate|].
  exists table, x. split; [done|]. rewrite E. split; [left|].
  change (Some (x !! "Driver", x !! "DNFPercentage")
          = Some (Some (Str "AAA"), Some (Num 0%Q))) in Hhead.
  injection Hhead as H1 H2. split; [exact H1|exact H2].
Qed.

Lemma one_row_per_round_record_full_season :
  ∃ table,
    get_season_data_with_features full_season 2025 2 = Ok table ∧
    length (rows_of_round 2 table) = length (rows (round_data full_season 2025 2)).
Proof.
  destruct full_season_row as (table & _ & Htable & _).
  exists table. split; [exact Htable|].
  apply (Forall2_length (λ x a : row, a ⊆ x)).
  apply (one_row_per_round_record full_season 2025 2 table 2 Htable). lia.
Defined.

Lemma rolling_means_full_season :
  ∃ table x,
    get_season_data_with_features full_season 2025 2 = Ok table ∧
    x ∈ rows_of_round 2 table ∧ x !! "Driver" = Some (Str "AAA") ∧
    x !! "AvgFP1Position" = Some (Num 1%Q).
Proof.
  destruct full_season_row as (table & x & Htable & Hx & HD & _).
  exists table, x. split; [exact Htable|]. split; [exact Hx|]. split; [exact HD|].
  destruct (rolling_means full_season 2025 2 table 2 x Htable) as (d & HD' & Hmeans);
    [lia|exact Hx|].
  rewrite HD in HD'. injection HD' as <-.
  rewrite (Hmeans "AvgFP1Position" "Position_FP1")
    by (apply (bool_decide_unpack _); vm_compute; exact I).
  vm_compute. reflexivity.
Defined.

Lemma team_of_driver_full_season :
  ∃ table x,
    get_season_data_with_features full_season 2025 2 = Ok table ∧
    x ∈ rows_of_round 2 table ∧ x !! "Driver" = Some (Str "AAA") ∧
    x !! "Team" = None.
Proof.
  destruct full_season_row as (table & x & Htable & Hx & HD & _).
  exists table, x. split; [exact Htable|]. split; [exact Hx|]. split; [exact HD|].
  destruct (team_of_driver full_season 2025 2 table 2 x Htable) as (d & HD' & Hteam);
    [lia|exact Hx|].
  rewrite HD in HD'. injection HD' as <-. rewrite Hteam. vm_compute. reflexivity.
Defined.

Lemma standings_columns_full_season :
  ∃ table x,
    get_season_data_with_features full_season 2025 2 = Ok table ∧
    x ∈ rows_of_round 2 table ∧ x !! "Driver" = Some (Str "AAA") ∧
    x !! "Points" = None.
Proof.
  destruct full_season_row as (table & x & Htable & Hx & HD & _).
  exists table, x. split; [exact Htable|]. split; [exact Hx|]. split; [exact HD|].
  destruct (standings_columns full_season 2025 2 table 2 x Htable) as (d & HD' & Hst);
    [lia|exact Hx|].
  rewrite HD in HD'. injection HD' as <-.
  destruct (returns_true (get_driver_standings (ergast full_season) 2025 2)
              (λ st, bool_decide (Forall (λ y : row, y !! "Driver" ≠ Some (Str "AAA"))
                                         (rows st))))
    as (st & Est & Hall); [vm_compute; reflexivity|].
  apply bool_decide_eq_true_1 in Hall. rewrite Forall_forall in Hall.
  rewrite Est in Hst. exact (proj1 (proj2 Hst Hall)).
Defined.

Lemma dnf_percentage_bounds_full_season :
  ∃ table x p,
    get_season_data_with_features full_season 2025 2 = Ok table ∧
    x ∈ rows_of_round 2 table ∧ x !! "DNFPercentage" = Some (Num p) ∧
    (0 <= p <= 1)%Q.
Proof.
  destruct full_season_row as (table & x & Htable & Hx & _ & Hp).
  exists table, x, 0%Q. split; [exact Htable|]. split; [exact Hx|]. split; [exact Hp|].
  apply (dnf_percentage_bounds full_season 2025 2 table 2 x 0%Q Htable); [lia|exact Hx|exact Hp].
Defined.

(** ** The season table as a whole *)

Lemma bind_blocks (F : nat → list row) (blocks : list DataFrame) base :
  (∀ j b, blocks !! j = Some b → F (base + j)%nat = rows b) →
  seq base (length blocks) ≫= F = blocks ≫= rows.
Proof.
  revert base. induction blocks as [|b blocks IH]; intros base Hall; [done|].
  cbn [length seq]. rewrite !bind_cons. f_equal.
  - rewrite <- (Hall 0%nat b eq_refl). f_equal. lia.
  - apply IH. intros j b' Hj. rewrite <- (Hall (S j) b' Hj). f_equal. lia.
Qed.

(** X15: a season table is only returned for a round limit of at least 1,
    and its rows are the rows of round 1, then those of round 2, and so on up
    to the round limit: every row carries one of these rounds and the rounds
    come in ascending order. *)
Theorem season_table_rounds (w : World) (season round_limit : nat) (table : DataFrame) :
  get_season_data_with_features w season round_limit = Ok table →
  (1 ≤ round_limit)%nat ∧
  rows table = seq 1 round_limit ≫= (λ rnd, rows_of_round rnd table).
Proof.
  intros Htable. pose proof Htable as Hrun. unfold get_season_data_with_features in Hrun.
  destruct (run w season round_limit) as [acc|] eqn:Eacc; [|done].
  cbn [mbind result_bind] in Hrun.
  destruct (run_history _ _ _ _ Eacc) as [_ Hlen].
  destruct (all_rounds acc) as [|b bs] eqn:Eall; [done|].
  split; [rewrite <- Hlen; simpl; lia|].
  apply Ok_inj in Hrun. rewrite <- Hrun at 1. cbn [rows]. rewrite <- Hlen.
  symmetry. apply bind_blocks. intros j blk Hj. rewrite <- Eall in Hj.
  assert (j < round_limit)%nat as Hlt.
  { rewrite <- Hlen, <- Eall. by eapply lookup_lt_Some. }
  destruct (run_lookup _ _ _ _ _ Eacc Hlt) as (blk' & Hblk' & Hemit').
  destruct (season_rows_of_round _ _ _ _ j Htable Hlt) as (blk'' & Hemit'' & Hrows).
  change (1 + j)%nat with (S j). rewrite Hrows. congruence.
Qed.

Lemma season_table_rounds_full_season :
  ∃ table,
    get_season_data_with_features full_season 2025 2 = Ok table ∧
    rows table = rows_of_round 1 table ++ rows_of_round 2 table.
Proof.
  destruct (returns_is_Ok (get_season_data_with_features full_season 2025 2))
    as [table Htable]; [vm_compute; reflexivity|].
  exists table. split; [exact Htable|].
  destruct (season_table_rounds full_season 2025 2 table Htable) as [_ Hrows].
  rewrite Hrows at 1. cbn [seq mbind list_bind]. by rewrite app_nil_r.
Defined.

(** The record of a round in which no session could be loaded. *)
Lemma round_data_nothing_loaded w season rnd :
  (∀ kind, get_session w season rnd kind = None) →
  round_data w season rnd
  = {| columns := ["Driver"; "Round"]; rows := [] |}.
Proof.
  intros Hnone. unfold round_data, fp_data. cbn [mbind list_bind].
  by rewrite !Hnone.
Qed.

Lemma nothing_loaded_tables (n : nat) :
  let nothing := {| columns := ["Driver"; "Round"]; rows := [] |} in
  replicate (S n) nothing ≫= rows = [] ∧
  unique (replicate (S n) nothing ≫= columns) = ["Driver"; "Round"].
Proof.
  intros nothing. induction n as [|n [IH1 IH2]]; [done|].
  rewrite replicate_S, !bind_cons. split; [by rewrite IH1|].
  cbn [columns nothing app unique]. rewrite IH2. by vm_compute.
Qed.

(** X21: when no session of the rounds 1..L can be loaded, for L at least 1,
    the run does not fail: it returns the table with the columns Driver and
    Round and no rows. *)
Theorem rounds_without_sessions (w : World) (season round_limit : nat) :
  (1 ≤ round_limit)%nat →
  (∀ rnd kind, (1 ≤ rnd ≤ round_limit)%nat → get_session w season rnd kind = None) →
  get_season_data_with_features w season round_limit
  = Ok {| columns := ["Driver"; "Round"]; rows := [] |}.
Proof.
  intros Hlimit Hnone.
  set (nothing := {| columns := ["Driver"; "Round"]; rows := [] |}).
  assert (∀ n, (n ≤ round_limit)%nat →
            run w season n = Ok {| cumulative_data := replicate n nothing;
                                   all_rounds := replicate n nothing |}) as Hrun.
  { induction n as [|n IH]; intros Hn; [done|].
    rewrite run_S, IH by lia. cbn [mbind result_bind]. unfold step.
    cbn [cumulative_data all_rounds].
    rewrite round_data_nothing_loaded by (intros kind; apply Hnone; lia).
    fold nothing. rewrite <- !replicate_S_end.
    destruct (nothing_loaded_tables n) as [Hrows Hcols]. fold nothing in Hrows, Hcols.
    rewrite concat_Ok by done. cbn [mbind result_bind].
    unfold rolling_features, df_empty. cbn [rows columns]. rewrite Hrows.
    rewrite bool_decide_eq_true_2 by done. cbn [orb mbind result_bind].
    change (round_with_features nothing (empty_frame ["Driver"])) with nothing.
    by rewrite <- replicate_S_end. }
  unfold get_season_data_with_features. rewrite Hrun by done.
  cbn [mbind result_bind all_rounds].
  destruct round_limit as [|n]; [lia|].
  destruct (nothing_loaded_tables n) as [Hrows Hcols]. fold nothing in Hrows, Hcols.
  rewrite concat_Ok by done. by rewrite Hrows, Hcols.
Qed.

Lemma rounds_without_sessions_empty_season :
  get_season_data_with_features empty_season 2025 3
  = Ok {| columns := ["Driver"; "Round"]; rows := [] |}.
Proof.
  apply (rounds_without_sessions empty_season 2025 3); [lia|].
  intros rnd kind _. reflexivity.
Defined.

Lemma no_abort_after_rows_third_round :
  is_Ok (get_season_data_with_features season_after_two 2025 (2 + 1)).
Proof.
  destruct (returns_true (run season_after_two 2025 2)
              (λ acc, match cumulative_data acc ≫= rows with [] => false | _ => true end))
    as (acc & Hrun & Hrows); [vm_compute; reflexivity|].
  apply (no_abort_after_rows season_after_two 2025 2 1 acc Hrun).
  destruct (cumulative_data acc ≫= rows) as [|x l] eqn:E; [discriminate|].
  assert (x ∈ cumulative_data acc ≫= rows) as Hx by (rewrite E; left).
  apply list_elem_of_bind in Hx as (rd & Hx & Hrd). exists rd, x. split; [exact Hrd|exact Hx].
Defined.
